(** * Spur support chat: the chat-turn pipeline and its memory model

    A shallow embedding of the server side of the repository:

    - [src/lib/clientUtils.ts] (the part that is [lib/llm.ts]):
      [toGroqMessage], [generateAIResponse], [generateChatTitle];
    - [src/lib/memory.ts]: [getMemories], [summarizeAndStoreFacts];
    - [src/app/api/chat/route.ts]: [POST];
    - [src/app/api/chat/history/route.ts] and the sessions route: [GET].

    The relational store, the completion API and [JSON.parse] are external
    collaborators.  The store is modelled by three tables held in the
    program state; every outcome the collaborators decide (a query that
    comes back with an error, the body of a completion, a generated row
    identifier, a timestamp) is read from an [oracle].  JavaScript
    exceptions and early [return]s are threaded through a small monad. *)

From Stdlib Require Import String Ascii List Bool Arith ZArith Lia.
From Stdlib Require Import Permutation Sorted.
From Stdlib Require QArith DecimalString.
Import ListNotations.

Local Open Scope string_scope.
Local Open Scope list_scope.

Set Warnings "-register-all".

(** ** JavaScript values *)

(** A value as [JSON.parse] or [req.json()] produces it, together with
    [undefined] (an absent property).  Numbers are rationals. *)
Inductive jsval : Type :=
| JUndef
| JNull
| JBool (b : bool)
| JNum (q : QArith_base.Q)
| JStr (s : string)
| JArr (items : list jsval)
| JObj (fields : list (string * jsval)).

(** [!v] is [negb (truthy v)]. *)
Definition truthy (v : jsval) : bool :=
  match v with
  | JUndef | JNull => false
  | JBool b => b
  | JNum q => negb (Z.eqb (QArith_base.Qnum q) 0)
  | JStr s => negb (s =? "")
  | JArr _ | JObj _ => true
  end.

Fixpoint assoc (k : string) (fields : list (string * jsval)) : jsval :=
  match fields with
  | [] => JUndef
  | (k', v) :: rest => if k' =? k then v else assoc k rest
  end.

(** ** [String.prototype.trim]

    Strings are byte strings in UTF-8.  [trim] removes, at both ends, the
    ECMAScript WhiteSpace and LineTerminator code points: U+0009..U+000D,
    U+0020, U+00A0, U+1680, U+2000..U+200A, U+2028, U+2029, U+202F,
    U+205F, U+3000 and U+FEFF. *)

Definition byte_in (lo hi : nat) (a : ascii) : bool :=
  Nat.leb lo (nat_of_ascii a) && Nat.leb (nat_of_ascii a) hi.

Definition byte_is (n : nat) (a : ascii) : bool := Nat.eqb (nat_of_ascii a) n.

Definition ws1 (a : ascii) : bool := byte_in 9 13 a || byte_is 32 a.

(** U+00A0 is C2 A0. *)
Definition ws2 (a b : ascii) : bool := byte_is 194 a && byte_is 160 b.

(** E1 9A 80; E2 80 80..8A, A8, A9, AF; E2 81 9F; E3 80 80; EF BB BF. *)
Definition ws3 (a b c : ascii) : bool :=
  (byte_is 225 a && byte_is 154 b && byte_is 128 c)
  || (byte_is 226 a && byte_is 128 b
      && (byte_in 128 138 c || byte_is 168 c || byte_is 169 c || byte_is 175 c))
  || (byte_is 226 a && byte_is 129 b && byte_is 159 c)
  || (byte_is 227 a && byte_is 128 b && byte_is 128 c)
  || (byte_is 239 a && byte_is 187 b && byte_is 191 c).

(** Drops leading white space; with [flip] the bytes of a code point are
    met last byte first (the list is a reversed string). *)
Fixpoint drop_ws (flip : bool) (l : list ascii) : list ascii :=
  match l with
  | [] => []
  | a :: l1 =>
      if ws1 a then drop_ws flip l1
      else match l1 with
           | [] => l
           | b :: l2 =>
               if (if flip then ws2 b a else ws2 a b) then drop_ws flip l2
               else match l2 with
                    | [] => l
                    | c :: l3 =>
                        if (if flip then ws3 c b a else ws3 a b c)
                        then drop_ws flip l3
                        else l
                    end
           end
  end.

Definition trim (s : string) : string :=
  string_of_list_ascii
    (rev (drop_ws true (rev (drop_ws false (list_ascii_of_string s))))).

(** ** Exceptions, responses and the handler monad *)

Inductive exn : Type :=
| SyntaxError
| TypeError
| Error (msg : string).

(** What [console.log] and [console.error] are called with. *)
Inductive log : Type :=
| LogNamedConversationError
| LogMemoriesRetrieved (n : nat) (userId : string) (facts : list string)
| LogNoMemories (userId : string)
| LogAutoTitled (conversationId : jsval) (title : string)
| LogAutoTitleFailed (e : exn)
| LogExtractionFailed (e : exn)
| LogChatApiError (e : exn)
| LogFetchMemoriesError
| LogExtracting (n : jsval) (userId : string)
| LogStoreMemoriesError
| LogFactExtractionError (e : exn)
| LogGroqEmpty
| LogGroqError
| LogTitleError
| LogHistoryReceived
| LogSessionsReceived
| LogEnvUrlMissing
| LogEnvKeyMissing
| LogSessionIdRequired
| LogUserIdRequired
| LogFetchMessagesError
| LogFetchedMessages (n : nat) (sessionId : string)
| LogFetchConversationsError
| LogFetchedConversations (userId : string)
| LogHistoryApiError (e : exn)
| LogSessionsApiError (e : exn).

Inductive sender : Type := user | ai.

Definition sender_eqb (a b : sender) : bool :=
  match a, b with
  | user, user | ai, ai => true
  | _, _ => false
  end.

(** ** The store *)

Record conversation : Type := mkConversation {
  conv_id : string;
  conv_user_id : string;
  conv_name : string;
  conv_created_at : nat
}.

Record message : Type := mkMessage {
  msg_conversation_id : string;
  msg_sender : sender;
  msg_content : string;
  msg_created_at : nat
}.

Record memory : Type := mkMemory {
  mem_user_id : string;
  mem_content : string;
  mem_created_at : nat
}.

(** The title request started by a first turn and not awaited. *)
Record task : Type := mkTask {
  task_message : string;
  task_conversation : jsval
}.

Record state : Type := mkState {
  conversations : list conversation;
  messages : list message;
  memories : list memory;
  console : list log;
  inflight : list task
}.

Inductive json_body : Type :=
| ErrorBody (error : string)
| SessionBody (sessionId : string)
| ReplyBody (reply : string) (sessionId : jsval)
| MessagesBody (rows : list (sender * string * nat))
| ConversationsBody (rows : list (string * string * nat)).

Record response : Type := mkResponse {
  resp_body : json_body;
  resp_status : nat
}.

Inductive flow (A : Type) : Type :=
| Next (a : A)
| Return (r : response)
| Throw (e : exn).

Arguments Next {A} a.
Arguments Return {A} r.
Arguments Throw {A} e.

Definition js (A : Type) : Type := state -> flow A * state.

Definition ret {A : Type} (a : A) : js A := fun st => (Next a, st).

Definition bind {A B : Type} (m : js A) (k : A -> js B) : js B :=
  fun st =>
    match m st with
    | (Next a, st') => k a st'
    | (Return r, st') => (Return r, st')
    | (Throw e, st') => (Throw e, st')
    end.

Definition throw {A : Type} (e : exn) : js A := fun st => (Throw e, st).

Definition respond {A : Type} (b : json_body) (status : nat) : js A :=
  fun st => (Return (mkResponse b status), st).

(** [try { m } catch (e) { h e }]: a [return] inside [m] leaves the
    block, an exception enters the handler. *)
Definition try_catch {A : Type} (m : js A) (h : exn -> js A) : js A :=
  fun st =>
    match m st with
    | (Throw e, st') => h e st'
    | other => other
    end.

Definition when (c : bool) (m : js unit) : js unit :=
  if c then m else ret tt.

Declare Scope js_scope.
Delimit Scope js_scope with js.
Notation "x <- m ;; k" := (bind m (fun x => k))
  (at level 100, m at next level, right associativity) : js_scope.
Notation "m ;; k" := (bind m (fun _ => k))
  (at level 100, right associativity) : js_scope.
Local Open Scope js_scope.

Definition console_write (l : log) : js unit :=
  fun st =>
    (Next tt,
     mkState (conversations st) (messages st) (memories st)
             (console st ++ [l]) (inflight st)).

Definition spawn (t : task) : js unit :=
  fun st =>
    (Next tt,
     mkState (conversations st) (messages st) (memories st)
             (console st) (inflight st ++ [t])).

(** ** [ORDER BY]

    The store orders rows by a column; rows with equal values keep the
    order in which they were inserted. *)

Section OrderBy.
Context {A : Type} (le : A -> A -> bool).

Fixpoint place (x : A) (l : list A) : list A :=
  match l with
  | [] => [x]
  | y :: l' => if le x y then x :: l else y :: place x l'
  end.

Fixpoint order_by (l : list A) : list A :=
  match l with
  | [] => []
  | x :: l' => place x (order_by l')
  end.
End OrderBy.

Definition oldest_first {A : Type} (created_at : A -> nat) (a b : A) : bool :=
  Nat.leb (created_at a) (created_at b).

Definition newest_first {A : Type} (created_at : A -> nat) (a b : A) : bool :=
  Nat.leb (created_at b) (created_at a).

(** ** Configuration and the collaborators' outcomes *)

Record config : Type := mkConfig {
  NEXT_PUBLIC_SUPABASE_URL : option string;
  NEXT_PUBLIC_SUPABASE_PUBLISHABLE_KEY : option string;
  GROQ_API_KEY : option string
}.

(** [!process.env.X] is [negb (env_set X)]. *)
Definition env_set (v : option string) : bool :=
  match v with
  | Some s => negb (s =? "")
  | None => false
  end.

Inductive role : Type := system | assistant | user_role.

Record chat_message : Type := mkChat {
  chat_role : role;
  chat_content : string
}.

Record completion_request : Type := mkRequest {
  rq_messages : list chat_message;
  rq_model : string;
  rq_temperature : QArith_base.Q;
  rq_max_tokens : option nat;
  rq_json_object : bool
}.

(** The call [groq.chat.completions.create] either rejects or resolves;
    [ApiContent c] is [choices[0]?.message?.content] of the resolved
    value, [None] when it is [undefined] or [null]. *)
Inductive completion : Type :=
| ApiFailure (e : exn)
| ApiContent (content : option string).

(** A query of the store client resolves to [{ data, error }]; it does
    not reject. *)
Inductive db_result (A : Type) : Type :=
| DbOk (data : A)
| DbError.

Arguments DbOk {A} data.
Arguments DbError {A}.

Definition is_error {A : Type} (r : db_result A) : bool :=
  match r with
  | DbOk _ => false
  | DbError => true
  end.

(** Everything the collaborators decide during one request. *)
Record oracle : Type := mkOracle {
  reply_completion : completion_request -> completion;
  title_completion : completion_request -> completion;
  facts_completion : completion_request -> completion;
  generated_id : string;
  conversation_at : nat;
  user_message_at : nat;
  ai_message_at : nat;
  memories_at : nat;
  create_conversation_ok : bool;
  verify_ok : bool;
  save_user_message_ok : bool;
  history_ok : bool;
  memories_ok : bool;
  save_ai_message_ok : bool;
  rename_ok : bool;
  store_facts_ok : bool
}.

(** ** Queries *)

Definition set_conversations (cs : list conversation) (st : state) : state :=
  mkState cs (messages st) (memories st) (console st) (inflight st).

Definition set_messages (ms : list message) (st : state) : state :=
  mkState (conversations st) ms (memories st) (console st) (inflight st).

Definition set_memories (ms : list memory) (st : state) : state :=
  mkState (conversations st) (messages st) ms (console st) (inflight st).

Definition has_conversation (id : string) (st : state) : bool :=
  existsb (fun c => conv_id c =? id) (conversations st).

(** [from('conversations').insert({ user_id, name }).select('id').single()];
    [id] is the primary key the store generates. *)
Definition insert_conversation (ok : bool) (id : string) (now : nat)
    (user_id name : string) : js (db_result string) :=
  fun st =>
    if ok && negb (has_conversation id st)
    then (Next (DbOk id),
          set_conversations
            (conversations st ++ [mkConversation id user_id name now]) st)
    else (Next DbError, st).

(** [from('conversations').select('id').eq('id', id).eq('user_id', user_id)
    .single()]: an error unless exactly one row matches. *)
Definition select_conversation (ok : bool) (id user_id : string)
    : js (db_result string) :=
  fun st =>
    match filter (fun c => (conv_id c =? id) && (conv_user_id c =? user_id))
                 (conversations st) with
    | [c] => if ok then (Next (DbOk (conv_id c)), st) else (Next DbError, st)
    | _ => (Next DbError, st)
    end.

(** [from('messages').insert({ conversation_id, sender, content })]: the
    column [conversation_id] is a key of [conversations]; a value that is
    not a string is not such a key. *)
Definition insert_message (ok : bool) (conversation_id : jsval) (now : nat)
    (who : sender) (content : string) : js (db_result unit) :=
  fun st =>
    match conversation_id with
    | JStr id =>
        if ok && has_conversation id st
        then (Next (DbOk tt),
              set_messages (messages st ++ [mkMessage id who content now]) st)
        else (Next DbError, st)
    | _ => (Next DbError, st)
    end.

Definition messages_of (id : string) (st : state) : list message :=
  filter (fun m => msg_conversation_id m =? id) (messages st).

(** [from('messages').select(...).eq('conversation_id', id)
    .order('created_at', { ascending: true })] *)
Definition select_messages (ok : bool) (id : string)
    : js (db_result (list message)) :=
  fun st =>
    if ok
    then (Next (DbOk (order_by (oldest_first msg_created_at)
                               (messages_of id st))), st)
    else (Next DbError, st).

Definition memories_of (user_id : string) (st : state) : list memory :=
  filter (fun m => mem_user_id m =? user_id) (memories st).

(** [from('memories').select('content').eq('user_id', user_id)
    .order('created_at', { ascending: true })] *)
Definition select_memories (ok : bool) (user_id : string)
    : js (db_result (list memory)) :=
  fun st =>
    if ok
    then (Next (DbOk (order_by (oldest_first mem_created_at)
                               (memories_of user_id st))), st)
    else (Next DbError, st).

Definition renamed (id name : string) (c : conversation) : conversation :=
  if conv_id c =? id
  then mkConversation (conv_id c) (conv_user_id c) name (conv_created_at c)
  else c.

(** [from('conversations').update({ name }).eq('id', id)] *)
Definition update_conversation_name (ok : bool) (id name : string)
    : js (db_result unit) :=
  fun st =>
    if ok
    then (Next (DbOk tt),
          set_conversations (map (renamed id name) (conversations st)) st)
    else (Next DbError, st).

(** [from('conversations').select('id, name, created_at')
    .eq('user_id', user_id).order('created_at', { ascending: false })] *)
Definition select_conversations (ok : bool) (user_id : string)
    : js (db_result (list conversation)) :=
  fun st =>
    if ok
    then (Next (DbOk (order_by (newest_first conv_created_at)
                               (filter (fun c => conv_user_id c =? user_id)
                                       (conversations st)))), st)
    else (Next DbError, st).

(** ** [lib/llm.ts] *)

Record ConversationEntry : Type := mkEntry {
  entry_sender : sender;
  entry_content : string
}.

Definition toGroqMessage (entry : ConversationEntry) : chat_message :=
  match entry_sender entry with
  | user => mkChat user_role (entry_content entry)
  | ai => mkChat assistant (entry_content entry)
  end.

Definition dq : string := String (ascii_of_nat 34) EmptyString.
Definition nl : string := String (ascii_of_nat 10) EmptyString.

Definition model_name : string := "llama-3.1-8b-instant".

Definition apology_empty : string :=
  "I apologize, but I could not generate a response at this time. Please try again.".

Definition apology_error : string :=
  "I apologize, but I am currently experiencing technical difficulties. Please try again in a moment.".

Definition fallback_title : string := "New Conversation".

Definition memoryContext (facts : list string) : string :=
  match facts with
  | [] => EmptyString
  | _ => nl ++ "Relevant memories/facts about this user:" ++ nl
         ++ String.concat nl (map (fun m => ("- " ++ m)%string) facts)
  end.

Definition systemPrompt (memoryContext : string) : string :=
  "You are a helpful support agent for a small e-commerce store called " ++ dq ++ "Spur." ++ dq ++ "
  Answer clearly and concisely. Here's some basic knowledge about Spur:
  - Shipping policy: We offer free standard shipping on all orders over $50. Expedited shipping is available for a flat rate of $10. We ship within the USA only.
  - Return/refund policy: You can return any item within 30 days of purchase for a full refund, no questions asked. Items must be in their original condition.
  - Support hours: Our support team is available Monday to Friday, 9 AM to 5 PM PST.
  - Product catalog: We sell handmade artisan goods, custom jewelry, home decor, and **unique tech accessories** (like cat-shaped keyboards and warmers).
  - Discounts: First-time customers get 10% off their first order with code WELCOME10.

  " ++ memoryContext ++ "

  **CRITICAL INSTRUCTION:**
  If the " ++ dq ++ "Relevant memories" ++ dq ++ " above mention a past purchase or event (like a returned keyboard), **assume it is true**, even if it contradicts the standard catalog. Your goal is to be helpful and consistent with the user's history.
  
  Given the following conversation history and the new user message, provide a helpful and concise response.
  ".

Definition reply_request (history : list ConversationEntry)
    (userMessage : string) (facts : list string) : completion_request :=
  mkRequest
    (mkChat system (systemPrompt (memoryContext facts))
     :: map toGroqMessage history ++ [mkChat user_role userMessage])
    model_name (QArith_base.Qmake 7 10) (Some 1024) false.

Definition title_prompt (firstMessage : string) : string :=
  "
  Generate a very concise, 3-5 word title for a customer support chat that starts with this message:
  " ++ dq ++ firstMessage ++ dq ++ "
  
  Return ONLY the title string, no quotes, no punctuation at the end.
  Example Input: " ++ dq ++ "My cat keyboard keys are sticky" ++ dq ++ "
  Example Output: Sticky Keyboard Keys Issue
  ".

Definition title_request (firstMessage : string) : completion_request :=
  mkRequest [mkChat user_role (title_prompt firstMessage)]
            model_name (QArith_base.Qmake 5 10) None false.

Definition extractionPrompt (userMessage aiResponse : string) : string :=
  "
    Analyze the following interaction between a User and an AI Assistant.
    Extract key *permanent* facts about the User (e.g., name, location, preferences, job, purchases, issues).
    
    **CRITICAL:** If the User asserts a fact about themselves or their history (e.g., " ++ dq ++ "I bought a keyboard" ++ dq ++ "), capture it as a fact even if the AI Assistant disagrees or claims it doesn't sell that item.
    
    Ignore temporary context (e.g., " ++ dq ++ "I'm hungry" ++ dq ++ ", " ++ dq ++ "What time is it?" ++ dq ++ ").
    Ignore facts about the AI.
    
    User: " ++ dq ++ userMessage ++ dq ++ "
    AI: " ++ dq ++ aiResponse ++ dq ++ "
    
    Return a JSON object with a key " ++ dq ++ "facts" ++ dq ++ " containing an array of strings. 
    If no new permanent facts are found, return an empty array.
    Example: { " ++ dq ++ "facts" ++ dq ++ ": [" ++ dq ++ "User bought a cat keyboard" ++ dq ++ ", " ++ dq ++ "User lives in Mumbai" ++ dq ++ "] }
    ".

Definition extraction_request (userMessage aiResponse : string)
    : completion_request :=
  mkRequest [mkChat user_role (extractionPrompt userMessage aiResponse)]
            model_name (QArith_base.Qmake 1 10) None true.

(** [await groq.chat.completions.create(...)] followed by
    [.choices[0]?.message?.content]. *)
Definition create_completion (c : completion) : js (option string) :=
  match c with
  | ApiFailure e => throw e
  | ApiContent content => ret content
  end.

(** [!content] for [content : string | null | undefined]. *)
Definition blank (content : option string) : bool :=
  match content with
  | Some s => s =? EmptyString
  | None => true
  end.

Definition generateAIResponse (cfg : config) (o : oracle)
    (history : list ConversationEntry) (userMessage : string)
    (facts : list string) : js string :=
  when (negb (env_set (GROQ_API_KEY cfg)))
       (throw (Error "GROQ_API_KEY environment variable is not set.")) ;;
  try_catch
    (aiResponse <- create_completion
                     (reply_completion o (reply_request history userMessage facts)) ;;
     match aiResponse with
     | Some text =>
         if blank aiResponse
         then console_write LogGroqEmpty ;; ret apology_empty
         else ret text
     | None => console_write LogGroqEmpty ;; ret apology_empty
     end)
    (fun _ => console_write LogGroqError ;; ret apology_error).

Definition generateChatTitle (o : oracle) (firstMessage : string) : js string :=
  try_catch
    (content <- create_completion (title_completion o (title_request firstMessage)) ;;
     match content with
     | Some text => if trim text =? EmptyString then ret fallback_title
                    else ret (trim text)
     | None => ret fallback_title
     end)
    (fun _ => console_write LogTitleError ;; ret fallback_title).

(** ** The parts of the platform the handlers rely on *)

Section Handlers.
(** [JSON.parse]: [None] when it throws. *)
Variable JSON_parse : string -> option jsval.
(** The text of [`${v}`] for a value that is not a string (the store
    client builds the filter [eq.${v}] this way). *)
Variable template_text : jsval -> string.
(** The text a [TEXT] column takes for a JSON value that is neither a
    string nor [null]. *)
Variable column_cast : jsval -> string.
(** [v > 0] for a string, an array or an object. *)
Variable coerced_positive : jsval -> bool.

Definition filter_text (v : jsval) : string :=
  match v with
  | JStr s => s
  | _ => template_text v
  end.

Definition text_column (v : jsval) : string :=
  match v with
  | JStr s => s
  | _ => column_cast v
  end.

(** [content TEXT NOT NULL] *)
Definition content_column (v : jsval) : option string :=
  match v with
  | JNull | JUndef => None
  | _ => Some (text_column v)
  end.

Fixpoint content_columns (vs : list jsval) : option (list string) :=
  match vs with
  | [] => Some []
  | v :: rest =>
      match content_column v, content_columns rest with
      | Some s, Some ss => Some (s :: ss)
      | _, _ => None
      end
  end.

(** [from('memories').insert(inserts)] with
    [inserts = facts.map(fact => ({ user_id, content: fact }))]: one
    statement, so it stores every row or none. *)
Definition insert_memories (ok : bool) (now : nat) (user_id : string)
    (facts : list jsval) : js (db_result unit) :=
  fun st =>
    match content_columns facts with
    | Some texts =>
        if ok
        then (Next (DbOk tt),
              set_memories
                (memories st
                 ++ map (fun text => mkMemory user_id text now) texts) st)
        else (Next DbError, st)
    | None => (Next DbError, st)
    end.

(** [v.k] for a key that no prototype defines. *)
Definition get_property (k : string) (v : jsval) : js jsval :=
  match v with
  | JUndef | JNull => throw TypeError
  | JObj fields => ret (assoc k fields)
  | _ => ret JUndef
  end.

(** The number of UTF-16 code units of a string: one for a code point of
    up to three bytes, two for one of four bytes; a continuation byte
    counts with its lead byte. *)
Fixpoint utf16_length (s : string) : nat :=
  match s with
  | EmptyString => 0
  | String a rest =>
      (if Nat.ltb (nat_of_ascii a) 128 then 1
       else if Nat.ltb (nat_of_ascii a) 192 then 0
            else if Nat.ltb (nat_of_ascii a) 240 then 1 else 2)
      + utf16_length rest
  end.

(** [v.length] for a value that is neither [null] nor [undefined]. *)
Definition js_length (v : jsval) : jsval :=
  match v with
  | JArr items => JNum (QArith_base.Qmake (Z.of_nat (length items)) 1)
  | JStr s => JNum (QArith_base.Qmake (Z.of_nat (utf16_length s)) 1)
  | JObj fields => assoc "length" fields
  | _ => JUndef
  end.

(** [v > 0] *)
Definition positive (v : jsval) : bool :=
  match v with
  | JUndef | JNull => false
  | JBool b => b
  | JNum q => Z.ltb 0 (QArith_base.Qnum q)
  | _ => coerced_positive v
  end.

(** [v.map(f)]: only an array has the method. *)
Definition array_items (v : jsval) : js (list jsval) :=
  match v with
  | JArr items => ret items
  | _ => throw TypeError
  end.

(** ** [lib/memory.ts] *)

Definition getMemories (o : oracle) (userId : string) : js (list string) :=
  r <- select_memories (memories_ok o) userId ;;
  match r with
  | DbError => console_write LogFetchMemoriesError ;; ret []
  | DbOk data => ret (map mem_content data)
  end.

Definition summarizeAndStoreFacts (o : oracle)
    (userId userMessage aiResponse : string) : js unit :=
  try_catch
    (responseContent <- create_completion
                          (facts_completion o
                             (extraction_request userMessage aiResponse)) ;;
     match responseContent with
     | None => ret tt
     | Some text =>
         if blank responseContent then ret tt
         else
           result <- match JSON_parse text with
                     | Some v => ret v
                     | None => throw SyntaxError
                     end ;;
           facts <- get_property "facts" result ;;
           let newFacts := if truthy facts then facts else JArr [] in
           if positive (js_length newFacts)
           then
             console_write (LogExtracting (js_length newFacts) userId) ;;
             inserts <- array_items newFacts ;;
             r <- insert_memories (store_facts_ok o) (memories_at o)
                                  userId inserts ;;
             when (is_error r) (console_write LogStoreMemoriesError)
           else ret tt
     end)
    (fun e => console_write (LogFactExtractionError e)).

(** ** [app/api/chat/route.ts] *)

(** The value of [v] when [!v || typeof v !== 'string' || v.trim() === '']
    is false. *)
Definition required_text (v : jsval) : option string :=
  match v with
  | JStr s => if negb (truthy v) || (trim s =? EmptyString) then None
              else Some s
  | _ => None
  end.

Definition require_text (v : jsval) (error : string) : js string :=
  match required_text v with
  | Some s => ret s
  | None => respond (ErrorBody error) 400
  end.

(** [historyResult.data.length === 1 &&
    historyResult.data[0].sender === 'user'] *)
Definition first_turn (data : list message) : bool :=
  match data with
  | [m] => sender_eqb (msg_sender m) user
  | _ => false
  end.

Definition env_ready (cfg : config) : bool :=
  env_set (NEXT_PUBLIC_SUPABASE_URL cfg)
  && env_set (NEXT_PUBLIC_SUPABASE_PUBLISHABLE_KEY cfg)
  && env_set (GROQ_API_KEY cfg).

(** What steps 1 to 3 of the handler leave to the rest of it. *)
Record accepted : Type := mkAccepted {
  acc_userId : string;
  acc_message : string;
  acc_conversationId : jsval
}.

(** The [try] block of [POST] up to and including "3. Save User Message";
    [req] is what [req.json()] resolves to, [None] when it rejects. *)
Definition POST_accept (o : oracle) (req : option jsval) : js accepted :=
  body <- match req with
          | Some v => ret v
          | None => throw SyntaxError
          end ;;
  message <- get_property "message" body ;;
  sessionId <- get_property "sessionId" body ;;
  userId <- get_property "userId" body ;;
  name <- get_property "name" body ;;
  userId <- require_text userId "User ID (Name) is required." ;;
  (if negb (truthy message) && truthy name
   then
     r <- insert_conversation (create_conversation_ok o) (generated_id o)
                              (conversation_at o) userId (text_column name) ;;
     match r with
     | DbError =>
         console_write LogNamedConversationError ;;
         respond (ErrorBody "Failed to create new named conversation.") 500
     | DbOk id => respond (SessionBody id) 200
     end
   else ret tt) ;;
  message <- require_text message "Message content is required." ;;
  conversationId <-
    (if negb (truthy sessionId)
     then
       r <- insert_conversation (create_conversation_ok o) (generated_id o)
                                (conversation_at o) userId "New Chat" ;;
       match r with
       | DbError => respond (ErrorBody "Failed to start new conversation.") 500
       | DbOk id => ret (JStr id)
       end
     else
       r <- select_conversation (verify_ok o) (filter_text sessionId) userId ;;
       match r with
       | DbError =>
           respond (ErrorBody "Conversation not found or access denied.") 404
       | DbOk _ => ret sessionId
       end) ;;
  saved <- insert_message (save_user_message_ok o) conversationId
                          (user_message_at o) user message ;;
  when (is_error saved) (throw (Error "Failed to save user message")) ;;
  ret (mkAccepted userId message conversationId).

(** The [try] block of [POST] from "4. Retrieve History & MEMORIES" on. *)
Definition POST_reply (cfg : config) (o : oracle) (a : accepted)
    : js response :=
  let userId := acc_userId a in
  let message := acc_message a in
  let conversationId := acc_conversationId a in
  historyResult <- select_messages (history_ok o) (filter_text conversationId) ;;
  facts <- getMemories o userId ;;
  (if Nat.ltb 0 (length facts)
   then console_write (LogMemoriesRetrieved (length facts) userId facts)
   else console_write (LogNoMemories userId)) ;;
  data <- match historyResult with
          | DbError => throw (Error "Failed to fetch history")
          | DbOk data => ret data
          end ;;
  when (first_turn data) (spawn (mkTask message conversationId)) ;;
  let conversationHistory :=
    map (fun m => mkEntry (msg_sender m) (msg_content m)) data in
  aiResponse <- generateAIResponse cfg o conversationHistory message facts ;;
  _ <- insert_message (save_ai_message_ok o) conversationId
                      (ai_message_at o) ai aiResponse ;;
  try_catch (summarizeAndStoreFacts o userId message aiResponse)
            (fun e => console_write (LogExtractionFailed e)) ;;
  ret (mkResponse (ReplyBody aiResponse conversationId) 200).

Definition POST_try (cfg : config) (o : oracle) (req : option jsval)
    : js response :=
  a <- POST_accept o req ;;
  POST_reply cfg o a.

(** A handler hands its response to the framework, which answers an
    exception that escapes with a bare 500. *)
Definition run_handler (m : js response) (st : state) : response * state :=
  match m st with
  | (Next r, st') => (r, st')
  | (Return r, st') => (r, st')
  | (Throw _, st') => (mkResponse (ErrorBody "Internal Server Error") 500, st')
  end.

Definition POST (cfg : config) (o : oracle) (req : option jsval)
    : state -> response * state :=
  run_handler
    (if negb (env_ready cfg)
     then respond (ErrorBody "Missing environment variables.") 500
     else
       try_catch (POST_try cfg o req)
                 (fun e =>
                    console_write (LogChatApiError e) ;;
                    respond (ErrorBody "Internal Server Error") 500)).

(** [generateChatTitle(message).then(async title => { update; log })
    .catch(err => log)] *)
Definition run_task (o : oracle) (t : task) : js unit :=
  try_catch
    (title <- generateChatTitle o (task_message t) ;;
     _ <- update_conversation_name (rename_ok o)
                                   (filter_text (task_conversation t)) title ;;
     console_write (LogAutoTitled (task_conversation t) title))
    (fun e => console_write (LogAutoTitleFailed e)).

(** Runs the requests in flight to their end. *)
Definition settle (o : oracle) (st : state) : state :=
  fold_left (fun s t => snd (run_task o t s)) (inflight st)
            (mkState (conversations st) (messages st) (memories st)
                     (console st) []).

(** One request to the chat endpoint, its title request included. *)
Definition turn (cfg : config) (o : oracle) (req : option jsval)
    (st : state) : response * state :=
  let (r, st') := POST cfg o req st in (r, settle o st').

(** ** [app/api/chat/history/route.ts] and [app/api/chat/sessions/route.ts] *)

Definition history_row (m : message) : sender * string * nat :=
  (msg_sender m, msg_content m, msg_created_at m).

Definition session_row (c : conversation) : string * string * nat :=
  (conv_id c, conv_name c, conv_created_at c).

Definition GET_history (cfg : config) (ok : bool) (sessionId : option string)
    : state -> response * state :=
  run_handler
    (console_write LogHistoryReceived ;;
     when (negb (env_set (NEXT_PUBLIC_SUPABASE_URL cfg)))
          (console_write LogEnvUrlMissing ;;
           respond (ErrorBody "Environment variable NEXT_PUBLIC_SUPABASE_URL is not set.") 500) ;;
     when (negb (env_set (NEXT_PUBLIC_SUPABASE_PUBLISHABLE_KEY cfg)))
          (console_write LogEnvKeyMissing ;;
           respond (ErrorBody "Environment variable NEXT_PUBLIC_SUPABASE_PUBLISHABLE_KEY is not set.") 500) ;;
     match sessionId with
     | None =>
         console_write LogSessionIdRequired ;;
         respond (ErrorBody "Session ID is required.") 400
     | Some id =>
         if id =? EmptyString
         then console_write LogSessionIdRequired ;;
              respond (ErrorBody "Session ID is required.") 400
         else
           try_catch
             (r <- select_messages ok id ;;
              match r with
              | DbError =>
                  console_write LogFetchMessagesError ;;
                  respond (ErrorBody "Failed to retrieve message history.") 500
              | DbOk rows =>
                  console_write (LogFetchedMessages (length rows) id) ;;
                  ret (mkResponse
                         (MessagesBody (map history_row rows)) 200)
              end)
             (fun e =>
                console_write (LogHistoryApiError e) ;;
                respond (ErrorBody "An unexpected error occurred.") 500)
     end).

Definition GET_sessions (cfg : config) (ok : bool) (userId : option string)
    : state -> response * state :=
  run_handler
    (console_write LogSessionsReceived ;;
     when (negb (env_set (NEXT_PUBLIC_SUPABASE_URL cfg)))
          (console_write LogEnvUrlMissing ;;
           respond (ErrorBody "Environment variable NEXT_PUBLIC_SUPABASE_URL is not set.") 500) ;;
     when (negb (env_set (NEXT_PUBLIC_SUPABASE_PUBLISHABLE_KEY cfg)))
          (console_write LogEnvKeyMissing ;;
           respond (ErrorBody "Environment variable NEXT_PUBLIC_SUPABASE_PUBLISHABLE_KEY is not set.") 500) ;;
     match userId with
     | None =>
         console_write LogUserIdRequired ;;
         respond (ErrorBody "User ID is required.") 400
     | Some id =>
         if id =? EmptyString
         then console_write LogUserIdRequired ;;
              respond (ErrorBody "User ID is required.") 400
         else
           try_catch
             (r <- select_conversations ok id ;;
              match r with
              | DbError =>
                  console_write LogFetchConversationsError ;;
                  respond (ErrorBody "Failed to retrieve conversations.") 500
              | DbOk rows =>
                  console_write (LogFetchedConversations id) ;;
                  ret (mkResponse
                         (ConversationsBody (map session_row rows)) 200)
              end)
             (fun e =>
                console_write (LogSessionsApiError e) ;;
                respond (ErrorBody "An unexpected error occurred.") 500)
     end).

(** Some conversation with identifier [id] belongs to [userId]. *)
Definition owns (userId id : string) (st : state) : bool :=
  existsb (fun c => (conv_id c =? id) && (conv_user_id c =? userId))
          (conversations st).

(** ** The system as a whole *)

Inductive call : Type :=
| ChatTurn (cfg : config) (o : oracle) (req : option jsval)
| History (cfg : config) (ok : bool) (sessionId : option string)
| Sessions (cfg : config) (ok : bool) (userId : option string).

Definition serve (c : call) (st : state) : response * state :=
  match c with
  | ChatTurn cfg o req => turn cfg o req st
  | History cfg ok sessionId => GET_history cfg ok sessionId st
  | Sessions cfg ok userId => GET_sessions cfg ok userId st
  end.

Fixpoint serve_all (calls : list call) (st : state) : state :=
  match calls with
  | [] => st
  | c :: rest => serve_all rest (snd (serve c st))
  end.

(** ** Oracles that differ in one outcome *)

Definition with_save_ai_message_ok (b : bool) (o : oracle) : oracle :=
  mkOracle (reply_completion o) (title_completion o) (facts_completion o)
           (generated_id o) (conversation_at o) (user_message_at o)
           (ai_message_at o) (memories_at o) (create_conversation_ok o)
           (verify_ok o) (save_user_message_ok o) (history_ok o)
           (memories_ok o) b (rename_ok o) (store_facts_ok o).

Definition with_extraction (facts : completion_request -> completion)
    (ok : bool) (o : oracle) : oracle :=
  mkOracle (reply_completion o) (title_completion o) facts
           (generated_id o) (conversation_at o) (user_message_at o)
           (ai_message_at o) (memories_at o) (create_conversation_ok o)
           (verify_ok o) (save_user_message_ok o) (history_ok o)
           (memories_ok o) (save_ai_message_ok o) (rename_ok o) ok.

(** ** Derived quantities the statements below speak about *)

(** The console grows; nothing else changes. *)
Definition logged (logs : list log) (st : state) : state :=
  mkState (conversations st) (messages st) (memories st)
          (console st ++ logs) (inflight st).

(** What [generateAIResponse] resolves to for an outcome of the call. *)
Definition reply_text (c : completion) : string :=
  match c with
  | ApiFailure _ => apology_error
  | ApiContent None => apology_empty
  | ApiContent (Some text) => if text =? EmptyString then apology_empty else text
  end.

(** The completion call fails: it rejects, or its body is empty. *)
Definition completion_fails (c : completion) : bool :=
  match c with
  | ApiFailure _ => true
  | ApiContent content => blank content
  end.

(** The history and the facts a turn reads in step 4. *)
Definition fetched_history (conversationId : jsval) (st : state) : list message :=
  order_by (oldest_first msg_created_at)
           (messages_of (filter_text conversationId) st).

Definition fetched_facts (o : oracle) (userId : string) (st : state) : list string :=
  if memories_ok o
  then map mem_content
           (order_by (oldest_first mem_created_at) (memories_of userId st))
  else [].

Definition turn_request (o : oracle) (a : accepted) (st : state)
    : completion_request :=
  reply_request
    (map (fun m => mkEntry (msg_sender m) (msg_content m))
         (fetched_history (acc_conversationId a) st))
    (acc_message a) (fetched_facts o (acc_userId a) st).

(** The elements of [result.facts] when it is an array. *)
Definition fact_items (result : jsval) : list jsval :=
  match result with
  | JObj fields =>
      match assoc "facts" fields with
      | JArr items => items
      | _ => []
      end
  | _ => []
  end.

(** The contents [summarizeAndStoreFacts] stores for an outcome of the
    extraction call. *)
Definition stored_facts (o : oracle) (c : completion) : list string :=
  match c with
  | ApiContent (Some text) =>
      if text =? EmptyString then []
      else match JSON_parse text with
           | Some result =>
               match content_columns (fact_items result) with
               | Some texts => if store_facts_ok o then texts else []
               | None => []
               end
           | None => []
           end
  | _ => []
  end.

(** The message the turn stores for the reply. *)
Definition ai_rows (o : oracle) (conversationId : jsval) (reply : string)
    (st : state) : list message :=
  match conversationId with
  | JStr id =>
      if save_ai_message_ok o && has_conversation id st
      then [mkMessage id ai reply (ai_message_at o)]
      else []
  | _ => []
  end.

(** The apology [generateAIResponse] answers a failed call with. *)
Definition apology_for (c : completion) : string :=
  match c with
  | ApiFailure _ => apology_error
  | ApiContent _ => apology_empty
  end.

(** What [generateChatTitle] resolves to for an outcome of the call. *)
Definition title_text (c : completion) : string :=
  match c with
  | ApiContent (Some text) =>
      if trim text =? EmptyString then fallback_title else trim text
  | _ => fallback_title
  end.

(** The completion output read the way the specification words it: as a
    list of strings under the key [facts]. *)
Fixpoint strings_of (items : list jsval) : option (list string) :=
  match items with
  | [] => Some []
  | JStr s :: rest =>
      match strings_of rest with
      | Some ss => Some (s :: ss)
      | None => None
      end
  | _ :: _ => None
  end.

Definition parsed_string_list (content : option string) : option (list string) :=
  match content with
  | Some text =>
      match JSON_parse text with
      | Some (JObj fields) =>
          match assoc "facts" fields with
          | JArr items => strings_of items
          | _ => None
          end
      | _ => None
      end
  | None => None
  end.

(** ** Sample inputs *)

Definition sample_config : config :=
  mkConfig (Some "https://spur.supabase.co") (Some "sb_publishable") (Some "gsk").

Definition facts_42 : string := "{" ++ dq ++ "facts" ++ dq ++ ":[42]}".

Definition facts_mumbai : string :=
  "{" ++ dq ++ "facts" ++ dq ++ ":[" ++ dq ++ "User lives in Mumbai" ++ dq ++ "]}".

(** [JSON.parse] on the two sample outputs; everything else counts as
    malformed. *)
Definition sample_parse (text : string) : option jsval :=
  if text =? facts_42
  then Some (JObj [("facts", JArr [JNum (QArith_base.Qmake 42 1)])])
  else if text =? facts_mumbai
       then Some (JObj [("facts", JArr [JStr "User lives in Mumbai"])])
       else None.

Definition sample_template (v : jsval) : string := "[object Object]".

Definition sample_cast (v : jsval) : string :=
  match v with
  | JNum q => DecimalString.NilZero.string_of_int (Z.to_int (QArith_base.Qnum q))
  | JBool true => "true"
  | JBool false => "false"
  | _ => "{}"
  end.

Definition sample_positive (v : jsval) : bool := false.

Definition sample_oracle (reply title facts : completion) : oracle :=
  mkOracle (fun _ => reply) (fun _ => title) (fun _ => facts)
           "c-new" 10 11 12 13 true true true true true true true true.

Definition empty_store : state := mkState [] [] [] [] [].

Definition support_store : state :=
  mkState [mkConversation "c-1" "alice" "Support" 1] [] [] [] [].

Definition memory_store : state :=
  mkState [] []
          [mkMemory "alice" "User lives in Mumbai" 5;
           mkMemory "bob" "User likes tea" 1;
           mkMemory "alice" "User bought a cat keyboard" 2]
          [] [].

Definition history_store : state :=
  mkState [mkConversation "c-1" "alice" "Support" 1]
          [mkMessage "c-1" user "Where is my order?" 2;
           mkMessage "c-1" ai "It ships tomorrow." 3]
          [] [] [].

Definition creation_fields : list (string * jsval) :=
  [("name", JStr "Support"); ("userId", JStr "alice")].

Definition chat_fields (who message : string) (sessionId : jsval)
    : list (string * jsval) :=
  [("message", JStr message); ("sessionId", sessionId); ("userId", JStr who)].

Definition chat_request (message : string) (sessionId : jsval) : option jsval :=
  Some (JObj (chat_fields "alice" message sessionId)).

(** ** More derived notions *)

(** The list begins with a white-space code point (read last byte first
    when [flip] is set). *)
Definition starts_ws (flip : bool) (l : list ascii) : bool :=
  match l with
  | [] => false
  | a :: l1 =>
      ws1 a
      || match l1 with
         | [] => false
         | b :: l2 =>
             (if flip then ws2 b a else ws2 a b)
             || match l2 with
                | [] => false
                | c :: _ => if flip then ws3 c b a else ws3 a b c
                end
         end
  end.

(** The state with rows, console lines and title requests added. *)
Definition grown (cs : list conversation) (ms : list message)
    (fs : list memory) (logs : list log) (ts : list task) (st : state) : state :=
  mkState (conversations st ++ cs) (messages st ++ ms) (memories st ++ fs)
          (console st ++ logs) (inflight st ++ ts).

(** The [userId] of a request that passes the first check of [POST]. *)
Definition request_user (req : option jsval) : option string :=
  match req with
  | Some (JObj fields) => required_text (assoc "userId" fields)
  | _ => None
  end.

(** Either no conversation is inserted, or one for [userId] under the
    generated identifier, which was not in use. *)
Definition created (o : oracle) (userId : string) (st : state)
    (newc : list conversation) : Prop :=
  newc = []
  \/ exists name,
       newc = [mkConversation (generated_id o) userId name (conversation_at o)]
       /\ has_conversation (generated_id o) st = false.

(** The ways steps 1 to 3 of [POST] end, with the state they leave. *)
Inductive accept_case (o : oracle) (req : option jsval) (st : state)
    : flow accepted -> state -> Prop :=
| AcUnreadable (e : exn) :
    accept_case o req st (Throw e) st
| AcRejected (error : string) (status : nat) :
    status = 400 \/ status = 404 \/ status = 500 ->
    accept_case o req st (Return (mkResponse (ErrorBody error) status)) st
| AcCreateFailed (error : string) :
    accept_case o req st (Return (mkResponse (ErrorBody error) 500))
                (grown [] [] [] [LogNamedConversationError] [] st)
| AcCreated (userId name : string) :
    request_user req = Some userId ->
    has_conversation (generated_id o) st = false ->
    accept_case o req st
      (Return (mkResponse (SessionBody (generated_id o)) 200))
      (grown [mkConversation (generated_id o) userId name (conversation_at o)]
             [] [] [] [] st)
| AcSaveFailed (userId : string) (newc : list conversation) :
    created o userId st newc ->
    accept_case o req st (Throw (Error "Failed to save user message"))
                (grown newc [] [] [] [] st)
| AcAccepted (a : accepted) (cid : string) (newc : list conversation) :
    request_user req = Some (acc_userId a) ->
    acc_conversationId a = JStr cid ->
    created o (acc_userId a) st newc ->
    owns (acc_userId a) cid (grown newc [] [] [] [] st) = true ->
    accept_case o req st (Next a)
      (grown newc [mkMessage cid user (acc_message a) (user_message_at o)]
             [] [] [] st).

(** The ways [POST] ends, with the response and the state it leaves. *)
Inductive post_case (o : oracle) (req : option jsval) (st : state)
    : response -> state -> Prop :=
| PcNoEffect (error : string) (status : nat) :
    status = 400 \/ status = 404 \/ status = 500 ->
    post_case o req st (mkResponse (ErrorBody error) status) st
| PcFailed (error userId : string) (newc : list conversation)
           (addedm : list message) (logs : list log) :
    created o userId st newc ->
    (addedm = []
     \/ exists cid text,
          addedm = [mkMessage cid user text (user_message_at o)]
          /\ request_user req = Some userId
          /\ owns userId cid (grown newc [] [] [] [] st) = true) ->
    post_case o req st (mkResponse (ErrorBody error) 500)
              (grown newc addedm [] logs [] st)
| PcCreated (userId name : string) :
    request_user req = Some userId ->
    has_conversation (generated_id o) st = false ->
    post_case o req st
      (mkResponse (SessionBody (generated_id o)) 200)
      (grown [mkConversation (generated_id o) userId name (conversation_at o)]
             [] [] [] [] st)
| PcReplied (userId text cid reply : string) (newc : list conversation)
            (airows : list message) (facts : list string) (logs : list log)
            (tasks : list task) :
    request_user req = Some userId ->
    created o userId st newc ->
    owns userId cid (grown newc [] [] [] [] st) = true ->
    reply <> EmptyString ->
    airows = [] \/ airows = [mkMessage cid ai reply (ai_message_at o)] ->
    tasks = [] \/ tasks = [mkTask text (JStr cid)] ->
    post_case o req st
      (mkResponse (ReplyBody reply (JStr cid)) 200)
      (grown newc
             (mkMessage cid user text (user_message_at o) :: airows)
             (map (fun f => mkMemory userId f (memories_at o)) facts)
             logs tasks st).

(** Conversation identifiers are distinct and every message belongs to a
    stored conversation. *)
Definition well_formed (st : state) : Prop :=
  NoDup (map conv_id (conversations st))
  /\ Forall (fun m => has_conversation (msg_conversation_id m) st = true)
            (messages st).

(** A change of conversation rows that leaves identifier, owner and
    creation time alone. *)
Definition keeps_identity (f : conversation -> conversation) : Prop :=
  forall c,
    conv_id (f c) = conv_id c
    /\ conv_user_id (f c) = conv_user_id c
    /\ conv_created_at (f c) = conv_created_at c.

(** ** [lib/clientUtils.ts] *)

Definition USER_NAME_LOCAL_STORAGE_KEY : string := "spur_chat_user_name".
Definition USER_NAME_DISPLAY_KEY : string := "spur_chat_user_name_display".

(** [localStorage.getItem] and [localStorage.setItem] over the stored
    entries. *)
Fixpoint getItem (key : string) (items : list (string * string))
    : option string :=
  match items with
  | [] => None
  | (k, v) :: rest => if k =? key then Some v else getItem key rest
  end.

Definition setItem (key value : string) (items : list (string * string))
    : list (string * string) :=
  (key, value) :: filter (fun entry => negb (fst entry =? key)) items.

(** Where the code runs: [has_window] is [typeof window !== 'undefined']. *)
Record browser : Type := mkBrowser {
  has_window : bool;
  localStorage : list (string * string)
}.

Definition getStoredUserName (b : browser) : option string :=
  if negb (has_window b) then None
  else getItem USER_NAME_LOCAL_STORAGE_KEY (localStorage b).

Definition setStoredUserName (name : string) (b : browser) : browser :=
  if negb (has_window b) then b
  else mkBrowser (has_window b)
                 (setItem USER_NAME_LOCAL_STORAGE_KEY (trim name) (localStorage b)).

(** [String.prototype.toLowerCase] *)
Variable toLowerCase : string -> string.

(** The variant of the module that also keeps the name as typed:
    [getStoredDisplayName], and its [setStoredUserName]. *)
Definition getStoredDisplayName (b : browser) : option string :=
  if negb (has_window b) then None
  else match getItem USER_NAME_DISPLAY_KEY (localStorage b) with
       | Some shown => if shown =? EmptyString then getStoredUserName b
                       else Some shown
       | None => getStoredUserName b
       end.

Definition setStoredUserName_display (name : string) (b : browser) : browser :=
  if negb (has_window b) then b
  else
    let trimmedName := trim name in
    mkBrowser (has_window b)
              (setItem USER_NAME_DISPLAY_KEY trimmedName
                 (setItem USER_NAME_LOCAL_STORAGE_KEY (toLowerCase trimmedName)
                          (localStorage b))).

(** ** [app/page.tsx]

    The state of [ChatPage] that [handleNameSubmit], [handleSendMessage]
    and the first effect read and write.  A handler is run to its end
    without another event in between. *)

Definition MAX_CHAR_COUNT : nat := 400.
Definition MAX_NAME_CHAR_COUNT : nat := 20.

Inductive toast : Type :=
| ToastError (text : string)
| ToastWarning (text : string)
| ToastSuccess (text : string).

Record page_message : Type := mkPageMessage {
  pm_id : string;
  pm_sender : sender;
  pm_content : jsval;
  pm_created_at : string
}.

Record page : Type := mkPage {
  page_userId : option string;
  page_sessionId : option string;
  page_messages : list page_message;
  page_input : string;
  page_isLoading : bool;
  page_isNewChatDialogOpen : bool;
  page_isNameDialogOpen : bool;
  page_nameInput : string;
  page_toasts : list toast;
  page_browser : browser
}.

(** [!v] for [v : string | null]. *)
Definition missing (v : option string) : bool :=
  match v with
  | Some s => s =? EmptyString
  | None => true
  end.

Definition decimal (n : nat) : string :=
  DecimalString.NilEmpty.string_of_uint (Nat.to_uint n).

(** The state of the first render. *)
Definition first_render (b : browser) : page :=
  mkPage None None [] EmptyString false false false EmptyString [] b.

(** The effect that runs once after the first render. *)
Definition on_mount (p : page) : page :=
  let storedName := getStoredUserName (page_browser p) in
  if negb (missing storedName)
  then mkPage storedName (page_sessionId p) (page_messages p) (page_input p)
              (page_isLoading p) (page_isNewChatDialogOpen p)
              (page_isNameDialogOpen p) (page_nameInput p) (page_toasts p)
              (page_browser p)
  else mkPage (page_userId p) (page_sessionId p) (page_messages p)
              (page_input p) (page_isLoading p) (page_isNewChatDialogOpen p)
              true (page_nameInput p) (page_toasts p) (page_browser p).

Definition handleNameSubmit (p : page) : page :=
  let trimmedName := trim (page_nameInput p) in
  if trimmedName =? EmptyString then p
  else if Nat.ltb MAX_NAME_CHAR_COUNT (utf16_length trimmedName)
       then mkPage (page_userId p) (page_sessionId p) (page_messages p)
                   (page_input p) (page_isLoading p)
                   (page_isNewChatDialogOpen p) (page_isNameDialogOpen p)
                   (page_nameInput p)
                   (page_toasts p
                    ++ [ToastError ("Name too long (max "
                                    ++ decimal MAX_NAME_CHAR_COUNT ++ " chars)")])
                   (page_browser p)
       else mkPage (Some trimmedName) (page_sessionId p) (page_messages p)
                   (page_input p) (page_isLoading p)
                   (page_isNewChatDialogOpen p) false (page_nameInput p)
                   (page_toasts p
                    ++ [ToastSuccess ("Welcome, " ++ trimmedName ++ "!")])
                   (setStoredUserName trimmedName (page_browser p)).

(** What [fetch] and [response.json()] give: the request fails, or a
    response arrives with its [ok] flag and its body, [None] when the body
    is not JSON. *)
Inductive fetch_result : Type :=
| FetchFailed
| FetchResponse (ok : bool) (json : option jsval).

(** What the page takes from outside during one send. *)
Record page_oracle : Type := mkPageOracle {
  user_message_id : string;
  user_message_time : string;
  ai_message_id : string;
  ai_message_time : string;
  chat_api : jsval -> fetch_result
}.

(** The object the page posts to [/api/chat]. *)
Definition send_body (message sessionId userId : string) : jsval :=
  JObj [("message", JStr message); ("sessionId", JStr sessionId);
        ("userId", JStr userId)].

(** [data.reply] of the response body, when reading it does not throw. *)
Definition reply_of (data : jsval) : option jsval :=
  match data with
  | JUndef | JNull => None
  | JObj fields => Some (assoc "reply" fields)
  | _ => Some JUndef
  end.

Definition handleSendMessage (po : page_oracle) (p : page) : page :=
  if missing (page_userId p) then p
  else if trim (page_input p) =? EmptyString
  then mkPage (page_userId p) (page_sessionId p) (page_messages p)
              (page_input p) (page_isLoading p) (page_isNewChatDialogOpen p)
              (page_isNameDialogOpen p) (page_nameInput p)
              (page_toasts p ++ [ToastWarning "Message cannot be empty"])
              (page_browser p)
  else if Nat.ltb MAX_CHAR_COUNT (utf16_length (page_input p))
  then mkPage (page_userId p) (page_sessionId p) (page_messages p)
              (page_input p) (page_isLoading p) (page_isNewChatDialogOpen p)
              (page_isNameDialogOpen p) (page_nameInput p)
              (page_toasts p
               ++ [ToastError ("Message too long ("
                               ++ decimal (utf16_length (page_input p)) ++ "/"
                               ++ decimal MAX_CHAR_COUNT ++ " chars)")])
              (page_browser p)
  else if missing (page_sessionId p)
  then mkPage (page_userId p) (page_sessionId p) (page_messages p)
              (page_input p) (page_isLoading p) true
              (page_isNameDialogOpen p) (page_nameInput p) (page_toasts p)
              (page_browser p)
  else
    let userId := match page_userId p with Some u => u | None => EmptyString end in
    let sessionId :=
      match page_sessionId p with Some s => s | None => EmptyString end in
    let userMessageContent := trim (page_input p) in
    let newUserMessage :=
      mkPageMessage (user_message_id po) user (JStr userMessageContent)
                    (user_message_time po) in
    let shown := page_messages p ++ [newUserMessage] in
    let reply :=
      match chat_api po (send_body userMessageContent sessionId userId) with
      | FetchResponse true (Some data) => reply_of data
      | _ => None
      end in
    match reply with
    | Some content =>
        mkPage (page_userId p) (page_sessionId p)
               (shown ++ [mkPageMessage (ai_message_id po) ai content
                                        (ai_message_time po)])
               EmptyString false (page_isNewChatDialogOpen p)
               (page_isNameDialogOpen p) (page_nameInput p) (page_toasts p)
               (page_browser p)
    | None =>
        mkPage (page_userId p) (page_sessionId p)
               (filter (fun m => negb (pm_id m =? pm_id newUserMessage)) shown)
               userMessageContent false (page_isNewChatDialogOpen p)
               (page_isNameDialogOpen p) (page_nameInput p)
               (page_toasts p ++ [ToastError "Failed to send message"])
               (page_browser p)
    end.

(** The response of the handler as the page receives it: [response.ok] is
    a status from 200 to 299, the body is the JSON that [NextResponse.json]
    was given. *)
Definition body_json (b : json_body) : jsval :=
  match b with
  | ErrorBody error => JObj [("error", JStr error)]
  | SessionBody sessionId => JObj [("sessionId", JStr sessionId)]
  | ReplyBody reply sessionId =>
      JObj [("reply", JStr reply); ("sessionId", sessionId)]
  | MessagesBody rows =>
      JArr (map (fun row =>
                   JObj [("sender",
                          JStr (match fst (fst row) with
                                | user => "user"
                                | ai => "ai"
                                end));
                         ("content", JStr (snd (fst row)));
                         ("created_at",
                          JNum (QArith_base.Qmake (Z.of_nat (snd row)) 1))])
                rows)
  | ConversationsBody rows =>
      JArr (map (fun row =>
                   JObj [("id", JStr (fst (fst row)));
                         ("name", JStr (snd (fst row)));
                         ("created_at",
                          JNum (QArith_base.Qmake (Z.of_nat (snd row)) 1))])
                rows)
  end.

Definition received (r : response) : fetch_result :=
  FetchResponse (Nat.leb 200 (resp_status r) && Nat.leb (resp_status r) 299)
                (Some (body_json (resp_body r))).

(** The page oracle with another API behind it. *)
Definition with_chat_api (api : jsval -> fetch_result) (po : page_oracle)
    : page_oracle :=
  mkPageOracle (user_message_id po) (user_message_time po)
               (ai_message_id po) (ai_message_time po) api.

(** The reply the page takes from the outcome of the request, [None] when
    the [try] block of [handleSendMessage] throws. *)
Definition reply_in (r : fetch_result) : option jsval :=
  match r with
  | FetchResponse true (Some data) => reply_of data
  | _ => None
  end.

(** ** Sample inputs of the client side *)

Definition sample_browser : browser := mkBrowser true [("theme", "dark")].

Definition sample_page_at (userId sessionId : option string) (input : string)
    : page :=
  mkPage userId sessionId
         [mkPageMessage "1" user (JStr "Where is my order?") "09:00";
          mkPageMessage "2" ai (JStr "It ships tomorrow.") "09:01"]
         input false false false " Alice " [] sample_browser.

Definition sample_page : page :=
  sample_page_at (Some "alice") (Some "c-1") "  And my refund? ".

(** A request that never gets a response. *)
Definition down_api (body : jsval) : fetch_result := FetchFailed.

(** An API that is down for every message but the empty one. *)
Definition picky_api (body : jsval) : fetch_result :=
  match body with
  | JObj fields =>
      match assoc "message" fields with
      | JStr text =>
          if text =? EmptyString
          then FetchResponse true (Some (JObj [("reply", JStr "Hello")]))
          else FetchFailed
      | _ => FetchFailed
      end
  | _ => FetchFailed
  end.

Definition sample_page_oracle : page_oracle :=
  mkPageOracle "1700000000000" "09:02" "1700000000001" "09:03" down_api.

(** [toLowerCase] on the letters A to Z. *)
Definition lower_ascii (c : ascii) : ascii :=
  let n := nat_of_ascii c in
  if Nat.leb 65 n && Nat.leb n 90 then ascii_of_nat (n + 32) else c.

Fixpoint sample_lower (s : string) : string :=
  match s with
  | EmptyString => EmptyString
  | String c rest => String (lower_ascii c) (sample_lower rest)
  end.

(** An oracle whose insert of the user message fails. *)
Definition unsaved_oracle : oracle :=
  mkOracle (fun _ => ApiContent (Some "Hello")) (fun _ => ApiContent None)
           (fun _ => ApiContent None)
           "c-new" 10 11 12 13 true true false true true true true true.

(** An oracle whose history read fails. *)
Definition unread_oracle : oracle :=
  mkOracle (fun _ => ApiContent (Some "Hello")) (fun _ => ApiContent None)
           (fun _ => ApiContent None)
           "c-new" 10 11 12 13 true true true false true true true true.

(** An oracle whose extraction finds one fact. *)
Definition mumbai_oracle : oracle :=
  sample_oracle (ApiContent (Some "Hello")) (ApiContent None)
                (ApiContent (Some facts_mumbai)).

(** * Properties *)

(** ** Ordering of the rows a query returns *)

Section OrderByFacts.
Context {A : Type} (le : A -> A -> bool).
Hypothesis le_total : forall a b, le a b = false -> le b a = true.

Lemma place_permutation (x : A) (l : list A) :
  Permutation (place le x l) (x :: l).
Proof.
  induction l as [| y l IH]; simpl.
  - apply Permutation_refl.
  - destruct (le x y).
    + apply Permutation_refl.
    + apply perm_trans with (y :: x :: l).
      * now apply perm_skip.
      * apply perm_swap.
Qed.

Lemma order_by_permutation (l : list A) : Permutation (order_by le l) l.
Proof.
  induction l as [| x l IH]; simpl.
  - apply perm_nil.
  - apply perm_trans with (x :: order_by le l).
    + apply place_permutation.
    + now apply perm_skip.
Qed.

Lemma place_head (x y : A) (l : list A) :
  le y x = true ->
  HdRel (fun a b => le a b = true) y l ->
  HdRel (fun a b => le a b = true) y (place le x l).
Proof.
  intros Hyx Hhd. destruct l as [| z l]; simpl.
  - now constructor.
  - destruct (le x z); constructor; trivial.
    now inversion Hhd.
Qed.

Lemma place_sorted (x : A) (l : list A) :
  Sorted (fun a b => le a b = true) l ->
  Sorted (fun a b => le a b = true) (place le x l).
Proof.
  induction l as [| y l IH]; intros Hs; simpl.
  - repeat constructor.
  - destruct (le x y) eqn:Hxy.
    + constructor; [exact Hs | now constructor].
    + inversion Hs as [| ? ? Hl Hhd]; subst.
      constructor.
      * now apply IH.
      * apply place_head; [now apply le_total | exact Hhd].
Qed.

Lemma order_by_sorted (l : list A) :
  Sorted (fun a b => le a b = true) (order_by le l).
Proof.
  induction l as [| x l IH]; simpl.
  - constructor.
  - now apply place_sorted.
Qed.

End OrderByFacts.

Lemma oldest_first_total {A : Type} (key : A -> nat) (a b : A) :
  oldest_first key a b = false -> oldest_first key b a = true.
Proof.
  unfold oldest_first. intros H.
  apply Nat.leb_gt in H. apply Nat.leb_le. lia.
Qed.

Lemma oldest_first_sorted {A : Type} (key : A -> nat) (l : list A) :
  Sorted (fun a b => key a <= key b) (order_by (oldest_first key) l).
Proof.
  pose proof (order_by_sorted (oldest_first key) (oldest_first_total key) l) as H.
  induction H as [| x l' Hs IH Hhd]; constructor; trivial.
  destruct Hhd as [| y l'' Hxy]; constructor.
  now apply Nat.leb_le.
Qed.

(** ** Bookkeeping lemmas for the handler *)

Lemma POST_after_accept (cfg : config) (o : oracle) (req : option jsval)
    (st st1 : state) (a : accepted) :
  env_ready cfg = true ->
  POST_accept o req st = (Next a, st1) ->
  POST cfg o req st
  = run_handler
      (try_catch (POST_reply cfg o a)
                 (fun e =>
                    console_write (LogChatApiError e) ;;
                    respond (ErrorBody "Internal Server Error") 500)) st1.
Proof.
  intros Henv Hacc.
  unfold POST. rewrite Henv. simpl.
  unfold run_handler, try_catch, POST_try, bind.
  now rewrite Hacc.
Qed.

Lemma getMemories_total (o : oracle) (userId : string) (st : state) :
  exists logs,
    getMemories o userId st = (Next (fetched_facts o userId st), logged logs st).
Proof.
  unfold getMemories, bind, select_memories, fetched_facts.
  destruct (memories_ok o); simpl.
  - exists []. unfold logged. rewrite app_nil_r. now destruct st.
  - exists [LogFetchMemoriesError]. reflexivity.
Qed.

Lemma POST_reply_history_error (cfg : config) (o : oracle) (a : accepted)
    (st : state) :
  history_ok o = false ->
  exists logs,
    POST_reply cfg o a st
    = (Throw (Error "Failed to fetch history"), logged logs st).
Proof.
  intros Hh.
  unfold POST_reply, bind at 1, select_messages. rewrite Hh.
  unfold bind at 1.
  destruct (getMemories_total o (acc_userId a) st) as (logs & ->).
  unfold bind at 1.
  destruct (Nat.ltb 0 (length (fetched_facts o (acc_userId a) st))); simpl;
    eexists (logs ++ [_]); unfold logged; simpl; rewrite app_assoc;
    reflexivity.
Qed.


(** ** The memory accessor and the history read *)

(** C8. For every user identifier the memory accessor returns the contents
    of all of that user's memory rows (a permutation of them: no limit, no
    deduplication) ordered by creation time, oldest first; when the store
    answers with an error it does not throw: it writes one line to the
    console and returns the empty list. *)
Theorem getMemories_contract :
  forall (o : oracle) (userId : string) (st : state),
    (memories_ok o = true ->
     exists rows,
       getMemories o userId st = (Next (map mem_content rows), st)
       /\ Permutation rows (memories_of userId st)
       /\ Sorted (fun a b => mem_created_at a <= mem_created_at b) rows)
    /\ (memories_ok o = false ->
        getMemories o userId st
        = (Next [],
           mkState (conversations st) (messages st) (memories st)
                   (console st ++ [LogFetchMemoriesError]) (inflight st))).
Proof.
  intros o userId st. split; intros Hok;
    unfold getMemories, bind, select_memories; rewrite Hok.
  - exists (order_by (oldest_first mem_created_at) (memories_of userId st)).
    split; [reflexivity | split].
    + apply order_by_permutation.
    + apply oldest_first_sorted.
  - reflexivity.
Qed.

(** C5. For every conversation identifier the history read answers with all
    messages of that conversation (a permutation of them, so nothing is
    cut off), non-decreasing in creation time; the answer is empty for a
    conversation without messages.  A failed read fails both callers: the
    history endpoint answers 500, and a chat turn that was accepted
    answers 500 as well. *)
Theorem history_read_contract :
  forall (cfg : config) (sessionId : string) (st : state),
    env_set (NEXT_PUBLIC_SUPABASE_URL cfg) = true ->
    env_set (NEXT_PUBLIC_SUPABASE_PUBLISHABLE_KEY cfg) = true ->
    (sessionId =? EmptyString) = false ->
    (exists rows,
        fst (GET_history cfg true (Some sessionId) st)
        = mkResponse (MessagesBody (map history_row rows)) 200
        /\ Permutation rows (messages_of sessionId st)
        /\ Sorted (fun a b => msg_created_at a <= msg_created_at b) rows
        /\ (messages_of sessionId st = [] -> rows = []))
    /\ fst (GET_history cfg false (Some sessionId) st)
       = mkResponse (ErrorBody "Failed to retrieve message history.") 500
    /\ (forall (o : oracle) (req : option jsval) (a : accepted) (st1 : state),
           env_ready cfg = true ->
           POST_accept o req st = (Next a, st1) ->
           history_ok o = false ->
           fst (POST cfg o req st)
           = mkResponse (ErrorBody "Internal Server Error") 500).
Proof.
  intros cfg sessionId st Hurl Hkey Hne.
  split; [| split].
  - exists (order_by (oldest_first msg_created_at) (messages_of sessionId st)).
    split; [| split; [| split]].
    + unfold GET_history, run_handler, bind, when.
      rewrite Hurl, Hkey. simpl. rewrite Hne. reflexivity.
    + apply order_by_permutation.
    + apply oldest_first_sorted.
    + now intros ->.
  - unfold GET_history, run_handler, bind, when.
    rewrite Hurl, Hkey. simpl. rewrite Hne. reflexivity.
  - intros o req a st1 Henv Hacc Hh.
    rewrite (POST_after_accept cfg o req st st1 a Henv Hacc).
    destruct (POST_reply_history_error cfg o a st1 Hh) as (st' & Hr).
    unfold run_handler, try_catch. rewrite Hr. reflexivity.
Qed.

Lemma POST_accept_inv (o : oracle) (req : option jsval) (st st1 : state)
    (a : accepted) :
  POST_accept o req st = (Next a, st1) ->
  exists fields cid,
    req = Some (JObj fields)
    /\ required_text (assoc "userId" fields) = Some (acc_userId a)
    /\ required_text (assoc "message" fields) = Some (acc_message a)
    /\ acc_conversationId a = JStr cid
    /\ has_conversation cid st1 = true
    /\ messages st1
       = messages st
         ++ [mkMessage cid user (acc_message a) (user_message_at o)]
    /\ memories st1 = memories st
    /\ console st1 = console st
    /\ inflight st1 = inflight st
    /\ ((truthy (assoc "sessionId" fields) = false
         /\ cid = generated_id o
         /\ has_conversation cid st = false
         /\ conversations st1
            = conversations st
              ++ [mkConversation cid (acc_userId a) "New Chat" (conversation_at o)])
        \/ (assoc "sessionId" fields = JStr cid
            /\ conversations st1 = conversations st)).
Proof.
  intros H. unfold POST_accept in H.
  destruct req as [body |]; [| discriminate].
  destruct body; try discriminate.
  all: unfold bind, ret, get_property, require_text in H; simpl in H.
  destruct (required_text (assoc "userId" fields)) as [uid |] eqn:Huid;
    [| discriminate].
  unfold ret, respond in H.
  destruct (negb (truthy (assoc "message" fields)) && truthy (assoc "name" fields))
    eqn:Hnamed.
  { unfold insert_conversation, bind, console_write in H.
    destruct (create_conversation_ok o && negb (has_conversation (generated_id o) st));
      simpl in H; discriminate. }
  destruct (required_text (assoc "message" fields)) as [msg |] eqn:Hmsg;
    [| discriminate].
  destruct (negb (truthy (assoc "sessionId" fields))) eqn:Hsid.
  - unfold insert_conversation in H.
    destruct (create_conversation_ok o && negb (has_conversation (generated_id o) st))
      eqn:Hc; simpl in H; [| discriminate].
    unfold insert_message, when in H.
    match type of H with
    | context [save_user_message_ok o && ?h] => destruct (save_user_message_ok o && h) eqn:Hs
    end; simpl in H; [| discriminate].
    inversion H; subst; clear H. simpl.
    apply andb_prop in Hs as [_ Hhas]. apply andb_prop in Hc as [_ Hfresh].
    exists fields, (generated_id o).
    repeat split; trivial.
    left. repeat split; trivial.
    + now apply negb_true_iff.
    + now apply negb_true_iff.
  - unfold select_conversation in H.
    match type of H with
    | context [filter ?f ?l] => destruct (filter f l) as [| c [| c' rest]]
    end; try discriminate.
    destruct (verify_ok o); [| discriminate].
    unfold insert_message, when in H.
    destruct (assoc "sessionId" fields) as [| | | | cid | |] eqn:Hsess;
      try discriminate.
    match type of H with
    | context [save_user_message_ok o && ?h] => destruct (save_user_message_ok o && h) eqn:Hs
    end; simpl in H; [| discriminate].
    inversion H; subst; clear H. simpl.
    apply andb_prop in Hs as [_ Hhas].
    exists fields, cid.
    repeat split; trivial.
    right. split; trivial.
Qed.

Lemma generateAIResponse_total (cfg : config) (o : oracle)
    (history : list ConversationEntry) (userMessage : string)
    (facts : list string) (st : state) :
  env_set (GROQ_API_KEY cfg) = true ->
  exists logs,
    generateAIResponse cfg o history userMessage facts st
    = (Next (reply_text (reply_completion o (reply_request history userMessage facts))),
       logged logs st).
Proof.
  intros Hkey. unfold generateAIResponse, when. rewrite Hkey. simpl.
  unfold bind at 1. unfold ret at 1.
  unfold try_catch, bind at 1, create_completion.
  destruct (reply_completion o (reply_request history userMessage facts))
    as [e | [text |]]; simpl.
  - exists [LogGroqError]. reflexivity.
  - destruct (text =? EmptyString).
    + exists [LogGroqEmpty]. reflexivity.
    + exists []. unfold ret, logged. rewrite app_nil_r. now destruct st.
  - exists [LogGroqEmpty]. reflexivity.
Qed.

Arguments content_columns : simpl never.

Ltac run_js :=
  unfold try_catch, bind, ret, throw, respond, create_completion, get_property,
    array_items, insert_memories, console_write, spawn, when, is_error;
  simpl.

Ltac now_state st :=
  try match goal with
      | |- context [if ?b then [] else []] => destruct b
      end;
  destruct st; unfold logged, set_memories, set_messages, set_conversations;
  run_js;
  try match goal with
      | |- context [if ?b then [] else []] => destruct b
      end;
  rewrite <- ?app_assoc, ?app_nil_r; simpl; reflexivity.

Lemma summarizeAndStoreFacts_total (o : oracle)
    (userId userMessage aiResponse : string) (st : state) :
  exists logs,
    summarizeAndStoreFacts o userId userMessage aiResponse st
    = (Next tt,
       logged logs
         (set_memories
            (memories st
             ++ map (fun text => mkMemory userId text (memories_at o))
                    (stored_facts o (facts_completion o
                                       (extraction_request userMessage aiResponse))))
            st)).
Proof.
  unfold summarizeAndStoreFacts, stored_facts.
  destruct (facts_completion o (extraction_request userMessage aiResponse))
    as [e | [text |]].
  - exists [LogFactExtractionError e]. now_state st.
  - run_js. destruct (text =? EmptyString); [exists []; now_state st |].
    destruct (JSON_parse text) as [result |];
      [| exists [LogFactExtractionError SyntaxError]; now_state st].
    destruct result as [| | b | q | s | items | fields]; run_js;
      try (exists []; now_state st);
      try (exists [LogFactExtractionError TypeError]; now_state st).
    destruct (assoc "facts" fields) as [| | b | q | s | items | inner] eqn:Hf;
      run_js; try (exists []; now_state st).
    + destruct b; run_js; exists []; now_state st.
    + destruct (negb (Z.eqb (QArith_base.Qnum q) 0)); run_js;
        exists []; now_state st.
    + destruct (negb (s =? EmptyString)); run_js; [| exists []; now_state st].
      destruct (Z.ltb 0 (Z.of_nat (utf16_length s))); run_js;
        [| exists []; now_state st].
      eexists [_; _]. now_state st.
    + destruct items as [| v items]; [exists []; now_state st |].
      run_js.
      destruct (content_columns (v :: items)) as [texts |]; run_js.
      * destruct (store_facts_ok o); run_js.
        -- eexists [_]. now_state st.
        -- eexists [_; _]. now_state st.
      * eexists [_; _]. now_state st.
    + destruct (positive (assoc "length" inner)); run_js;
        [| exists []; now_state st].
      eexists [_; _]. now_state st.
  - exists []. now_state st.
Qed.
Lemma bind_next {A B : Type} (m : js A) (k : A -> js B) (st st' : state) (a : A) :
  m st = (Next a, st') -> bind m k st = k a st'.
Proof. intros H. unfold bind. now rewrite H. Qed.

Lemma when_spawn (b : bool) (t : task) (st : state) :
  when b (spawn t) st
  = (Next tt,
     mkState (conversations st) (messages st) (memories st) (console st)
             (inflight st ++ (if b then [t] else []))).
Proof.
  destruct b; simpl; [reflexivity |].
  unfold ret. rewrite app_nil_r. now destruct st.
Qed.

Lemma try_catch_next {A : Type} (m : js A) (h : exn -> js A)
    (st st' : state) (a : A) :
  m st = (Next a, st') -> try_catch m h st = (Next a, st').
Proof. intros H. unfold try_catch. now rewrite H. Qed.

Lemma insert_ai_total (o : oracle) (conversationId : jsval) (reply : string)
    (st : state) :
  exists r,
    insert_message (save_ai_message_ok o) conversationId (ai_message_at o)
                   ai reply st
    = (Next r, set_messages (messages st ++ ai_rows o conversationId reply st) st).
Proof.
  unfold insert_message, ai_rows.
  destruct conversationId;
    try (exists DbError; unfold set_messages; rewrite app_nil_r;
         now destruct st).
  destruct (save_ai_message_ok o && has_conversation s st).
  - now exists (DbOk tt).
  - exists DbError. unfold set_messages. rewrite app_nil_r. now destruct st.
Qed.

Lemma POST_reply_ok (cfg : config) (o : oracle) (a : accepted) (st : state) :
  env_set (GROQ_API_KEY cfg) = true ->
  history_ok o = true ->
  exists logs,
    POST_reply cfg o a st
    = (Next (mkResponse
               (ReplyBody (reply_text (reply_completion o (turn_request o a st)))
                          (acc_conversationId a)) 200),
       mkState
         (conversations st)
         (messages st
          ++ ai_rows o (acc_conversationId a)
                     (reply_text (reply_completion o (turn_request o a st))) st)
         (memories st
          ++ map (fun text => mkMemory (acc_userId a) text (memories_at o))
                 (stored_facts o
                    (facts_completion o
                       (extraction_request
                          (acc_message a)
                          (reply_text (reply_completion o (turn_request o a st)))))))
         logs
         (inflight st
          ++ (if first_turn (fetched_history (acc_conversationId a) st)
              then [mkTask (acc_message a) (acc_conversationId a)]
              else []))).
Proof.
  intros Hkey Hh. unfold POST_reply.
  erewrite bind_next by (unfold select_messages; rewrite Hh; reflexivity).
  destruct (getMemories_total o (acc_userId a) st) as (logs1 & Hmem).
  erewrite bind_next by exact Hmem.
  match goal with
  | |- context [bind (if ?b then console_write ?l1 else console_write ?l2) _ ?s] =>
      assert (Hlog : exists l, (if b then console_write l1 else console_write l2) s
                               = (Next tt, logged [l] s))
        by (destruct b; eexists; reflexivity);
      destruct Hlog as (l & Hlog)
  end.
  erewrite bind_next by exact Hlog.
  erewrite bind_next by reflexivity.
  fold (fetched_history (acc_conversationId a) st).
  erewrite bind_next by apply when_spawn.
  match goal with
  | |- context [bind (generateAIResponse _ _ ?h ?m ?f) _ ?s] =>
      destruct (generateAIResponse_total cfg o h m f s Hkey) as (logs2 & Hgen)
  end.
  erewrite bind_next by exact Hgen.
  fold (turn_request o a st).
  set (reply := reply_text (reply_completion o (turn_request o a st))).
  match goal with
  | |- context [bind (insert_message _ ?c _ _ ?r) _ ?s] =>
      destruct (insert_ai_total o c r s) as (saved & Hsave)
  end.
  erewrite bind_next by exact Hsave.
  match goal with
  | |- context [bind (try_catch (summarizeAndStoreFacts _ ?u ?m ?r) _) _ ?s] =>
      destruct (summarizeAndStoreFacts_total o u m r s) as (logs3 & Hsum)
  end.
  erewrite bind_next by (apply try_catch_next; exact Hsum).
  eexists. unfold ret. f_equal.
  unfold logged, set_memories, set_messages, ai_rows, has_conversation.
  simpl. reflexivity.
Qed.
Lemma POST_accept_frame (o : oracle) (req : option jsval) (st : state) :
  memories (snd (POST_accept o req st)) = memories st
  /\ inflight (snd (POST_accept o req st)) = inflight st.
Proof.
  unfold POST_accept.
  destruct req as [body |]; [| split; reflexivity].
  destruct body as [| | b | q | s | items | fields];
    try (split; reflexivity).
  unfold require_text, get_property, when, insert_conversation,
    select_conversation, insert_message, console_write, is_error,
    bind, ret, respond, throw.
  simpl.
  destruct (required_text (assoc "userId" fields)) as [uid |];
    [| split; reflexivity].
  destruct (negb (truthy (assoc "message" fields)) && truthy (assoc "name" fields)).
  { destruct (create_conversation_ok o && negb (has_conversation (generated_id o) st));
      split; reflexivity. }
  destruct (required_text (assoc "message" fields)) as [msg |];
    [| split; reflexivity].
  destruct (negb (truthy (assoc "sessionId" fields))).
  - destruct (create_conversation_ok o && negb (has_conversation (generated_id o) st));
      [| split; reflexivity].
    simpl.
    match goal with
    | |- context [save_user_message_ok o && ?h] =>
        destruct (save_user_message_ok o && h)
    end; split; reflexivity.
  - match goal with
    | |- context [filter ?f ?l] => destruct (filter f l) as [| c [| c' rest]]
    end; try (split; reflexivity).
    destruct (verify_ok o); [| split; reflexivity].
    destruct (assoc "sessionId" fields); try (split; reflexivity).
    match goal with
    | |- context [save_user_message_ok o && ?h] =>
        destruct (save_user_message_ok o && h)
    end; split; reflexivity.
Qed.

Lemma POST_cases (cfg : config) (o : oracle) (req : option jsval) (st : state) :
  env_ready cfg = true ->
  POST cfg o req st
  = match POST_accept o req st with
    | (Next a, st1) =>
        run_handler
          (try_catch (POST_reply cfg o a)
                     (fun e =>
                        console_write (LogChatApiError e) ;;
                        respond (ErrorBody "Internal Server Error") 500)) st1
    | (Return r, st1) => (r, st1)
    | (Throw e, st1) =>
        (mkResponse (ErrorBody "Internal Server Error") 500,
         logged [LogChatApiError e] st1)
    end.
Proof.
  intros Henv. unfold POST. rewrite Henv. simpl.
  unfold run_handler, try_catch, POST_try, bind.
  destruct (POST_accept o req st) as [[a | r | e] st1]; reflexivity.
Qed.

Lemma env_ready_key (cfg : config) :
  env_ready cfg = true -> env_set (GROQ_API_KEY cfg) = true.
Proof.
  unfold env_ready. intros H. now apply andb_prop in H as [_ H].
Qed.

Lemma run_reply_ok (cfg : config) (o : oracle) (a : accepted) (st : state) :
  env_ready cfg = true ->
  history_ok o = true ->
  exists logs,
    run_handler
      (try_catch (POST_reply cfg o a)
                 (fun e =>
                    console_write (LogChatApiError e) ;;
                    respond (ErrorBody "Internal Server Error") 500)) st
    = (mkResponse
         (ReplyBody (reply_text (reply_completion o (turn_request o a st)))
                    (acc_conversationId a)) 200,
       mkState
         (conversations st)
         (messages st
          ++ ai_rows o (acc_conversationId a)
                     (reply_text (reply_completion o (turn_request o a st))) st)
         (memories st
          ++ map (fun text => mkMemory (acc_userId a) text (memories_at o))
                 (stored_facts o
                    (facts_completion o
                       (extraction_request
                          (acc_message a)
                          (reply_text (reply_completion o (turn_request o a st)))))))
         logs
         (inflight st
          ++ (if first_turn (fetched_history (acc_conversationId a) st)
              then [mkTask (acc_message a) (acc_conversationId a)]
              else []))).
Proof.
  intros Henv Hh.
  destruct (POST_reply_ok cfg o a st (env_ready_key cfg Henv) Hh) as (logs & H).
  exists logs. unfold run_handler, try_catch. now rewrite H.
Qed.

Lemma run_reply_history_error (cfg : config) (o : oracle) (a : accepted)
    (st : state) :
  history_ok o = false ->
  exists logs,
    run_handler
      (try_catch (POST_reply cfg o a)
                 (fun e =>
                    console_write (LogChatApiError e) ;;
                    respond (ErrorBody "Internal Server Error") 500)) st
    = (mkResponse (ErrorBody "Internal Server Error") 500, logged logs st).
Proof.
  intros Hh.
  destruct (POST_reply_history_error cfg o a st Hh) as (logs & H).
  exists (logs ++ [LogChatApiError (Error "Failed to fetch history")]).
  unfold run_handler, try_catch. rewrite H.
  unfold logged, bind, console_write, respond. simpl.
  now rewrite app_assoc.
Qed.

Lemma reply_text_failed (c : completion) :
  completion_fails c = true -> reply_text c = apology_for c.
Proof.
  destruct c as [e | [text |]]; simpl; trivial.
  now intros ->.
Qed.

Lemma POST_not_ready (cfg : config) (o : oracle) (req : option jsval)
    (st : state) :
  env_ready cfg = false ->
  POST cfg o req st
  = (mkResponse (ErrorBody "Missing environment variables.") 500, st).
Proof. intros H. unfold POST. now rewrite H. Qed.

(** ** Storing the reply *)

(** C10. When the insert of the 'ai' message fails in a turn that reached
    generation, the endpoint still answers 200 with the generated reply and
    the resolved session identifier, and no message is added for the reply;
    the response is the one the turn gives when the insert succeeds, since
    the result of the insert is never looked at. *)
Theorem unsaved_reply_still_answered :
  forall (cfg : config) (o : oracle) (req : option jsval) (st st1 : state)
         (a : accepted),
    env_ready cfg = true ->
    POST_accept o req st = (Next a, st1) ->
    history_ok o = true ->
    save_ai_message_ok o = false ->
    exists st2,
      POST cfg o req st
      = (mkResponse
           (ReplyBody (reply_text (reply_completion o (turn_request o a st1)))
                      (acc_conversationId a)) 200, st2)
      /\ messages st2 = messages st1
      /\ fst (POST cfg (with_save_ai_message_ok true o) req st)
         = fst (POST cfg o req st).
Proof.
  intros cfg o req st st1 a Henv Hacc Hh Hsave.
  rewrite (POST_after_accept cfg o req st st1 a Henv Hacc).
  destruct (run_reply_ok cfg o a st1 Henv Hh) as (logs & Hrun).
  rewrite Hrun. eexists. split; [reflexivity | split].
  - simpl. unfold ai_rows. rewrite Hsave.
    destruct (acc_conversationId a); simpl; apply app_nil_r.
  - assert (Hacc' : POST_accept (with_save_ai_message_ok true o) req st
                    = (Next a, st1)) by exact Hacc.
    rewrite (POST_after_accept cfg _ req st st1 a Henv Hacc').
    destruct (run_reply_ok cfg (with_save_ai_message_ok true o) a st1 Henv Hh)
      as (logs' & Hrun').
    rewrite Hrun'. reflexivity.
Qed.

(** C1 (amended). When the completion call of a turn fails, the Response
    Generator does not throw: it answers with one of two fixed apologies,
    [apology_error] when the call rejected and [apology_empty] when its body
    was empty.  The turn answers 200 with that apology, and when the insert
    of the reply succeeds the turn has stored exactly two messages, the
    user's and one 'ai' message whose content is that apology. *)
Theorem completion_failure_apology :
  (forall (cfg : config) (o : oracle) (history : list ConversationEntry)
          (userMessage : string) (facts : list string) (st : state),
      env_set (GROQ_API_KEY cfg) = true ->
      completion_fails
        (reply_completion o (reply_request history userMessage facts)) = true ->
      exists logs,
        generateAIResponse cfg o history userMessage facts st
        = (Next (apology_for
                   (reply_completion o (reply_request history userMessage facts))),
           logged logs st))
  /\ (forall (cfg : config) (o : oracle) (req : option jsval) (st st1 : state)
             (a : accepted),
         env_ready cfg = true ->
         POST_accept o req st = (Next a, st1) ->
         history_ok o = true ->
         completion_fails (reply_completion o (turn_request o a st1)) = true ->
         save_ai_message_ok o = true ->
         exists cid st2,
           acc_conversationId a = JStr cid
           /\ POST cfg o req st
              = (mkResponse
                   (ReplyBody
                      (apology_for (reply_completion o (turn_request o a st1)))
                      (JStr cid)) 200, st2)
           /\ messages st2
              = messages st
                ++ [mkMessage cid user (acc_message a) (user_message_at o);
                    mkMessage cid ai
                      (apology_for (reply_completion o (turn_request o a st1)))
                      (ai_message_at o)]).
Proof.
  split.
  - intros cfg o history userMessage facts st Hkey Hfail.
    destruct (generateAIResponse_total cfg o history userMessage facts st Hkey)
      as (logs & H).
    exists logs. now rewrite <- (reply_text_failed _ Hfail).
  - intros cfg o req st st1 a Henv Hacc Hh Hfail Hsave.
    destruct (POST_accept_inv o req st st1 a Hacc)
      as (fields & cid & _ & _ & _ & Hcid & Hhas & Hmsgs & _).
    rewrite (POST_after_accept cfg o req st st1 a Henv Hacc).
    destruct (run_reply_ok cfg o a st1 Henv Hh) as (logs & Hrun).
    rewrite Hrun, (reply_text_failed _ Hfail), Hcid.
    exists cid. eexists. split; [reflexivity | split; [reflexivity |]].
    simpl. unfold ai_rows. rewrite Hsave, Hhas, Hmsgs. simpl.
    now rewrite <- app_assoc.
Qed.

(** ** Fact extraction *)

Lemma content_columns_strings (ss : list string) :
  content_columns (map JStr ss) = Some ss.
Proof.
  induction ss as [| s ss IH]; [reflexivity |].
  simpl. unfold content_columns in *. simpl. fold content_columns in *.
  now rewrite IH.
Qed.

Lemma strings_of_some (items : list jsval) (ss : list string) :
  strings_of items = Some ss -> items = map JStr ss.
Proof.
  revert ss. induction items as [| v items IH]; intros ss H; simpl in H.
  - now inversion H.
  - destruct v; try discriminate.
    destruct (strings_of items) as [ss' |]; [| discriminate].
    inversion H; subst. simpl. now rewrite (IH ss' eq_refl).
Qed.

Lemma strings_of_none (items : list jsval) :
  strings_of items = None ->
  exists item, In item items /\ forall s, item <> JStr s.
Proof.
  induction items as [| v items IH]; intros H; simpl in H; [discriminate |].
  destruct v;
    try (eexists; split; [left; reflexivity | intros ?; discriminate]).
  destruct (strings_of items); [discriminate |].
  destruct (IH eq_refl) as (item & Hin & Hns).
  exists item. split; [now right | exact Hns].
Qed.

Lemma extraction_leaves_turn (cfg : config) (o : oracle) (req : option jsval)
    (st : state) (facts : completion_request -> completion) (ok : bool) :
  fst (POST cfg (with_extraction facts ok o) req st) = fst (POST cfg o req st)
  /\ messages (snd (POST cfg (with_extraction facts ok o) req st))
     = messages (snd (POST cfg o req st))
  /\ conversations (snd (POST cfg (with_extraction facts ok o) req st))
     = conversations (snd (POST cfg o req st)).
Proof.
  destruct (env_ready cfg) eqn:Henv.
  - rewrite !POST_cases by assumption.
    change (POST_accept (with_extraction facts ok o) req st)
      with (POST_accept o req st).
    destruct (POST_accept o req st) as [[a | r | e] st1];
      [| repeat split ..].
    destruct (history_ok o) eqn:Hh.
    + destruct (run_reply_ok cfg o a st1 Henv Hh) as (l1 & ->).
      destruct (run_reply_ok cfg (with_extraction facts ok o) a st1 Henv Hh)
        as (l2 & ->).
      repeat split.
    + destruct (run_reply_history_error cfg o a st1 Hh) as (l1 & ->).
      destruct (run_reply_history_error cfg (with_extraction facts ok o) a st1 Hh)
        as (l2 & ->).
      repeat split.
  - rewrite !POST_not_ready by assumption. repeat split.
Qed.

(** C7 (amended). Fact extraction never throws.  It stores nothing when the
    completion call fails or its body is empty, when the body is not JSON,
    when the parsed value has no non-empty array under [facts], when an
    element of that array is [null], or when the insert fails.  Otherwise it
    appends one memory row for that user per element of the array, in
    order: a string as it is, any other element as the text the store casts
    it to (the elements are not checked to be strings).  No outcome of the
    extraction changes the response of the turn, the messages or the
    conversations. *)
Theorem fact_extraction_contract :
  (forall (o : oracle) (userId userMessage aiResponse : string) (st : state),
      exists logs,
        summarizeAndStoreFacts o userId userMessage aiResponse st
        = (Next tt,
           logged logs
             (set_memories
                (memories st
                 ++ map (fun text => mkMemory userId text (memories_at o))
                        (stored_facts o
                           (facts_completion o
                              (extraction_request userMessage aiResponse))))
                st)))
  /\ (forall (o : oracle) (c : completion),
         completion_fails c = true -> stored_facts o c = [])
  /\ (forall (o : oracle) (text : string),
         JSON_parse text = None -> stored_facts o (ApiContent (Some text)) = [])
  /\ (forall (o : oracle) (text : string) (result : jsval),
         JSON_parse text = Some result ->
         fact_items result = [] \/ content_columns (fact_items result) = None ->
         stored_facts o (ApiContent (Some text)) = [])
  /\ (forall (o : oracle) (c : completion),
         store_facts_ok o = false -> stored_facts o c = [])
  /\ (forall (o : oracle) (text : string) (result : jsval) (texts : list string),
         (text =? EmptyString) = false ->
         JSON_parse text = Some result ->
         content_columns (fact_items result) = Some texts ->
         store_facts_ok o = true ->
         stored_facts o (ApiContent (Some text)) = texts)
  /\ (forall (o : oracle) (text : string) (ss : list string),
         (text =? EmptyString) = false ->
         parsed_string_list (Some text) = Some ss ->
         store_facts_ok o = true ->
         stored_facts o (ApiContent (Some text)) = ss)
  /\ (forall (o : oracle) (text : string),
         parsed_string_list (Some text) = None ->
         stored_facts o (ApiContent (Some text)) <> [] ->
         exists result item,
           JSON_parse text = Some result
           /\ In item (fact_items result)
           /\ forall s, item <> JStr s)
  /\ (forall (cfg : config) (o : oracle) (req : option jsval) (st : state)
             (facts : completion_request -> completion) (ok : bool),
         fst (POST cfg (with_extraction facts ok o) req st)
         = fst (POST cfg o req st)
         /\ messages (snd (POST cfg (with_extraction facts ok o) req st))
            = messages (snd (POST cfg o req st))
         /\ conversations (snd (POST cfg (with_extraction facts ok o) req st))
            = conversations (snd (POST cfg o req st))).
Proof.
  split; [exact summarizeAndStoreFacts_total |].
  split; [| split; [| split; [| split; [| split; [| split; [| split]]]]]].
  - intros o [e | [text |]]; simpl; trivial. now intros ->.
  - intros o text Hp. simpl. rewrite Hp. now destruct (text =? EmptyString).
  - intros o text result Hp Hitems. simpl. rewrite Hp.
    destruct (text =? EmptyString); trivial.
    destruct Hitems as [-> | ->]; trivial.
    now destruct (store_facts_ok o).
  - intros o c Hok. destruct c as [e | [text |]]; simpl; trivial.
    destruct (text =? EmptyString); trivial.
    destruct (JSON_parse text) as [result |]; trivial.
    destruct (content_columns (fact_items result)); trivial.
    now rewrite Hok.
  - intros o text result texts Hne Hp Hc Hok. simpl.
    now rewrite Hne, Hp, Hc, Hok.
  - intros o text ss Hne Hp Hok. simpl in *.
    rewrite Hne.
    destruct (JSON_parse text) as [[| | | | | | fields] |]; try discriminate.
    simpl. destruct (assoc "facts" fields); try discriminate.
    apply strings_of_some in Hp. subst items.
    now rewrite content_columns_strings, Hok.
  - intros o text Hp Hst. simpl in *.
    destruct (text =? EmptyString); [now elim Hst |].
    destruct (JSON_parse text) as [result |]; [| now elim Hst].
    exists result.
    destruct result as [| | | | | | fields];
      try (exfalso; apply Hst; unfold content_columns; simpl;
           now destruct (store_facts_ok o)).
    simpl in *.
    destruct (assoc "facts" fields) as [| | | | | items |];
      try (exfalso; apply Hst; unfold content_columns; simpl;
           now destruct (store_facts_ok o)).
    destruct (strings_of_none items Hp) as (item & Hin & Hns).
    now exists item.
  - intros. apply extraction_leaves_turn.
Qed.

(** ** Validation and ownership *)

Lemma required_text_inv (v : jsval) (s : string) :
  required_text v = Some s -> v = JStr s /\ truthy v = true.
Proof.
  destruct v as [| | | | t | |]; simpl; try discriminate.
  destruct (t =? EmptyString); simpl; [discriminate |].
  destruct (trim t =? EmptyString); [discriminate |].
  intros H. inversion H; subst. now split.
Qed.

Lemma filter_none {A : Type} (f : A -> bool) (l : list A) :
  (forall x, In x l -> f x = false) -> filter f l = [].
Proof.
  induction l as [| x l IH]; intros H; simpl; [reflexivity |].
  rewrite (H x (or_introl eq_refl)). apply IH.
  intros y Hy. apply H. now right.
Qed.

(** C2. A chat-turn request (valid user identifier, valid message) that
    names a conversation which the user does not own, or which does not
    exist, is answered 404 and leaves the whole state as it was: no message
    is stored. *)
Theorem foreign_conversation_not_found :
  forall (cfg : config) (o : oracle) (fields : list (string * jsval))
         (st : state) (userId message : string),
    env_ready cfg = true ->
    required_text (assoc "userId" fields) = Some userId ->
    required_text (assoc "message" fields) = Some message ->
    truthy (assoc "sessionId" fields) = true ->
    owns userId (filter_text (assoc "sessionId" fields)) st = false ->
    POST cfg o (Some (JObj fields)) st
    = (mkResponse (ErrorBody "Conversation not found or access denied.") 404, st).
Proof.
  intros cfg o fields st userId message Henv Huid Hmsg Hsid Hforeign.
  rewrite (POST_cases cfg o _ st Henv).
  destruct (required_text_inv _ _ Hmsg) as [_ Htm].
  unfold POST_accept, get_property, require_text, bind, ret. simpl.
  rewrite Huid, Htm, Hmsg, Hsid. simpl.
  unfold select_conversation.
  rewrite filter_none; [reflexivity |].
  intros c Hin.
  destruct ((conv_id c =? filter_text (assoc "sessionId" fields))
            && (conv_user_id c =? userId)) eqn:Hc; [| reflexivity].
  unfold owns in Hforeign.
  assert (Hex : existsb
                  (fun c => (conv_id c =? filter_text (assoc "sessionId" fields))
                            && (conv_user_id c =? userId))
                  (conversations st) = true)
    by (apply existsb_exists; now exists c).
  congruence.
Qed.

(** C6. A request whose user identifier is absent, not a string or blank is
    answered 400.  With a valid user identifier, a request without a message
    but with a name creates a conversation of that name and stores no
    message: when the insert succeeds the answer is 200 and carries only
    the new identifier as [sessionId].  Any other request needs a message:
    without a valid one the answer is 400. *)
Theorem request_validation :
  forall (cfg : config) (o : oracle) (fields : list (string * jsval))
         (st : state),
    env_ready cfg = true ->
    (required_text (assoc "userId" fields) = None ->
     POST cfg o (Some (JObj fields)) st
     = (mkResponse (ErrorBody "User ID (Name) is required.") 400, st))
    /\ (assoc "userId" fields = JUndef ->
        POST cfg o (Some (JObj fields)) st
        = (mkResponse (ErrorBody "User ID (Name) is required.") 400, st))
    /\ (forall userId,
           required_text (assoc "userId" fields) = Some userId ->
           truthy (assoc "message" fields) = false ->
           truthy (assoc "name" fields) = true ->
           messages (snd (POST cfg o (Some (JObj fields)) st)) = messages st
           /\ (create_conversation_ok o = true ->
               has_conversation (generated_id o) st = false ->
               POST cfg o (Some (JObj fields)) st
               = (mkResponse (SessionBody (generated_id o)) 200,
                  set_conversations
                    (conversations st
                     ++ [mkConversation (generated_id o) userId
                           (text_column (assoc "name" fields))
                           (conversation_at o)]) st)))
    /\ (forall userId,
           required_text (assoc "userId" fields) = Some userId ->
           negb (truthy (assoc "message" fields)) && truthy (assoc "name" fields)
           = false ->
           required_text (assoc "message" fields) = None ->
           POST cfg o (Some (JObj fields)) st
           = (mkResponse (ErrorBody "Message content is required.") 400, st)).
Proof.
  intros cfg o fields st Henv.
  assert (Hbad : required_text (assoc "userId" fields) = None ->
                 POST cfg o (Some (JObj fields)) st
                 = (mkResponse (ErrorBody "User ID (Name) is required.") 400, st)).
  { intros Huid. rewrite (POST_cases cfg o _ st Henv).
    unfold POST_accept, get_property, require_text, bind, ret. simpl.
    now rewrite Huid. }
  split; [exact Hbad | split; [| split]].
  - intros Hundef. apply Hbad. now rewrite Hundef.
  - intros userId Huid Hm Hn.
    rewrite (POST_cases cfg o _ st Henv).
    unfold POST_accept, get_property, require_text, bind, ret. simpl.
    rewrite Huid, Hm, Hn. simpl.
    unfold insert_conversation.
    split.
    + destruct (create_conversation_ok o
                && negb (has_conversation (generated_id o) st)); reflexivity.
    + intros Hok Hfresh. now rewrite Hok, Hfresh.
  - intros userId Huid Hnamed Hmsg.
    rewrite (POST_cases cfg o _ st Henv).
    unfold POST_accept, get_property, require_text, bind, ret. simpl.
    now rewrite Huid, Hnamed, Hmsg.
Qed.

(** ** Titles *)

Lemma generateChatTitle_total (o : oracle) (firstMessage : string) (st : state) :
  exists logs,
    generateChatTitle o firstMessage st
    = (Next (title_text (title_completion o (title_request firstMessage))),
       logged logs st).
Proof.
  unfold generateChatTitle, title_text.
  destruct (title_completion o (title_request firstMessage)) as [e | [text |]].
  - exists [LogTitleError]. reflexivity.
  - exists []. run_js. destruct (trim text =? EmptyString); now_state st.
  - exists []. now_state st.
Qed.

Lemma title_text_failed (c : completion) :
  completion_fails c = true -> title_text c = fallback_title.
Proof.
  destruct c as [e | [text |]]; simpl; trivial.
  intros H. apply String.eqb_eq in H. now subst.
Qed.

Lemma run_task_total (o : oracle) (t : task) (st : state) :
  exists logs,
    run_task o t st
    = (Next tt,
       logged logs
         (set_conversations
            (if rename_ok o
             then map (renamed (filter_text (task_conversation t))
                               (title_text (title_completion o
                                              (title_request (task_message t)))))
                      (conversations st)
             else conversations st) st)).
Proof.
  unfold run_task.
  destruct (generateChatTitle_total o (task_message t) st) as (logs & Hgen).
  unfold try_catch. erewrite bind_next by exact Hgen.
  unfold update_conversation_name, bind, console_write.
  destruct (rename_ok o); simpl; eexists (logs ++ [_]);
    unfold logged, set_conversations; simpl; rewrite app_assoc; reflexivity.
Qed.

(** C3 (amended). When the completion call of a title-generation run fails
    (it rejects, or its body is empty), the title operation yields the fixed
    fallback title "New Conversation".  The title the operation yields, the
    fallback included, is then written to the conversation whenever the
    update succeeds: a failed titling attempt replaces the stored display
    name by "New Conversation".  The name stays as it was only when the
    update fails. *)
Theorem title_fallback_is_stored :
  fallback_title = "New Conversation"
  /\ (forall (o : oracle) (firstMessage : string) (st : state),
         completion_fails (title_completion o (title_request firstMessage)) = true ->
         exists logs,
           generateChatTitle o firstMessage st = (Next fallback_title, logged logs st))
  /\ (forall (o : oracle) (t : task) (st : state),
         exists logs,
           run_task o t st
           = (Next tt,
              logged logs
                (set_conversations
                   (if rename_ok o
                    then map (renamed (filter_text (task_conversation t))
                                      (title_text
                                         (title_completion o
                                            (title_request (task_message t)))))
                             (conversations st)
                    else conversations st) st)))
  /\ (forall (o : oracle) (t : task) (st : state),
         completion_fails (title_completion o (title_request (task_message t))) = true ->
         rename_ok o = true ->
         conversations (snd (run_task o t st))
         = map (renamed (filter_text (task_conversation t)) fallback_title)
               (conversations st)).
Proof.
  split; [reflexivity | split; [| split]].
  - intros o firstMessage st Hfail.
    destruct (generateChatTitle_total o firstMessage st) as (logs & H).
    exists logs. now rewrite <- (title_text_failed _ Hfail).
  - exact run_task_total.
  - intros o t st Hfail Hok.
    destruct (run_task_total o t st) as (logs & ->).
    simpl. now rewrite Hok, (title_text_failed _ Hfail).
Qed.

(** ** Triggering title generation *)

Lemma first_turn_iff (data : list message) :
  first_turn data = true <-> exists m, data = [m] /\ msg_sender m = user.
Proof.
  split.
  - destruct data as [| m [| m' rest]]; simpl; try discriminate.
    intros H. exists m. split; [reflexivity |].
    now destruct (msg_sender m).
  - intros (m & -> & Hm). simpl. now rewrite Hm.
Qed.

Lemma order_by_length {A : Type} (le : A -> A -> bool) (l : list A) :
  length (order_by le l) = length l.
Proof. apply Permutation_length, order_by_permutation. Qed.

Lemma messages_of_app (id : string) (st : state) (more : list message)
    (ms : list message) :
  messages st = ms ++ more ->
  messages_of id st
  = filter (fun m => msg_conversation_id m =? id) ms
    ++ filter (fun m => msg_conversation_id m =? id) more.
Proof. intros H. unfold messages_of. now rewrite H, filter_app. Qed.

Lemma POST_inflight_accepted (cfg : config) (o : oracle) (req : option jsval)
    (st st1 : state) (a : accepted) :
  env_ready cfg = true ->
  POST_accept o req st = (Next a, st1) ->
  inflight (snd (POST cfg o req st))
  = inflight st
    ++ (if history_ok o && first_turn (fetched_history (acc_conversationId a) st1)
        then [mkTask (acc_message a) (acc_conversationId a)]
        else []).
Proof.
  intros Henv Hacc.
  destruct (POST_accept_frame o req st) as [_ Hfl]. rewrite Hacc in Hfl.
  simpl in Hfl.
  rewrite (POST_after_accept cfg o req st st1 a Henv Hacc).
  destruct (history_ok o) eqn:Hh; simpl.
  - destruct (run_reply_ok cfg o a st1 Henv Hh) as (logs & ->).
    simpl. now rewrite Hfl.
  - destruct (run_reply_history_error cfg o a st1 Hh) as (logs & ->).
    simpl. now rewrite Hfl, app_nil_r.
Qed.

Lemma POST_messages_accepted (cfg : config) (o : oracle) (req : option jsval)
    (st st1 : state) (a : accepted) :
  env_ready cfg = true ->
  POST_accept o req st = (Next a, st1) ->
  exists more, messages (snd (POST cfg o req st)) = messages st1 ++ more.
Proof.
  intros Henv Hacc.
  rewrite (POST_after_accept cfg o req st st1 a Henv Hacc).
  destruct (history_ok o) eqn:Hh.
  - destruct (run_reply_ok cfg o a st1 Henv Hh) as (logs & ->).
    simpl. eexists. reflexivity.
  - destruct (run_reply_history_error cfg o a st1 Hh) as (logs & ->).
    exists []. simpl. now rewrite app_nil_r.
Qed.

Lemma settle_frame (o : oracle) (st : state) :
  messages (settle o st) = messages st
  /\ memories (settle o st) = memories st
  /\ inflight (settle o st) = [].
Proof.
  unfold settle.
  set (s0 := mkState (conversations st) (messages st) (memories st)
                     (console st) []).
  change (messages st) with (messages s0).
  change (memories st) with (memories s0).
  assert (H0 : inflight s0 = []) by reflexivity.
  revert H0. generalize s0. clear s0.
  induction (inflight st) as [| t ts IH]; intros s Hs; simpl.
  - now repeat split.
  - destruct (run_task_total o t s) as (logs & Hrun).
    destruct (IH (snd (run_task o t s))) as (Hm & Hmem & Hfl).
    + rewrite Hrun. simpl. exact Hs.
    + rewrite Hm, Hmem, Hfl, Hrun. now repeat split.
Qed.

Lemma fresh_history (o : oracle) (st st1 : state) (cid text : string) :
  messages_of cid st = [] ->
  messages st1 = messages st ++ [mkMessage cid user text (user_message_at o)] ->
  first_turn (fetched_history (JStr cid) st1) = true.
Proof.
  intros Hfresh Hmsgs. unfold fetched_history. simpl.
  rewrite (messages_of_app cid st1 _ _ Hmsgs).
  fold (messages_of cid st). rewrite Hfresh. simpl.
  now rewrite String.eqb_refl.
Qed.

Lemma later_history (o : oracle) (st st1 : state) (cid text : string) :
  messages_of cid st <> [] ->
  messages st1 = messages st ++ [mkMessage cid user text (user_message_at o)] ->
  first_turn (fetched_history (JStr cid) st1) = false.
Proof.
  intros Hold Hmsgs.
  destruct (first_turn (fetched_history (JStr cid) st1)) eqn:Hft; [| reflexivity].
  apply first_turn_iff in Hft as (m & Hm & _).
  apply (f_equal (@length message)) in Hm.
  unfold fetched_history in Hm. rewrite order_by_length in Hm. simpl in Hm.
  rewrite (messages_of_app cid st1 _ _ Hmsgs) in Hm.
  fold (messages_of cid st) in Hm.
  rewrite length_app in Hm. simpl in Hm. rewrite String.eqb_refl in Hm.
  simpl in Hm.
  destruct (messages_of cid st); [now elim Hold | simpl in Hm; lia].
Qed.

Lemma POST_inflight_only_accepted (cfg : config) (o : oracle)
    (req : option jsval) (st : state) :
  inflight (snd (POST cfg o req st)) <> inflight st ->
  exists a st1,
    POST_accept o req st = (Next a, st1)
    /\ history_ok o = true
    /\ first_turn (fetched_history (acc_conversationId a) st1) = true.
Proof.
  intros Hchg.
  destruct (env_ready cfg) eqn:Henv;
    [| rewrite POST_not_ready in Hchg by assumption; now elim Hchg].
  destruct (POST_accept o req st) as [[a | r | e] st1] eqn:Hacc.
  - rewrite (POST_inflight_accepted cfg o req st st1 a Henv Hacc) in Hchg.
    exists a, st1.
    destruct (history_ok o); simpl in Hchg;
      [| rewrite app_nil_r in Hchg; now elim Hchg].
    destruct (first_turn (fetched_history (acc_conversationId a) st1));
      [now repeat split | rewrite app_nil_r in Hchg; now elim Hchg].
  - destruct (POST_accept_frame o req st) as [_ Hfl].
    rewrite (POST_cases cfg o req st Henv), Hacc in Hchg.
    rewrite Hacc in Hfl. now elim Hchg.
  - destruct (POST_accept_frame o req st) as [_ Hfl].
    rewrite (POST_cases cfg o req st Henv), Hacc in Hchg.
    rewrite Hacc in Hfl. now elim Hchg.
Qed.

(** C4. A chat turn starts a title request if and only if the history it
    fetched after storing the incoming message holds exactly one message,
    sent by the user; a turn that fetches no history starts none.  Hence a
    successful turn on a conversation that had no message starts exactly
    one title request, a turn on a conversation that already has a message
    starts none, and after an accepted turn the conversation has a message,
    so that every later turn on it starts none. *)
Theorem title_generation_trigger :
  forall (cfg : config) (o : oracle) (req : option jsval) (st : state),
    env_ready cfg = true ->
    (forall a st1,
        POST_accept o req st = (Next a, st1) ->
        history_ok o = true ->
        ((exists t, inflight (snd (POST cfg o req st)) = inflight st ++ [t])
         <-> (exists m, fetched_history (acc_conversationId a) st1 = [m]
                        /\ msg_sender m = user))
        /\ (inflight (snd (POST cfg o req st)) = inflight st
            \/ inflight (snd (POST cfg o req st))
               = inflight st ++ [mkTask (acc_message a) (acc_conversationId a)]))
    /\ (inflight (snd (POST cfg o req st)) <> inflight st ->
        exists a st1,
          POST_accept o req st = (Next a, st1)
          /\ history_ok o = true
          /\ first_turn (fetched_history (acc_conversationId a) st1) = true)
    /\ (forall a st1 cid,
           POST_accept o req st = (Next a, st1) ->
           history_ok o = true ->
           acc_conversationId a = JStr cid ->
           messages_of cid st = [] ->
           inflight (snd (POST cfg o req st))
           = inflight st ++ [mkTask (acc_message a) (JStr cid)])
    /\ (forall a st1 cid,
           POST_accept o req st = (Next a, st1) ->
           acc_conversationId a = JStr cid ->
           messages_of cid st <> [] ->
           inflight (snd (POST cfg o req st)) = inflight st)
    /\ (forall a st1 cid o2 req2 a2 st2,
           POST_accept o req st = (Next a, st1) ->
           acc_conversationId a = JStr cid ->
           POST_accept o2 req2 (snd (turn cfg o req st)) = (Next a2, st2) ->
           acc_conversationId a2 = JStr cid ->
           inflight (snd (POST cfg o2 req2 (snd (turn cfg o req st)))) = []).
Proof.
  intros cfg o req st Henv.
  assert (Hlater : forall cfg' o' req' st' a st1 cid,
             env_ready cfg' = true ->
             POST_accept o' req' st' = (Next a, st1) ->
             acc_conversationId a = JStr cid ->
             messages_of cid st' <> [] ->
             inflight (snd (POST cfg' o' req' st')) = inflight st').
  { intros cfg' o' req' st' a st1 cid Henv' Hacc Hcid Hold.
    rewrite (POST_inflight_accepted cfg' o' req' st' st1 a Henv' Hacc).
    destruct (POST_accept_inv o' req' st' st1 a Hacc)
      as (fields & cid' & _ & _ & _ & Hcid' & _ & Hmsgs & _).
    rewrite Hcid in Hcid'. inversion Hcid'; subst cid'.
    rewrite Hcid, (later_history o' st' st1 cid _ Hold Hmsgs).
    now rewrite andb_false_r, app_nil_r. }
  split; [| split; [| split; [| split]]].
  - intros a st1 Hacc Hh.
    rewrite (POST_inflight_accepted cfg o req st st1 a Henv Hacc), Hh.
    simpl.
    destruct (first_turn (fetched_history (acc_conversationId a) st1)) eqn:Hft.
    + split; [| now right].
      split; intros _; [now apply first_turn_iff | eexists; reflexivity].
    + split; [| left; apply app_nil_r].
      split.
      * intros (t & Ht). apply (f_equal (@length task)) in Ht.
        rewrite !length_app in Ht. simpl in Ht. lia.
      * intros Hm. apply first_turn_iff in Hm. congruence.
  - apply POST_inflight_only_accepted.
  - intros a st1 cid Hacc Hh Hcid Hfresh.
    rewrite (POST_inflight_accepted cfg o req st st1 a Henv Hacc), Hh.
    destruct (POST_accept_inv o req st st1 a Hacc)
      as (fields & cid' & _ & _ & _ & Hcid' & _ & Hmsgs & _).
    rewrite Hcid in Hcid'. inversion Hcid'; subst cid'.
    now rewrite Hcid, (fresh_history o st st1 cid _ Hfresh Hmsgs).
  - intros a st1 cid Hacc Hcid Hold.
    now apply (Hlater cfg o req st a st1 cid).
  - intros a st1 cid o2 req2 a2 st2 Hacc Hcid Hacc2 Hcid2.
    destruct (settle_frame o (snd (POST cfg o req st))) as (Hm & _ & Hfl).
    assert (Hturn : snd (turn cfg o req st) = settle o (snd (POST cfg o req st))).
    { unfold turn. now destruct (POST cfg o req st). }
    rewrite (Hlater cfg o2 req2 _ a2 st2 cid Henv Hacc2 Hcid2).
    + now rewrite Hturn.
    + rewrite Hturn. unfold messages_of. rewrite Hm.
      destruct (POST_messages_accepted cfg o req st st1 a Henv Hacc)
        as (more & ->).
      destruct (POST_accept_inv o req st st1 a Hacc)
        as (fields & cid' & _ & _ & _ & Hcid' & _ & Hmsgs & _).
      rewrite Hcid in Hcid'. inversion Hcid'; subst cid'.
      rewrite Hmsgs, !filter_app. simpl. rewrite String.eqb_refl.
      intros Hnil. apply (f_equal (@length message)) in Hnil.
      rewrite !length_app in Hnil. simpl in Hnil. lia.
Qed.

(** ** Memories only grow *)

Lemma POST_memories (cfg : config) (o : oracle) (req : option jsval)
    (st : state) :
  exists added, memories (snd (POST cfg o req st)) = memories st ++ added.
Proof.
  destruct (env_ready cfg) eqn:Henv;
    [| rewrite POST_not_ready by assumption; exists []; simpl;
       now rewrite app_nil_r].
  destruct (POST_accept_frame o req st) as [Hmem _].
  rewrite (POST_cases cfg o req st Henv).
  destruct (POST_accept o req st) as [[a | r | e] st1]; simpl in Hmem.
  - destruct (history_ok o) eqn:Hh.
    + destruct (run_reply_ok cfg o a st1 Henv Hh) as (logs & ->).
      simpl. rewrite Hmem. eexists. reflexivity.
    + destruct (run_reply_history_error cfg o a st1 Hh) as (logs & ->).
      exists []. simpl. now rewrite Hmem, app_nil_r.
  - exists []. simpl. now rewrite Hmem, app_nil_r.
  - exists []. simpl. now rewrite Hmem, app_nil_r.
Qed.

Lemma GET_history_memories (cfg : config) (ok : bool)
    (sessionId : option string) (st : state) :
  memories (snd (GET_history cfg ok sessionId st)) = memories st.
Proof.
  unfold GET_history, run_handler, bind, when, console_write, respond,
    try_catch, select_messages, ret.
  simpl.
  destruct (env_set (NEXT_PUBLIC_SUPABASE_URL cfg)); [| reflexivity].
  destruct (env_set (NEXT_PUBLIC_SUPABASE_PUBLISHABLE_KEY cfg)); [| reflexivity].
  simpl.
  destruct sessionId as [id |]; [| reflexivity].
  destruct (id =? EmptyString); [reflexivity |].
  destruct ok; reflexivity.
Qed.

Lemma GET_sessions_memories (cfg : config) (ok : bool)
    (userId : option string) (st : state) :
  memories (snd (GET_sessions cfg ok userId st)) = memories st.
Proof.
  unfold GET_sessions, run_handler, bind, when, console_write, respond,
    try_catch, select_conversations, ret.
  simpl.
  destruct (env_set (NEXT_PUBLIC_SUPABASE_URL cfg)); [| reflexivity].
  destruct (env_set (NEXT_PUBLIC_SUPABASE_PUBLISHABLE_KEY cfg)); [| reflexivity].
  simpl.
  destruct userId as [id |]; [| reflexivity].
  destruct (id =? EmptyString); [reflexivity |].
  destruct ok; reflexivity.
Qed.

Lemma serve_memories (c : call) (st : state) :
  exists added, memories (snd (serve c st)) = memories st ++ added.
Proof.
  destruct c as [cfg o req | cfg ok sessionId | cfg ok userId]; simpl.
  - destruct (POST_memories cfg o req st) as (added & H).
    destruct (settle_frame o (snd (POST cfg o req st))) as (_ & Hmem & _).
    exists added. unfold turn.
    destruct (POST cfg o req st) as [r st']. simpl in *. now rewrite Hmem.
  - exists []. now rewrite GET_history_memories, app_nil_r.
  - exists []. now rewrite GET_sessions_memories, app_nil_r.
Qed.

Lemma serve_all_memories (calls : list call) (st : state) :
  exists added, memories (serve_all calls st) = memories st ++ added.
Proof.
  revert st. induction calls as [| c calls IH]; intros st; simpl.
  - exists []. now rewrite app_nil_r.
  - destruct (serve_memories c st) as (a1 & H1).
    destruct (IH (snd (serve c st))) as (a2 & H2).
    exists (a1 ++ a2). now rewrite H2, H1, app_assoc.
Qed.

(** C9. Whatever requests the system serves, the memory table afterwards is
    the table before followed by new rows: no row is changed or removed,
    and equal facts may repeat.  So the rows a successful memory read
    returns are non-decreasing in creation time, and the rows returned
    after any sequence of requests are those returned before together with
    further ones: the list of facts never shrinks. *)
Theorem memories_append_only :
  forall (calls : list call) (st : state),
    (exists added, memories (serve_all calls st) = memories st ++ added)
    /\ (forall (userId : string) (o o' : oracle),
           memories_ok o = true ->
           memories_ok o' = true ->
           exists rows rows' more,
             getMemories o userId st = (Next (map mem_content rows), st)
             /\ getMemories o' userId (serve_all calls st)
                = (Next (map mem_content rows'), serve_all calls st)
             /\ Sorted (fun a b => mem_created_at a <= mem_created_at b) rows
             /\ Sorted (fun a b => mem_created_at a <= mem_created_at b) rows'
             /\ Permutation rows' (rows ++ more)
             /\ length rows <= length rows').
Proof.
  intros calls st.
  destruct (serve_all_memories calls st) as (added & Hadd).
  split; [now exists added |].
  intros userId o o' Hok Hok'.
  exists (order_by (oldest_first mem_created_at) (memories_of userId st)).
  exists (order_by (oldest_first mem_created_at)
                   (memories_of userId (serve_all calls st))).
  exists (filter (fun m => mem_user_id m =? userId) added).
  assert (Hperm : Permutation
                    (order_by (oldest_first mem_created_at)
                              (memories_of userId (serve_all calls st)))
                    (order_by (oldest_first mem_created_at)
                              (memories_of userId st)
                     ++ filter (fun m => mem_user_id m =? userId) added)).
  { eapply perm_trans; [apply order_by_permutation |].
    unfold memories_of at 1. rewrite Hadd, filter_app.
    apply Permutation_app_tail, Permutation_sym, order_by_permutation. }
  repeat split.
  - unfold getMemories, bind, select_memories. now rewrite Hok.
  - unfold getMemories, bind, select_memories. now rewrite Hok'.
  - apply oldest_first_sorted.
  - apply oldest_first_sorted.
  - exact Hperm.
  - apply Permutation_length in Hperm. rewrite Hperm, length_app. lia.
Qed.

(** * Further properties of the code *)

(** ** [trim] *)

Lemma drop_ws_fixed (flip : bool) (l : list ascii) :
  starts_ws flip l = false -> drop_ws flip l = l.
Proof.
  destruct l as [| a [| b [| c l3]]]; simpl; trivial; intros H.
  - apply orb_false_elim in H as [H1 _]. now rewrite H1.
  - apply orb_false_elim in H as [H1 H]. rewrite H1.
    apply orb_false_elim in H as [H2 _]. now rewrite H2.
  - apply orb_false_elim in H as [H1 H]. rewrite H1.
    apply orb_false_elim in H as [H2 H3]. now rewrite H2, H3.
Qed.

Lemma drop_ws_spec (flip : bool) (n : nat) :
  forall l, length l < n ->
            starts_ws flip (drop_ws flip l) = false
            /\ exists p, l = p ++ drop_ws flip l.
Proof.
  induction n as [| n IH]; intros l Hn; [lia |].
  destruct l as [| a l1]; [split; [reflexivity | now exists []] |].
  simpl in Hn. simpl drop_ws.
  destruct (ws1 a) eqn:H1.
  { destruct (IH l1 ltac:(lia)) as (Hs & p & Hp).
    split; [exact Hs |]. exists (a :: p). simpl. now rewrite <- Hp. }
  destruct l1 as [| b l2].
  { split; [simpl; now rewrite H1 | now exists []]. }
  simpl in Hn.
  destruct (if flip then ws2 b a else ws2 a b) eqn:H2.
  { destruct (IH l2 ltac:(lia)) as (Hs & p & Hp).
    split; [exact Hs |]. exists (a :: b :: p). simpl. now rewrite <- Hp. }
  destruct l2 as [| c l3].
  { split; [simpl; now rewrite H1, H2 | now exists []]. }
  simpl in Hn.
  destruct (if flip then ws3 c b a else ws3 a b c) eqn:H3.
  { destruct (IH l3 ltac:(lia)) as (Hs & p & Hp).
    split; [exact Hs |]. exists (a :: b :: c :: p). simpl. now rewrite <- Hp. }
  split; [simpl; now rewrite H1, H2, H3 | now exists []].
Qed.

Lemma starts_ws_prefix (r s : list ascii) :
  starts_ws false (r ++ s) = false -> starts_ws false r = false.
Proof.
  destruct r as [| a [| b [| c r3]]]; simpl; trivial; intros H.
  - apply orb_false_elim in H as [H1 _]. now rewrite H1.
  - apply orb_false_elim in H as [H1 H]. rewrite H1.
    destruct s; simpl in *; [exact H |].
    apply orb_false_elim in H as [H2 _]. now rewrite H2.
Qed.

Lemma trim_idempotent (s : string) : trim (trim s) = trim s.
Proof.
  unfold trim. rewrite list_ascii_of_string_of_list_ascii.
  set (m := drop_ws false (list_ascii_of_string s)).
  destruct (drop_ws_spec false (S (length (list_ascii_of_string s)))
              (list_ascii_of_string s) ltac:(lia)) as (Hm & _).
  fold m in Hm.
  destruct (drop_ws_spec true (S (length (rev m))) (rev m) ltac:(lia))
    as (Hn & p & Hp).
  set (n := drop_ws true (rev m)) in *.
  assert (Hpre : m = rev n ++ rev p).
  { rewrite <- rev_app_distr, <- Hp. now rewrite rev_involutive. }
  assert (Hr : starts_ws false (rev n) = false).
  { apply starts_ws_prefix with (s := rev p). now rewrite <- Hpre. }
  rewrite (drop_ws_fixed false (rev n) Hr), rev_involutive.
  now rewrite (drop_ws_fixed true n Hn).
Qed.

Lemma grown_nothing (st : state) : grown [] [] [] [] [] st = st.
Proof. unfold grown. rewrite !app_nil_r. now destruct st. Qed.

Lemma filter_single_exists {A : Type} (f : A -> bool) (l : list A) (x : A) :
  filter f l = [x] -> existsb f l = true.
Proof.
  intros H. apply existsb_exists. exists x.
  assert (Hin : In x (filter f l)) by (rewrite H; now left).
  apply filter_In in Hin. tauto.
Qed.

Ltac as_grown st cs ms logs :=
  match goal with
  | |- accept_case _ _ _ _ ?s =>
      replace s with (grown cs ms [] logs [] st)
        by (unfold grown, set_conversations, set_messages; destruct st; simpl;
            rewrite ?app_nil_r; reflexivity)
  end.

Lemma POST_accept_cases (o : oracle) (req : option jsval) (st : state) :
  accept_case o req st (fst (POST_accept o req st)) (snd (POST_accept o req st)).
Proof.
  unfold POST_accept.
  destruct req as [body |]; [| apply AcUnreadable].
  destruct body as [| | b | q | s | items | fields];
    try apply AcUnreadable;
    try (apply AcRejected; now left).
  unfold require_text, get_property, when, insert_conversation,
    select_conversation, insert_message, console_write, is_error,
    bind, ret, respond, throw.
  simpl.
  destruct (required_text (assoc "userId" fields)) as [uid |] eqn:Huid;
    [| apply AcRejected; now left].
  destruct (negb (truthy (assoc "message" fields)) && truthy (assoc "name" fields)).
  { destruct (create_conversation_ok o && negb (has_conversation (generated_id o) st))
      eqn:Hc; simpl.
    - apply andb_prop in Hc as [_ Hfresh]. apply negb_true_iff in Hfresh.
      as_grown st [mkConversation (generated_id o) uid
                     (text_column (assoc "name" fields)) (conversation_at o)]
               (@nil message) (@nil log).
      now apply AcCreated.
    - as_grown st (@nil conversation) (@nil message) [LogNamedConversationError].
      apply AcCreateFailed. }
  destruct (required_text (assoc "message" fields)) as [msg |] eqn:Hmsg;
    [| apply AcRejected; now left].
  destruct (negb (truthy (assoc "sessionId" fields))).
  - destruct (create_conversation_ok o && negb (has_conversation (generated_id o) st))
      eqn:Hc; [| apply AcRejected; now right; right].
    apply andb_prop in Hc as [_ Hfresh]. apply negb_true_iff in Hfresh.
    simpl.
    assert (Hcr : created o uid st
                    [mkConversation (generated_id o) uid "New Chat"
                       (conversation_at o)])
      by (right; now exists "New Chat").
    match goal with
    | |- context [save_user_message_ok o && ?h] =>
        destruct (save_user_message_ok o && h) eqn:Hs
    end; simpl.
    + as_grown st [mkConversation (generated_id o) uid "New Chat"
                     (conversation_at o)]
               [mkMessage (generated_id o) user msg (user_message_at o)]
               (@nil log).
      apply (AcAccepted o _ st (mkAccepted uid msg (JStr (generated_id o)))
               (generated_id o)); trivial.
      unfold owns, grown. simpl. rewrite existsb_app. simpl.
      rewrite !String.eqb_refl. simpl. apply orb_true_r.
    + as_grown st [mkConversation (generated_id o) uid "New Chat"
                     (conversation_at o)]
               (@nil message) (@nil log).
      now apply AcSaveFailed with (userId := uid).
  - match goal with
    | |- context [filter ?f ?l] =>
        destruct (filter f l) as [| c [| c' rest]] eqn:Hfil
    end; try (apply AcRejected; now right; left).
    destruct (verify_ok o); [| apply AcRejected; now right; left].
    simpl.
    assert (Hcr : created o uid st []) by now left.
    assert (Hsame : accept_case o (Some (JObj fields)) st
                      (Throw (Error "Failed to save user message")) st).
    { pose proof (AcSaveFailed o (Some (JObj fields)) st uid [] Hcr) as H.
      now rewrite grown_nothing in H. }
    destruct (assoc "sessionId" fields) as [| | | | cid | |] eqn:Hsess;
      simpl; try exact Hsame.
    match goal with
    | |- context [save_user_message_ok o && ?h] =>
        destruct (save_user_message_ok o && h) eqn:Hs
    end; simpl.
    + as_grown st (@nil conversation)
               [mkMessage cid user msg (user_message_at o)] (@nil log).
      apply (AcAccepted o _ st (mkAccepted uid msg (JStr cid)) cid); trivial.
      rewrite grown_nothing. unfold owns.
      simpl in Hfil. exact (filter_single_exists _ _ _ Hfil).
    + exact Hsame.
Qed.

Lemma POST_reply_grown (cfg : config) (o : oracle) (a : accepted) (st : state) :
  env_set (GROQ_API_KEY cfg) = true ->
  history_ok o = true ->
  exists logs,
    POST_reply cfg o a st
    = (Next (mkResponse
               (ReplyBody (reply_text (reply_completion o (turn_request o a st)))
                          (acc_conversationId a)) 200),
       grown []
         (ai_rows o (acc_conversationId a)
                  (reply_text (reply_completion o (turn_request o a st))) st)
         (map (fun text => mkMemory (acc_userId a) text (memories_at o))
              (stored_facts o
                 (facts_completion o
                    (extraction_request
                       (acc_message a)
                       (reply_text (reply_completion o (turn_request o a st)))))))
         logs
         (if first_turn (fetched_history (acc_conversationId a) st)
          then [mkTask (acc_message a) (acc_conversationId a)]
          else [])
         st).
Proof.
  intros Hkey Hh. unfold POST_reply.
  erewrite bind_next by (unfold select_messages; rewrite Hh; reflexivity).
  destruct (getMemories_total o (acc_userId a) st) as (logs1 & Hmem).
  erewrite bind_next by exact Hmem.
  match goal with
  | |- context [bind (if ?b then console_write ?l1 else console_write ?l2) _ ?s] =>
      assert (Hlog : exists l, (if b then console_write l1 else console_write l2) s
                               = (Next tt, logged [l] s))
        by (destruct b; eexists; reflexivity);
      destruct Hlog as (l & Hlog)
  end.
  erewrite bind_next by exact Hlog.
  erewrite bind_next by reflexivity.
  fold (fetched_history (acc_conversationId a) st).
  erewrite bind_next by apply when_spawn.
  match goal with
  | |- context [bind (generateAIResponse _ _ ?h ?m ?f) _ ?s] =>
      destruct (generateAIResponse_total cfg o h m f s Hkey) as (logs2 & Hgen)
  end.
  erewrite bind_next by exact Hgen.
  fold (turn_request o a st).
  set (reply := reply_text (reply_completion o (turn_request o a st))).
  match goal with
  | |- context [bind (insert_message _ ?c _ _ ?r) _ ?s] =>
      destruct (insert_ai_total o c r s) as (saved & Hsave)
  end.
  erewrite bind_next by exact Hsave.
  match goal with
  | |- context [bind (try_catch (summarizeAndStoreFacts _ ?u ?m ?r) _) _ ?s] =>
      destruct (summarizeAndStoreFacts_total o u m r s) as (logs3 & Hsum)
  end.
  erewrite bind_next by (apply try_catch_next; exact Hsum).
  exists (logs1 ++ [l] ++ logs2 ++ logs3). unfold ret. f_equal.
  unfold grown, logged, set_memories, set_messages, ai_rows, has_conversation.
  simpl. rewrite app_nil_r, <- !app_assoc. reflexivity.
Qed.

Lemma reply_text_nonempty (c : completion) : reply_text c <> EmptyString.
Proof.
  destruct c as [e | [text |]]; simpl; try discriminate.
  destruct (text =? EmptyString) eqn:H; [discriminate |].
  now apply String.eqb_neq.
Qed.

Lemma ai_rows_cases (o : oracle) (cid reply : string) (st : state) :
  ai_rows o (JStr cid) reply st = []
  \/ ai_rows o (JStr cid) reply st = [mkMessage cid ai reply (ai_message_at o)].
Proof.
  unfold ai_rows.
  destruct (save_ai_message_ok o && has_conversation cid st); auto.
Qed.

Lemma grown_grown (cs cs' : list conversation) (ms ms' : list message)
    (fs fs' : list memory) (logs logs' : list log) (ts ts' : list task)
    (st : state) :
  grown cs' ms' fs' logs' ts' (grown cs ms fs logs ts st)
  = grown (cs ++ cs') (ms ++ ms') (fs ++ fs') (logs ++ logs') (ts ++ ts') st.
Proof. unfold grown. simpl. now rewrite <- !app_assoc. Qed.

Arguments grown : simpl never.

Lemma POST_outcomes (cfg : config) (o : oracle) (req : option jsval)
    (st : state) :
  post_case o req st (fst (POST cfg o req st)) (snd (POST cfg o req st)).
Proof.
  destruct (env_ready cfg) eqn:Henv;
    [| rewrite POST_not_ready by assumption; apply PcNoEffect; auto].
  rewrite (POST_cases cfg o req st Henv).
  pose proof (POST_accept_cases o req st) as Hacc.
  destruct (POST_accept o req st) as [[a | r | e] st1]; simpl in Hacc.
  - inversion Hacc as [| | | | | a' cid newc Hu Hcid Hcr Hown]; subst.
    destruct (history_ok o) eqn:Hh.
    + destruct (POST_reply_grown cfg o a
                  (grown newc
                     [mkMessage cid user (acc_message a) (user_message_at o)]
                     [] [] [] st)
                  (env_ready_key cfg Henv) Hh)
        as (logs & Hrun).
      unfold run_handler, try_catch. rewrite Hrun. simpl.
      rewrite grown_grown, Hcid, !app_nil_r. simpl.
      apply PcReplied with (text := acc_message a); trivial.
      * apply reply_text_nonempty.
      * apply ai_rows_cases.
      * match goal with |- context [if ?b then _ else _] => destruct b end;
          auto.
    + destruct (run_reply_history_error cfg o a
                  (grown newc
                     [mkMessage cid user (acc_message a) (user_message_at o)]
                     [] [] [] st) Hh) as (logs & ->).
      simpl. unfold logged.
      match goal with
      | |- post_case _ _ _ _ ?s =>
          replace s with
            (grown newc [mkMessage cid user (acc_message a) (user_message_at o)]
                   [] logs [] st)
            by (unfold grown; simpl; now rewrite !app_nil_r)
      end.
      apply PcFailed with (userId := acc_userId a); trivial.
      right. now exists cid, (acc_message a).
  - simpl.
    inversion Hacc as [| error status Hst | error | uid name Hu Hf | |]; subst.
    + now apply PcNoEffect.
    + apply PcFailed with (userId := EmptyString); now left.
    + now apply PcCreated.
  - simpl.
    inversion Hacc as [e' | | | | uid newc Hcr |]; subst.
    + replace (logged [LogChatApiError e] st1)
        with (grown [] [] [] [LogChatApiError e] [] st1)
        by (unfold grown, logged; now rewrite !app_nil_r).
      apply PcFailed with (userId := EmptyString); now left.
    + unfold logged.
      match goal with
      | |- post_case _ _ _ _ ?s =>
          replace s with
            (grown newc [] [] [LogChatApiError (Error "Failed to save user message")]
                   [] st)
            by (unfold grown; simpl; now rewrite !app_nil_r)
      end.
      apply PcFailed with (userId := uid); auto.
Qed.

(** ** What requests do to the tables *)

Lemma renamed_identity (id name : string) : keeps_identity (renamed id name).
Proof.
  intros c. unfold renamed. now destruct (conv_id c =? id).
Qed.

Lemma keeps_identity_compose (f g : conversation -> conversation) :
  keeps_identity f -> keeps_identity g -> keeps_identity (fun c => g (f c)).
Proof.
  intros Hf Hg c. destruct (Hf c) as (H1 & H2 & H3).
  destruct (Hg (f c)) as (G1 & G2 & G3).
  repeat split; congruence.
Qed.

Lemma keeps_identity_id : keeps_identity (fun c => c).
Proof. intros c. now repeat split. Qed.

Lemma run_task_effect (o : oracle) (t : task) (st : state) :
  exists f logs,
    keeps_identity f
    /\ snd (run_task o t st)
       = mkState (map f (conversations st)) (messages st) (memories st)
                 (console st ++ logs) (inflight st).
Proof.
  destruct (run_task_total o t st) as (logs & ->).
  destruct (rename_ok o).
  - eexists; exists logs. split; [apply renamed_identity | reflexivity].
  - exists (fun c => c), logs. split; [apply keeps_identity_id |].
    simpl. now rewrite map_id.
Qed.

Lemma settle_effect (o : oracle) (st : state) :
  exists f logs,
    keeps_identity f
    /\ settle o st
       = mkState (map f (conversations st)) (messages st) (memories st)
                 (console st ++ logs) [].
Proof.
  unfold settle.
  set (s0 := mkState (conversations st) (messages st) (memories st)
                     (console st) []).
  change (conversations st) with (conversations s0).
  change (messages st) with (messages s0).
  change (memories st) with (memories s0).
  change (console st) with (console s0).
  assert (H0 : inflight s0 = []) by reflexivity.
  revert H0. generalize s0. clear s0.
  induction (inflight st) as [| t ts IH]; intros s Hs; simpl.
  - exists (fun c => c), []. split; [apply keeps_identity_id |].
    rewrite map_id, app_nil_r, <- Hs. now destruct s.
  - destruct (run_task_effect o t s) as (f1 & l1 & Hf1 & H1).
    destruct (IH (snd (run_task o t s))) as (f2 & l2 & Hf2 & H2).
    + now rewrite H1.
    + exists (fun c => f2 (f1 c)), (l1 ++ l2).
      split; [now apply keeps_identity_compose |].
      rewrite H2, H1. simpl. now rewrite map_map, app_assoc.
Qed.

Lemma GET_history_effect (cfg : config) (ok : bool)
    (sessionId : option string) (st : state) :
  exists logs, snd (GET_history cfg ok sessionId st) = logged logs st.
Proof.
  unfold GET_history, run_handler, bind, when, console_write, respond,
    try_catch, select_messages, ret, logged.
  simpl.
  destruct (env_set (NEXT_PUBLIC_SUPABASE_URL cfg));
    [| eexists [_; _]; simpl; now rewrite <- app_assoc].
  destruct (env_set (NEXT_PUBLIC_SUPABASE_PUBLISHABLE_KEY cfg));
    [| eexists [_; _]; simpl; now rewrite <- app_assoc].
  simpl.
  destruct sessionId as [id |];
    [| eexists [_; _]; simpl; now rewrite <- app_assoc].
  destruct (id =? EmptyString);
    [eexists [_; _]; simpl; now rewrite <- app_assoc |].
  destruct ok; eexists [_; _]; simpl; now rewrite <- app_assoc.
Qed.

Lemma GET_sessions_effect (cfg : config) (ok : bool)
    (userId : option string) (st : state) :
  exists logs, snd (GET_sessions cfg ok userId st) = logged logs st.
Proof.
  unfold GET_sessions, run_handler, bind, when, console_write, respond,
    try_catch, select_conversations, ret, logged.
  simpl.
  destruct (env_set (NEXT_PUBLIC_SUPABASE_URL cfg));
    [| eexists [_; _]; simpl; now rewrite <- app_assoc].
  destruct (env_set (NEXT_PUBLIC_SUPABASE_PUBLISHABLE_KEY cfg));
    [| eexists [_; _]; simpl; now rewrite <- app_assoc].
  simpl.
  destruct userId as [id |];
    [| eexists [_; _]; simpl; now rewrite <- app_assoc].
  destruct (id =? EmptyString);
    [eexists [_; _]; simpl; now rewrite <- app_assoc |].
  destruct ok; eexists [_; _]; simpl; now rewrite <- app_assoc.
Qed.

Lemma has_conversation_In (id : string) (st : state) :
  has_conversation id st = true <-> In id (map conv_id (conversations st)).
Proof.
  unfold has_conversation. rewrite existsb_exists, in_map_iff.
  split.
  - intros (c & Hin & Heq). apply String.eqb_eq in Heq. now exists c.
  - intros (c & Heq & Hin). exists c. split; [exact Hin |].
    now apply String.eqb_eq.
Qed.

Lemma has_conversation_grown (id : string) (cs : list conversation)
    (ms : list message) (fs : list memory) (logs : list log) (ts : list task)
    (st : state) :
  has_conversation id (grown cs ms fs logs ts st)
  = has_conversation id st || existsb (fun c => conv_id c =? id) cs.
Proof. unfold has_conversation, grown. simpl. apply existsb_app. Qed.

Lemma owns_has (userId id : string) (st : state) :
  owns userId id st = true -> has_conversation id st = true.
Proof.
  unfold owns, has_conversation. rewrite !existsb_exists.
  intros (c & Hin & Hc). exists c. split; [exact Hin |].
  now apply andb_prop in Hc as [Hc _].
Qed.

Lemma well_formed_grown (o : oracle) (userId : string)
    (newc : list conversation) (addedm : list message) (fs : list memory)
    (logs : list log) (ts : list task) (st : state) :
  well_formed st ->
  created o userId st newc ->
  Forall (fun m => has_conversation (msg_conversation_id m)
                                    (grown newc [] [] [] [] st) = true) addedm ->
  well_formed (grown newc addedm fs logs ts st).
Proof.
  intros [Hnd Hfk] Hcr Hadd. split.
  - unfold grown. simpl. rewrite map_app.
    destruct Hcr as [-> | (name & -> & Hfresh)]; simpl.
    + now rewrite app_nil_r.
    + apply NoDup_app; trivial.
      * repeat constructor. intros [].
      * intros x Hx [<- | []].
        apply has_conversation_In in Hx. congruence.
  - change (messages (grown newc addedm fs logs ts st))
      with (messages st ++ addedm).
    apply Forall_app. split.
    + apply Forall_impl with (2 := Hfk). intros m Hm.
      rewrite has_conversation_grown, Hm. reflexivity.
    + apply Forall_impl with (2 := Hadd). intros m Hm.
      rewrite has_conversation_grown in *. exact Hm.
Qed.

Lemma well_formed_tables (st st' : state) :
  map conv_id (conversations st') = map conv_id (conversations st) ->
  messages st' = messages st ->
  well_formed st -> well_formed st'.
Proof.
  intros Hc Hm [Hnd Hfk]. split.
  - now rewrite Hc.
  - rewrite Hm. apply Forall_impl with (2 := Hfk). intros m H.
    apply has_conversation_In. rewrite Hc. now apply has_conversation_In.
Qed.

Lemma keeps_identity_ids (f : conversation -> conversation)
    (cs : list conversation) :
  keeps_identity f -> map conv_id (map f cs) = map conv_id cs.
Proof.
  intros Hf. rewrite map_map. apply map_ext. intros c. apply Hf.
Qed.

Lemma POST_well_formed (cfg : config) (o : oracle) (req : option jsval)
    (st : state) :
  well_formed st -> well_formed (snd (POST cfg o req st)).
Proof.
  intros Hwf.
  pose proof (POST_outcomes cfg o req st) as H.
  destruct (POST cfg o req st) as [r st']. simpl in *.
  destruct H as [error status Hs
                | error uid newc addedm logs Hcr Hadd
                | uid name Hu Hfresh
                | uid text cid reply newc airows facts logs tasks
                    Hu Hcr Hown Hne Hai Htk].
  - exact Hwf.
  - apply (well_formed_grown o uid); trivial.
    destruct Hadd as [-> | (cid & text & -> & _ & Hown)]; constructor.
    + simpl. now apply owns_has with (userId := uid).
    + constructor.
  - apply (well_formed_grown o uid); trivial.
    right. now exists name.
  - apply (well_formed_grown o uid); trivial.
    apply owns_has in Hown.
    constructor; [exact Hown |].
    destruct Hai as [-> | ->]; repeat constructor. exact Hown.
Qed.

Lemma turn_well_formed (cfg : config) (o : oracle) (req : option jsval)
    (st : state) :
  well_formed st -> well_formed (snd (turn cfg o req st)).
Proof.
  intros Hwf. apply (POST_well_formed cfg o req) in Hwf.
  unfold turn. destruct (POST cfg o req st) as [r st']. simpl in *.
  destruct (settle_effect o st') as (f & logs & Hf & ->).
  apply well_formed_tables with (st := st'); trivial.
  simpl. now apply keeps_identity_ids.
Qed.

Lemma serve_well_formed (c : call) (st : state) :
  well_formed st -> well_formed (snd (serve c st)).
Proof.
  intros Hwf. destruct c as [cfg o req | cfg ok sid | cfg ok uid]; simpl.
  - now apply turn_well_formed.
  - destruct (GET_history_effect cfg ok sid st) as (logs & ->).
    now apply well_formed_tables with (st := st).
  - destruct (GET_sessions_effect cfg ok uid st) as (logs & ->).
    now apply well_formed_tables with (st := st).
Qed.

(** X1. Requests keep the store consistent: if conversation identifiers
    are distinct and every message belongs to a stored conversation, the
    same holds after any sequence of requests. *)
Theorem store_integrity_kept :
  forall (calls : list call) (st : state),
    well_formed st -> well_formed (serve_all calls st).
Proof.
  induction calls as [| c calls IH]; intros st Hwf; simpl; trivial.
  apply IH. now apply serve_well_formed.
Qed.

Lemma POST_rows (cfg : config) (o : oracle) (req : option jsval) (st : state) :
  exists newc added,
    conversations (snd (POST cfg o req st)) = conversations st ++ newc
    /\ messages (snd (POST cfg o req st)) = messages st ++ added.
Proof.
  pose proof (POST_outcomes cfg o req st) as H.
  destruct (POST cfg o req st) as [r st']. simpl in *.
  destruct H; try (eexists; eexists; split; reflexivity).
  exists [], []. now rewrite !app_nil_r.
Qed.

Lemma serve_rows (c : call) (st : state) :
  exists f newc added,
    keeps_identity f
    /\ conversations (snd (serve c st)) = map f (conversations st) ++ newc
    /\ messages (snd (serve c st)) = messages st ++ added.
Proof.
  destruct c as [cfg o req | cfg ok sid | cfg ok uid]; simpl.
  - destruct (POST_rows cfg o req st) as (newc & added & Hc & Hm).
    unfold turn. destruct (POST cfg o req st) as [r st']. simpl in *.
    destruct (settle_effect o st') as (f & logs & Hf & ->). simpl.
    exists f, (map f newc), added. split; [exact Hf |].
    now rewrite Hc, Hm, map_app.
  - destruct (GET_history_effect cfg ok sid st) as (logs & ->).
    exists (fun c => c), [], []. split; [apply keeps_identity_id |].
    simpl. now rewrite map_id, !app_nil_r.
  - destruct (GET_sessions_effect cfg ok uid st) as (logs & ->).
    exists (fun c => c), [], []. split; [apply keeps_identity_id |].
    simpl. now rewrite map_id, !app_nil_r.
Qed.

(** X2. No request removes or alters a message, and none removes a
    conversation or changes its identifier, owner or creation time: after
    any sequence of requests the message table is the old one followed by
    new rows, and the conversation table is the old one, possibly renamed,
    followed by new rows. *)
Theorem rows_never_removed :
  forall (calls : list call) (st : state),
    exists f newc added,
      keeps_identity f
      /\ conversations (serve_all calls st) = map f (conversations st) ++ newc
      /\ messages (serve_all calls st) = messages st ++ added.
Proof.
  induction calls as [| c calls IH]; intros st; simpl.
  - exists (fun c => c), [], []. split; [apply keeps_identity_id |].
    now rewrite map_id, !app_nil_r.
  - destruct (serve_rows c st) as (f1 & n1 & a1 & Hf1 & Hc1 & Hm1).
    destruct (IH (snd (serve c st))) as (f2 & n2 & a2 & Hf2 & Hc2 & Hm2).
    exists (fun c => f2 (f1 c)), (map f2 n1 ++ n2), (a1 ++ a2).
    split; [now apply keeps_identity_compose |].
    rewrite Hc2, Hm2, Hc1, Hm1, map_app, map_map, !app_assoc. now split.
Qed.

Lemma same_id_same_row {A B : Type} (f : A -> B) (l : list A) (a b : A) :
  NoDup (map f l) -> In a l -> In b l -> f a = f b -> a = b.
Proof.
  induction l as [| x l IH]; intros Hnd Ha Hb Hf; [now elim Ha |].
  simpl in Hnd. inversion Hnd as [| ? ? Hx Hnd']; subst.
  destruct Ha as [-> | Ha], Hb as [-> | Hb]; trivial.
  - elim Hx. rewrite Hf. now apply in_map.
  - elim Hx. rewrite <- Hf. now apply in_map.
  - now apply IH.
Qed.

Lemma owner_unique (userId id : string) (st : state) (c : conversation) :
  NoDup (map conv_id (conversations st)) ->
  owns userId id st = true ->
  In c (conversations st) ->
  conv_id c = id ->
  conv_user_id c = userId.
Proof.
  intros Hnd Hown Hin Hid.
  unfold owns in Hown. apply existsb_exists in Hown as (c0 & Hin0 & Hc0).
  apply andb_prop in Hc0 as [Hid0 Hu0].
  apply String.eqb_eq in Hid0. apply String.eqb_eq in Hu0.
  assert (Hsame : c0 = c).
  { apply (same_id_same_row conv_id (conversations st)); trivial.
    now rewrite Hid0, Hid. }
  now subst.
Qed.

(** X3. A chat turn writes only into a conversation of the user who sent
    it: with distinct conversation identifiers, every message the handler
    adds belongs to a conversation whose owner is the [userId] of the
    request. *)
Theorem turn_writes_own_conversation :
  forall (cfg : config) (o : oracle) (req : option jsval) (st : state),
    well_formed st ->
    exists added,
      messages (snd (POST cfg o req st)) = messages st ++ added
      /\ forall m c,
           In m added ->
           In c (conversations (snd (POST cfg o req st))) ->
           conv_id c = msg_conversation_id m ->
           request_user req = Some (conv_user_id c).
Proof.
  intros cfg o req st Hwf.
  pose proof (POST_well_formed cfg o req st Hwf) as [Hnd _].
  pose proof (POST_outcomes cfg o req st) as H.
  destruct (POST cfg o req st) as [r st']. simpl in *.
  destruct H as [error status Hs
                | error uid newc addedm logs Hcr Hadd
                | uid name Hu Hfresh
                | uid text cid reply newc airows facts logs tasks
                    Hu Hcr Hown Hne Hai Htk].
  - exists []. split; [now rewrite app_nil_r | intros m c []].
  - exists addedm. split; [reflexivity |].
    intros m c Hm Hc Hid.
    destruct Hadd as [-> | (cid & text & -> & Hu & Hown)]; [now elim Hm |].
    destruct Hm as [<- | []]. simpl in Hid.
    rewrite Hu. f_equal. symmetry.
    eapply owner_unique with (id := cid);
      [exact Hnd | exact Hown | exact Hc | congruence].
  - exists []. split; [unfold grown; simpl; reflexivity | intros m c []].
  - eexists. split; [reflexivity |].
    intros m c Hm Hc Hid.
    assert (Hmid : msg_conversation_id m = cid).
    { destruct Hm as [<- | Hm]; [reflexivity |].
      destruct Hai as [-> | ->]; [now elim Hm |].
      now destruct Hm as [<- | []]. }
    rewrite Hu. f_equal. symmetry.
    eapply owner_unique with (id := cid);
      [exact Hnd | exact Hown | exact Hc | congruence].
Qed.

(** X4. A request answered 400 or 404 has no effect at all: tables, console
    and requests in flight are as before. *)
Theorem rejected_request_has_no_effect :
  forall (cfg : config) (o : oracle) (req : option jsval) (st : state),
    resp_status (fst (POST cfg o req st)) = 400
    \/ resp_status (fst (POST cfg o req st)) = 404 ->
    snd (POST cfg o req st) = st.
Proof.
  intros cfg o req st Hs.
  pose proof (POST_outcomes cfg o req st) as H.
  destruct (POST cfg o req st) as [r st']. simpl in *.
  destruct H; simpl in Hs; trivial; destruct Hs; discriminate.
Qed.

(** X5. The response of the chat endpoint has one of three shapes: an error
    message with status 400, 404 or 500; status 200 with only the
    identifier of the conversation just created; or status 200 with a
    non-empty reply and the identifier of the conversation, a string. *)
Theorem response_shapes :
  forall (cfg : config) (o : oracle) (req : option jsval) (st : state),
    match resp_body (fst (POST cfg o req st)) with
    | ErrorBody _ =>
        resp_status (fst (POST cfg o req st)) = 400
        \/ resp_status (fst (POST cfg o req st)) = 404
        \/ resp_status (fst (POST cfg o req st)) = 500
    | SessionBody id =>
        resp_status (fst (POST cfg o req st)) = 200 /\ id = generated_id o
    | ReplyBody reply sessionId =>
        resp_status (fst (POST cfg o req st)) = 200
        /\ reply <> EmptyString
        /\ exists cid, sessionId = JStr cid
    | _ => False
    end.
Proof.
  intros cfg o req st.
  pose proof (POST_outcomes cfg o req st) as H.
  destruct (POST cfg o req st) as [r st']. simpl in *.
  destruct H; simpl; auto.
  repeat split; trivial. now exists cid.
Qed.

Lemma filter_other_user (userId other : string) (now : nat)
    (facts : list string) :
  userId <> other ->
  filter (fun m => mem_user_id m =? other)
         (map (fun f => mkMemory userId f now) facts) = [].
Proof.
  intros Hne. apply filter_none. intros m Hm.
  apply in_map_iff in Hm as (f & <- & _). simpl.
  now apply String.eqb_neq.
Qed.

(** X6. A chat turn adds memory rows only for the user who sent it: what
    any other user reads from the memory table is the same before and
    after the turn. *)
Theorem turn_keeps_other_users_memories :
  forall (cfg : config) (o : oracle) (req : option jsval) (st : state)
         (other : string),
    request_user req <> Some other ->
    memories_of other (snd (turn cfg o req st)) = memories_of other st.
Proof.
  intros cfg o req st other Hne.
  pose proof (POST_outcomes cfg o req st) as H.
  unfold turn. destruct (POST cfg o req st) as [r st']. simpl in *.
  destruct (settle_effect o st') as (f & logs' & _ & ->).
  unfold memories_of. simpl.
  destruct H; simpl; rewrite ?app_nil_r; trivial.
  rewrite filter_app, filter_other_user, app_nil_r; trivial.
  congruence.
Qed.

(** ** Using a session again *)

Lemma owns_single (userId id : string) (cs : list conversation) :
  NoDup (map conv_id cs) ->
  existsb (fun c => (conv_id c =? id) && (conv_user_id c =? userId)) cs = true ->
  exists c,
    filter (fun c => (conv_id c =? id) && (conv_user_id c =? userId)) cs = [c].
Proof.
  induction cs as [| x cs IH]; intros Hnd Hex; [discriminate |].
  simpl in *. inversion Hnd as [| ? ? Hx Hnd']; subst.
  destruct ((conv_id x =? id) && (conv_user_id x =? userId)) eqn:Hfx.
  - exists x. f_equal. apply filter_none. intros y Hy.
    destruct ((conv_id y =? id) && (conv_user_id y =? userId)) eqn:Hfy;
      [| reflexivity].
    apply andb_prop in Hfx as [Hix _]. apply andb_prop in Hfy as [Hiy _].
    apply String.eqb_eq in Hix, Hiy.
    elim Hx. rewrite Hix, <- Hiy. now apply in_map.
  - simpl in Hex. now apply IH.
Qed.

Lemma owns_map (userId id : string) (f : conversation -> conversation)
    (cs : list conversation) :
  keeps_identity f ->
  existsb (fun c => (conv_id c =? id) && (conv_user_id c =? userId)) (map f cs)
  = existsb (fun c => (conv_id c =? id) && (conv_user_id c =? userId)) cs.
Proof.
  intros Hf. induction cs as [| c cs IH]; [reflexivity |].
  simpl. destruct (Hf c) as (-> & -> & _). now rewrite IH.
Qed.

Lemma POST_owns_returned (cfg : config) (o : oracle) (req : option jsval)
    (st : state) (userId cid : string) :
  request_user req = Some userId ->
  (resp_body (fst (POST cfg o req st)) = SessionBody cid
   \/ exists reply,
        resp_body (fst (POST cfg o req st)) = ReplyBody reply (JStr cid)) ->
  owns userId cid (snd (turn cfg o req st)) = true.
Proof.
  intros Hu Hbody.
  pose proof (POST_outcomes cfg o req st) as H.
  unfold turn. destruct (POST cfg o req st) as [r st']. simpl in *.
  destruct (settle_effect o st') as (f & logs' & Hf & ->).
  unfold owns. simpl. rewrite (owns_map userId cid f _ Hf).
  destruct H as [error status Hs
                | error uid newc addedm logs Hcr Hadd
                | uid name Hu' Hfresh
                | uid text cid' reply newc airows facts logs tasks
                    Hu' Hcr Hown Hne Hai Htk]; simpl in Hbody.
  - destruct Hbody as [Hb | (reply & Hb)]; discriminate.
  - destruct Hbody as [Hb | (reply & Hb)]; discriminate.
  - destruct Hbody as [Hb | (reply & Hb)]; [| discriminate].
    inversion Hb; subst cid. rewrite Hu in Hu'. inversion Hu'; subst uid.
    unfold grown. simpl. rewrite existsb_app. simpl.
    rewrite !String.eqb_refl. simpl. apply orb_true_r.
  - destruct Hbody as [Hb | (reply' & Hb)]; [discriminate |].
    inversion Hb; subst. rewrite Hu in Hu'. inversion Hu'; subst uid.
    exact Hown.
Qed.

Arguments required_text : simpl never.
Arguments truthy : simpl never.

(** X7. The session identifier a chat endpoint response carries can be
    used for the next turn: with distinct conversation identifiers, a later
    request of the same user with that [sessionId] passes the ownership
    check and has its message stored under it, provided the two queries
    succeed. *)
Theorem returned_session_is_reusable :
  forall (cfg : config) (o : oracle) (req : option jsval) (st : state)
         (userId cid : string) (o2 : oracle) (text : string),
    well_formed st ->
    request_user req = Some userId ->
    (resp_body (fst (POST cfg o req st)) = SessionBody cid
     \/ exists reply,
          resp_body (fst (POST cfg o req st)) = ReplyBody reply (JStr cid)) ->
    (cid =? EmptyString) = false ->
    required_text (JStr text) = Some text ->
    verify_ok o2 = true ->
    save_user_message_ok o2 = true ->
    POST_accept o2 (Some (JObj (chat_fields userId text (JStr cid))))
                (snd (turn cfg o req st))
    = (Next (mkAccepted userId text (JStr cid)),
       set_messages
         (messages (snd (turn cfg o req st))
          ++ [mkMessage cid user text (user_message_at o2)])
         (snd (turn cfg o req st))).
Proof.
  intros cfg o req st userId cid o2 text Hwf Hu Hbody Hcid Htext Hv Hs.
  pose proof (POST_owns_returned cfg o req st userId cid Hu Hbody) as Hown.
  pose proof (turn_well_formed cfg o req st Hwf) as [Hnd _].
  set (st' := snd (turn cfg o req st)) in *.
  assert (Huid : required_text (JStr userId) = Some userId).
  { destruct req as [[| | | | | | fields] |]; try discriminate.
    simpl in Hu. destruct (required_text_inv _ _ Hu) as [Heq _].
    now rewrite Heq in Hu. }
  destruct (required_text_inv _ _ Htext) as [_ Htt].
  destruct (owns_single userId cid (conversations st') Hnd Hown) as (c & Hc).
  assert (Hsid : truthy (JStr cid) = true)
    by (unfold truthy; now rewrite Hcid).
  unfold POST_accept, get_property, require_text, bind, ret, chat_fields.
  simpl.
  rewrite Huid, Htt, Htext, Hsid. simpl.
  unfold select_conversation. rewrite Hc, Hv. simpl.
  unfold insert_message, when. rewrite Hs, (owns_has _ _ _ Hown). reflexivity.
Qed.

(** ** The Response Generator and the title operation *)


(** X9. The request a turn sends to the completion API starts with the
    system prompt and ends with the incoming message as a user turn; the
    history between them was read after that message was stored, so it
    contains the same message once more. *)
Theorem request_repeats_message :
  forall (o : oracle) (req : option jsval) (st st1 : state) (a : accepted),
    POST_accept o req st = (Next a, st1) ->
    exists prompt hist,
      rq_messages (turn_request o a st1)
      = mkChat system prompt :: hist ++ [mkChat user_role (acc_message a)]
      /\ In (mkChat user_role (acc_message a)) hist
      /\ length hist = length (fetched_history (acc_conversationId a) st1).
Proof.
  intros o req st st1 a Hacc.
  destruct (POST_accept_inv o req st st1 a Hacc)
    as (fields & cid & _ & _ & _ & Hcid & _ & Hmsgs & _).
  unfold turn_request, reply_request. simpl.
  eexists. eexists. split; [reflexivity | split].
  - rewrite Hcid. unfold fetched_history. simpl.
    apply in_map_iff.
    exists (mkEntry user (acc_message a)). split; [reflexivity |].
    apply in_map_iff.
    exists (mkMessage cid user (acc_message a) (user_message_at o)).
    split; [reflexivity |].
    apply Permutation_in with (l := messages_of cid st1).
    + apply Permutation_sym, order_by_permutation.
    + unfold messages_of. rewrite Hmsgs. apply filter_In. split.
      * apply in_or_app. right. now left.
      * simpl. apply String.eqb_refl.
  - now rewrite !length_map.
Qed.

Lemma trim_fallback_title : trim fallback_title = fallback_title.
Proof. reflexivity. Qed.

(** X10. [generateChatTitle] never throws and never yields a blank title:
    the title is not empty and has no white space at either end (trimming
    it again changes nothing); only the console may grow. *)
Theorem generateChatTitle_clean :
  forall (o : oracle) (firstMessage : string) (st : state),
    exists title logs,
      generateChatTitle o firstMessage st = (Next title, logged logs st)
      /\ title <> EmptyString
      /\ trim title = title.
Proof.
  intros o firstMessage st.
  destruct (generateChatTitle_total o firstMessage st) as (logs & H).
  eexists. exists logs. split; [exact H |].
  unfold title_text.
  destruct (title_completion o (title_request firstMessage)) as [e | [text |]];
    try (split; [discriminate | apply trim_fallback_title]).
  destruct (trim text =? EmptyString) eqn:Ht.
  - split; [discriminate | apply trim_fallback_title].
  - split; [now apply String.eqb_neq | apply trim_idempotent].
Qed.

(** ** Reading back what was written *)

(** X11. A fact that an extraction stores is among the facts the next
    successful memory read returns for that user. *)
Theorem stored_fact_is_read_back :
  forall (o o' : oracle) (userId userMessage aiResponse : string) (st : state)
         (fact : string),
    memories_ok o' = true ->
    In fact (stored_facts o (facts_completion o
                               (extraction_request userMessage aiResponse))) ->
    exists facts,
      fst (getMemories o' userId
             (snd (summarizeAndStoreFacts o userId userMessage aiResponse st)))
      = Next facts
      /\ In fact facts.
Proof.
  intros o o' userId userMessage aiResponse st fact Hok Hin.
  destruct (summarizeAndStoreFacts_total o userId userMessage aiResponse st)
    as (logs & ->).
  unfold getMemories, bind, select_memories. rewrite Hok. simpl.
  eexists. split; [reflexivity |].
  apply in_map_iff.
  exists (mkMemory userId fact (memories_at o)). split; [reflexivity |].
  eapply Permutation_in; [apply Permutation_sym, order_by_permutation |].
  unfold memories_of. simpl. rewrite filter_app. apply in_or_app. right.
  apply filter_In. split.
  - apply in_map_iff. now exists fact.
  - simpl. apply String.eqb_refl.
Qed.

(** X12. After a turn that was accepted, whose history read succeeded and
    whose reply was stored, the history endpoint returns for that
    conversation the messages it had before together with the two new
    ones: the user's message and the reply of the response. *)
Theorem turn_shows_in_history :
  forall (cfg : config) (o : oracle) (req : option jsval) (st st1 : state)
         (a : accepted) (cid : string),
    env_ready cfg = true ->
    POST_accept o req st = (Next a, st1) ->
    acc_conversationId a = JStr cid ->
    (cid =? EmptyString) = false ->
    history_ok o = true ->
    save_ai_message_ok o = true ->
    exists reply rows,
      fst (turn cfg o req st) = mkResponse (ReplyBody reply (JStr cid)) 200
      /\ fst (GET_history cfg true (Some cid) (snd (turn cfg o req st)))
         = mkResponse (MessagesBody (map history_row rows)) 200
      /\ Permutation rows
           (messages_of cid st
            ++ [mkMessage cid user (acc_message a) (user_message_at o);
                mkMessage cid ai reply (ai_message_at o)]).
Proof.
  intros cfg o req st st1 a cid Henv Hacc Hcid Hne Hh Hsave.
  destruct (POST_accept_inv o req st st1 a Hacc)
    as (fields & cid' & _ & _ & _ & Hcid' & Hhas & Hmsgs & _).
  rewrite Hcid in Hcid'. inversion Hcid'; subst cid'.
  pose proof (POST_after_accept cfg o req st st1 a Henv Hacc) as HP.
  destruct (run_reply_ok cfg o a st1 Henv Hh) as (logs & Hrun).
  rewrite Hrun in HP.
  destruct (settle_frame o (snd (POST cfg o req st))) as (Hm & _ & _).
  unfold turn. rewrite HP in *. simpl in Hm. simpl.
  set (reply := reply_text (reply_completion o (turn_request o a st1))) in *.
  exists reply.
  eexists. split; [now rewrite Hcid | split].
  - unfold GET_history, run_handler, bind, when.
    unfold env_ready in Henv.
    apply andb_prop in Henv as [Henv _]. apply andb_prop in Henv as [Hu Hk].
    rewrite Hu, Hk. simpl. rewrite Hne. reflexivity.
  - eapply perm_trans; [apply order_by_permutation |].
    unfold messages_of at 1. rewrite Hm.
    unfold ai_rows. rewrite Hcid, Hsave, Hhas. simpl.
    rewrite Hmsgs, <- app_assoc, filter_app. simpl.
    rewrite !String.eqb_refl. apply Permutation_refl.
Qed.

Lemma newest_first_total {A : Type} (key : A -> nat) (a b : A) :
  newest_first key a b = false -> newest_first key b a = true.
Proof.
  unfold newest_first. intros H.
  apply Nat.leb_gt in H. apply Nat.leb_le. lia.
Qed.

Lemma newest_first_sorted {A : Type} (key : A -> nat) (l : list A) :
  Sorted (fun a b => key b <= key a) (order_by (newest_first key) l).
Proof.
  pose proof (order_by_sorted (newest_first key) (newest_first_total key) l) as H.
  induction H as [| x l' Hs IH Hhd]; constructor; trivial.
  destruct Hhd as [| y l'' Hxy]; constructor.
  now apply Nat.leb_le.
Qed.

(** X13. The sessions endpoint answers with all conversations of the user
    and no others, newest first; it answers 500 when the query fails and
    400 when the user identifier is missing or empty. *)
Theorem sessions_contract :
  forall (cfg : config) (userId : string) (st : state),
    env_set (NEXT_PUBLIC_SUPABASE_URL cfg) = true ->
    env_set (NEXT_PUBLIC_SUPABASE_PUBLISHABLE_KEY cfg) = true ->
    (userId =? EmptyString) = false ->
    (exists rows,
        fst (GET_sessions cfg true (Some userId) st)
        = mkResponse (ConversationsBody (map session_row rows)) 200
        /\ Permutation rows
             (filter (fun c => conv_user_id c =? userId) (conversations st))
        /\ Sorted (fun a b => conv_created_at b <= conv_created_at a) rows)
    /\ fst (GET_sessions cfg false (Some userId) st)
       = mkResponse (ErrorBody "Failed to retrieve conversations.") 500
    /\ (forall ok,
           fst (GET_sessions cfg ok None st)
           = mkResponse (ErrorBody "User ID is required.") 400
           /\ fst (GET_sessions cfg ok (Some EmptyString) st)
              = mkResponse (ErrorBody "User ID is required.") 400).
Proof.
  intros cfg userId st Hurl Hkey Hne.
  split; [| split].
  - exists (order_by (newest_first conv_created_at)
                     (filter (fun c => conv_user_id c =? userId)
                             (conversations st))).
    split; [| split].
    + unfold GET_sessions, run_handler, bind, when.
      rewrite Hurl, Hkey. simpl. rewrite Hne. reflexivity.
    + apply order_by_permutation.
    + apply newest_first_sorted.
  - unfold GET_sessions, run_handler, bind, when.
    rewrite Hurl, Hkey. simpl. rewrite Hne. reflexivity.
  - intros ok. unfold GET_sessions, run_handler, bind, when.
    rewrite Hurl, Hkey. simpl. now split.
Qed.

(** X14. The conversation whose identifier a chat endpoint response carries
    is listed by the sessions endpoint for the user who sent the request. *)
Theorem returned_session_is_listed :
  forall (cfg : config) (o : oracle) (req : option jsval) (st : state)
         (userId cid : string),
    env_ready cfg = true ->
    request_user req = Some userId ->
    (resp_body (fst (POST cfg o req st)) = SessionBody cid
     \/ exists reply,
          resp_body (fst (POST cfg o req st)) = ReplyBody reply (JStr cid)) ->
    exists rows,
      fst (GET_sessions cfg true (Some userId) (snd (turn cfg o req st)))
      = mkResponse (ConversationsBody rows) 200
      /\ In cid (map (fun row => fst (fst row)) rows).
Proof.
  intros cfg o req st userId cid Henv Hu Hbody.
  pose proof (POST_owns_returned cfg o req st userId cid Hu Hbody) as Hown.
  set (st' := snd (turn cfg o req st)) in *.
  assert (Huid : (userId =? EmptyString) = false).
  { destruct req as [[| | | | | | fields] |]; try discriminate.
    simpl in Hu. destruct (required_text_inv _ _ Hu) as [Heq Ht].
    rewrite Heq in Ht. unfold truthy in Ht. now apply negb_true_iff. }
  unfold env_ready in Henv.
  apply andb_prop in Henv as [Henv _]. apply andb_prop in Henv as [Hurl Hkey].
  eexists. split.
  - unfold GET_sessions, run_handler, bind, when.
    rewrite Hurl, Hkey. simpl. rewrite Huid. reflexivity.
  - unfold owns in Hown. apply existsb_exists in Hown as (c & Hin & Hc).
    apply andb_prop in Hc as [Hid Hus]. apply String.eqb_eq in Hid.
    rewrite map_map. apply in_map_iff. exists c. split; [exact Hid |].
    eapply Permutation_in; [apply Permutation_sym, order_by_permutation |].
    apply filter_In. now split.
Qed.

(** X15. The history and the sessions endpoints only read: whatever the
    request and the outcome of the query, the tables and the requests in
    flight are as before, and only console lines are added. *)
Theorem read_endpoints_only_log :
  forall (cfg : config) (ok : bool) (param : option string) (st : state),
    (exists logs, snd (GET_history cfg ok param st) = logged logs st)
    /\ (exists logs, snd (GET_sessions cfg ok param st) = logged logs st).
Proof.
  intros cfg ok param st. split.
  - apply GET_history_effect.
  - apply GET_sessions_effect.
Qed.

(** ** Failures after a write *)

(** X16. Nothing is rolled back when a turn fails after a write.  When the
    insert of the user message fails in a turn that had to create its
    conversation, the answer is 500 and the new, empty conversation stays
    stored.  When the history read fails, the answer is 500 and the user
    message stays stored, while no reply, no memory and no title request
    are added. *)
Theorem failed_turn_keeps_writes :
  (forall (cfg : config) (o : oracle) (fields : list (string * jsval))
          (st : state) (userId text : string),
      env_ready cfg = true ->
      required_text (assoc "userId" fields) = Some userId ->
      required_text (assoc "message" fields) = Some text ->
      truthy (assoc "sessionId" fields) = false ->
      create_conversation_ok o = true ->
      has_conversation (generated_id o) st = false ->
      save_user_message_ok o = false ->
      POST cfg o (Some (JObj fields)) st
      = (mkResponse (ErrorBody "Internal Server Error") 500,
         grown [mkConversation (generated_id o) userId "New Chat"
                  (conversation_at o)]
               [] []
               [LogChatApiError (Error "Failed to save user message")] [] st))
  /\ (forall (cfg : config) (o : oracle) (req : option jsval) (st st1 : state)
             (a : accepted) (cid : string),
         env_ready cfg = true ->
         POST_accept o req st = (Next a, st1) ->
         acc_conversationId a = JStr cid ->
         history_ok o = false ->
         fst (POST cfg o req st)
         = mkResponse (ErrorBody "Internal Server Error") 500
         /\ messages (snd (POST cfg o req st))
            = messages st
              ++ [mkMessage cid user (acc_message a) (user_message_at o)]
         /\ memories (snd (POST cfg o req st)) = memories st
         /\ inflight (snd (POST cfg o req st)) = inflight st).
Proof.
  split.
  - intros cfg o fields st userId text Henv Hu Hm Hsid Hc Hfresh Hsave.
    rewrite (POST_cases cfg o _ st Henv).
    destruct (required_text_inv _ _ Hm) as [_ Htm].
    unfold POST_accept, get_property, require_text, bind, ret. simpl.
    rewrite Hu, Htm, Hm, Hsid. simpl.
    unfold insert_conversation. rewrite Hc, Hfresh. simpl.
    unfold insert_message. rewrite Hsave. simpl.
    unfold grown, logged, set_conversations. simpl.
    now rewrite !app_nil_r.
  - intros cfg o req st st1 a cid Henv Hacc Hcid Hh.
    destruct (POST_accept_inv o req st st1 a Hacc)
      as (fields & cid' & _ & _ & _ & Hcid' & _ & Hmsgs & Hmem & _ & Hfl & _).
    rewrite Hcid in Hcid'. inversion Hcid'; subst cid'.
    rewrite (POST_after_accept cfg o req st st1 a Henv Hacc).
    destruct (run_reply_history_error cfg o a st1 Hh) as (logs & ->).
    simpl. now repeat split.
Qed.

(** ** The stored user name *)

Lemma getItem_setItem (key value : string) (items : list (string * string)) :
  getItem key (setItem key value items) = Some value.
Proof. unfold setItem. simpl. now rewrite String.eqb_refl. Qed.

Lemma getItem_filter_other (key other : string)
    (items : list (string * string)) :
  (key =? other) = false ->
  getItem other (filter (fun entry => negb (fst entry =? key)) items)
  = getItem other items.
Proof.
  intros Hne. induction items as [| [k v] items IH]; [reflexivity |].
  simpl. destruct (k =? key) eqn:Hk; simpl.
  - apply String.eqb_eq in Hk. subst k. now rewrite Hne.
  - destruct (k =? other); [reflexivity | exact IH].
Qed.

Lemma getItem_setItem_other (key other value : string)
    (items : list (string * string)) :
  (key =? other) = false ->
  getItem other (setItem key value items) = getItem other items.
Proof.
  intros Hne. unfold setItem. simpl. rewrite Hne.
  now apply getItem_filter_other.
Qed.

Arguments getItem : simpl never.
Arguments setItem : simpl never.

(** X17. In a browser, the name [setStoredUserName] stores is read back by
    [getStoredUserName] trimmed, whatever was stored before, and the other
    entries of the storage keep their values; without a window the setter
    does nothing and the getter returns [null]. *)
Theorem stored_user_name_round_trip :
  forall (name : string) (b : browser),
    (has_window b = true ->
     getStoredUserName (setStoredUserName name b) = Some (trim name)
     /\ forall other,
          (USER_NAME_LOCAL_STORAGE_KEY =? other) = false ->
          getItem other (localStorage (setStoredUserName name b))
          = getItem other (localStorage b))
    /\ (has_window b = false ->
        setStoredUserName name b = b /\ getStoredUserName b = None).
Proof.
  intros name b. split; intros Hw.
  - unfold getStoredUserName, setStoredUserName. rewrite Hw. simpl. rewrite ?Hw. simpl. split.
    + apply getItem_setItem.
    + intros other Hne. now apply getItem_setItem_other.
  - unfold getStoredUserName, setStoredUserName. now rewrite Hw.
Qed.

(** X18. With the variant that keeps two entries, the name is read back in
    lower case by [getStoredUserName] and as typed, trimmed, by
    [getStoredDisplayName]; where no display name was ever stored,
    [getStoredDisplayName] falls back to the stored user name. *)
Theorem display_name_round_trip :
  forall (name : string) (b : browser),
    has_window b = true ->
    getStoredUserName (setStoredUserName_display name b)
    = Some (toLowerCase (trim name))
    /\ ((trim name =? EmptyString) = false ->
        getStoredDisplayName (setStoredUserName_display name b)
        = Some (trim name))
    /\ (getItem USER_NAME_DISPLAY_KEY (localStorage b) = None ->
        getStoredDisplayName b = getStoredUserName b).
Proof.
  intros name b Hw. split; [| split].
  - unfold getStoredUserName, setStoredUserName_display. rewrite Hw. simpl. rewrite ?Hw. simpl.
    rewrite getItem_setItem_other by reflexivity.
    apply getItem_setItem.
  - intros Hne. unfold getStoredDisplayName, setStoredUserName_display.
    rewrite Hw. simpl. rewrite ?Hw. simpl.
    now rewrite ?getItem_setItem, Hne.
  - intros Hnone. unfold getStoredDisplayName. now rewrite Hw, Hnone.
Qed.

(** ** The page *)

Lemma required_text_trimmed (s : string) :
  (trim s =? EmptyString) = false ->
  required_text (JStr (trim s)) = Some (trim s).
Proof.
  intros Hne. unfold required_text, truthy.
  now rewrite trim_idempotent, Hne.
Qed.

(** X19. A name that [handleNameSubmit] accepts (not blank, at most 20
    code units after trimming) becomes the user identifier trimmed, closes
    the name dialog, is stored so that the next visit starts with it, and
    passes the check the chat endpoint makes on [userId].  A name it does
    not accept changes neither the user identifier nor the storage. *)
Theorem handleNameSubmit_contract :
  forall (p : page),
    ((trim (page_nameInput p) =? EmptyString) = false ->
     utf16_length (trim (page_nameInput p)) <= MAX_NAME_CHAR_COUNT ->
     has_window (page_browser p) = true ->
     page_userId (handleNameSubmit p) = Some (trim (page_nameInput p))
     /\ page_isNameDialogOpen (handleNameSubmit p) = false
     /\ getStoredUserName (page_browser (handleNameSubmit p))
        = Some (trim (page_nameInput p))
     /\ page_userId (on_mount (first_render (page_browser (handleNameSubmit p))))
        = Some (trim (page_nameInput p))
     /\ required_text (JStr (trim (page_nameInput p)))
        = Some (trim (page_nameInput p)))
    /\ ((trim (page_nameInput p) =? EmptyString) = true
        \/ MAX_NAME_CHAR_COUNT < utf16_length (trim (page_nameInput p)) ->
        page_userId (handleNameSubmit p) = page_userId p
        /\ page_browser (handleNameSubmit p) = page_browser p).
Proof.
  intros p. split.
  - intros Hne Hlen Hw.
    assert (Hlt : Nat.ltb MAX_NAME_CHAR_COUNT
                          (utf16_length (trim (page_nameInput p))) = false)
      by (apply Nat.ltb_ge; exact Hlen).
    assert (Hstored : getStoredUserName
                        (setStoredUserName (trim (page_nameInput p))
                                           (page_browser p))
                      = Some (trim (page_nameInput p))).
    { unfold getStoredUserName, setStoredUserName. rewrite Hw. simpl. rewrite ?Hw. simpl. now rewrite getItem_setItem, trim_idempotent. }
    unfold handleNameSubmit. rewrite Hne, Hlt. simpl.
    repeat split; trivial.
    + unfold on_mount, first_render. simpl. rewrite Hstored.
      unfold missing. now rewrite Hne.
    + now apply required_text_trimmed.
  - intros Hbad. unfold handleNameSubmit.
    destruct (trim (page_nameInput p) =? EmptyString) eqn:Hne; [now split |].
    destruct Hbad as [Hb | Hb]; [discriminate |].
    apply Nat.ltb_lt in Hb. rewrite Hb. now split.
Qed.

(** X20. When the request of [handleSendMessage] fails (no response, a
    status outside 200 to 299, a body that is not JSON or is [null]), the
    page takes the message back: if the identifier generated for it is not
    in use, the list of messages is the one before the send, the input
    holds the trimmed message again, the loading flag is off and one error
    notification is added. *)
Theorem failed_send_is_taken_back :
  forall (po : page_oracle) (p : page) (userId sessionId : string),
    page_userId p = Some userId ->
    page_sessionId p = Some sessionId ->
    (userId =? EmptyString) = false ->
    (sessionId =? EmptyString) = false ->
    (trim (page_input p) =? EmptyString) = false ->
    utf16_length (page_input p) <= MAX_CHAR_COUNT ->
    reply_in (chat_api po (send_body (trim (page_input p)) sessionId userId))
    = None ->
    forallb (fun m => negb (pm_id m =? user_message_id po)) (page_messages p)
    = true ->
    page_messages (handleSendMessage po p) = page_messages p
    /\ page_input (handleSendMessage po p) = trim (page_input p)
    /\ page_isLoading (handleSendMessage po p) = false
    /\ page_toasts (handleSendMessage po p)
       = page_toasts p ++ [ToastError "Failed to send message"].
Proof.
  intros po p userId sessionId Hu Hs Hune Hsne Hin Hlen Hfail Hfresh.
  assert (Hlt : Nat.ltb MAX_CHAR_COUNT (utf16_length (page_input p)) = false)
    by (apply Nat.ltb_ge; exact Hlen).
  unfold handleSendMessage. rewrite Hu, Hs. unfold missing.
  rewrite Hune, Hin, Hlt, Hsne.
  unfold reply_in in Hfail. rewrite Hfail. simpl.
  repeat split.
  rewrite filter_app. simpl. rewrite String.eqb_refl. simpl.
  rewrite app_nil_r.
  clear - Hfresh. induction (page_messages p) as [| m ms IH]; [reflexivity |].
  simpl in *. apply andb_prop in Hfresh as [Hm Hms].
  rewrite Hm. f_equal. now apply IH.
Qed.

(** X21. The page asks the chat endpoint only for messages the endpoint
    accepts as non-empty: what [handleSendMessage] does depends on the API
    only at bodies whose message passes the check of the endpoint and
    whose session and user identifiers are not empty. *)
Theorem page_sends_valid_messages :
  forall (po : page_oracle) (api : jsval -> fetch_result) (p : page),
    (forall message sessionId userId,
        required_text (JStr message) = Some message ->
        (sessionId =? EmptyString) = false ->
        (userId =? EmptyString) = false ->
        api (send_body message sessionId userId)
        = chat_api po (send_body message sessionId userId)) ->
    handleSendMessage (with_chat_api api po) p = handleSendMessage po p.
Proof.
  intros po api p Hsame. unfold handleSendMessage.
  destruct (page_userId p) as [userId |]; [| reflexivity].
  unfold missing.
  destruct (userId =? EmptyString) eqn:Hu; [reflexivity |].
  destruct (trim (page_input p) =? EmptyString) eqn:Hin; [reflexivity |].
  destruct (Nat.ltb MAX_CHAR_COUNT (utf16_length (page_input p)));
    [reflexivity |].
  destruct (page_sessionId p) as [sessionId |]; [| reflexivity].
  destruct (sessionId =? EmptyString) eqn:Hs; [reflexivity |].
  simpl.
  now rewrite (Hsame _ _ _ (required_text_trimmed _ Hin) Hs Hu).
Qed.

(** ** The page and the endpoint together *)

Lemma POST_accept_existing (o : oracle) (st : state)
    (userId cid text : string) :
  NoDup (map conv_id (conversations st)) ->
  owns userId cid st = true ->
  (cid =? EmptyString) = false ->
  required_text (JStr userId) = Some userId ->
  required_text (JStr text) = Some text ->
  verify_ok o = true ->
  save_user_message_ok o = true ->
  POST_accept o (Some (send_body text cid userId)) st
  = (Next (mkAccepted userId text (JStr cid)),
     set_messages
       (messages st ++ [mkMessage cid user text (user_message_at o)]) st).
Proof.
  intros Hnd Hown Hcid Huid Htext Hv Hs.
  destruct (required_text_inv _ _ Htext) as [_ Htt].
  destruct (owns_single userId cid (conversations st) Hnd Hown) as (c & Hc).
  assert (Hsid : truthy (JStr cid) = true)
    by (unfold truthy; now rewrite Hcid).
  unfold POST_accept, get_property, require_text, bind, ret, send_body.
  simpl.
  rewrite Huid, Htt, Htext, Hsid. simpl.
  unfold select_conversation. rewrite Hc, Hv. simpl.
  unfold insert_message, when. rewrite Hs, (owns_has _ _ _ Hown). reflexivity.
Qed.

(** X22. What the page shows after a send is what the endpoint stored.
    For a user who owns the open conversation, with the queries of the turn
    succeeding, [handleSendMessage] against the chat endpoint appends to
    the page the trimmed message and a reply, clears the input, and the
    endpoint has appended to the conversation a user message and an 'ai'
    message with the same two contents. *)
Theorem page_shows_what_is_stored :
  forall (cfg : config) (o : oracle) (po : page_oracle) (p : page)
         (st : state) (userId sessionId : string),
    page_userId p = Some userId ->
    page_sessionId p = Some sessionId ->
    required_text (JStr userId) = Some userId ->
    (sessionId =? EmptyString) = false ->
    (trim (page_input p) =? EmptyString) = false ->
    utf16_length (page_input p) <= MAX_CHAR_COUNT ->
    env_ready cfg = true ->
    well_formed st ->
    owns userId sessionId st = true ->
    verify_ok o = true ->
    save_user_message_ok o = true ->
    history_ok o = true ->
    save_ai_message_ok o = true ->
    exists reply,
      page_messages
        (handleSendMessage
           (with_chat_api (fun body => received (fst (POST cfg o (Some body) st)))
                          po) p)
      = page_messages p
        ++ [mkPageMessage (user_message_id po) user
                          (JStr (trim (page_input p))) (user_message_time po);
            mkPageMessage (ai_message_id po) ai (JStr reply)
                          (ai_message_time po)]
      /\ page_input
           (handleSendMessage
              (with_chat_api
                 (fun body => received (fst (POST cfg o (Some body) st))) po) p)
         = EmptyString
      /\ messages
           (snd (POST cfg o
                   (Some (send_body (trim (page_input p)) sessionId userId)) st))
         = messages st
           ++ [mkMessage sessionId user (trim (page_input p)) (user_message_at o);
               mkMessage sessionId ai reply (ai_message_at o)].
Proof.
  intros cfg o po p st userId sessionId Hu Hs Huid Hsne Hin Hlen Henv
         [Hnd _] Hown Hv Hsave Hh Hai.
  assert (Hlt : Nat.ltb MAX_CHAR_COUNT (utf16_length (page_input p)) = false)
    by (apply Nat.ltb_ge; exact Hlen).
  assert (Hune : (userId =? EmptyString) = false).
  { destruct (required_text_inv _ _ Huid) as [_ Ht].
    unfold truthy in Ht. now apply negb_true_iff. }
  pose proof (POST_accept_existing o st userId sessionId (trim (page_input p))
                Hnd Hown Hsne Huid (required_text_trimmed _ Hin) Hv Hsave)
    as Hacc.
  pose proof (POST_after_accept cfg o _ st _ _ Henv Hacc) as HP.
  match type of HP with
  | _ = run_handler _ ?s1 =>
      destruct (run_reply_ok cfg o
                  (mkAccepted userId (trim (page_input p)) (JStr sessionId))
                  s1 Henv Hh) as (logs & Hrun)
  end.
  rewrite Hrun in HP.
  match type of HP with
  | _ = (mkResponse (ReplyBody ?r _) _, _) => exists r
  end.
  unfold handleSendMessage. rewrite Hu, Hs. unfold missing.
  rewrite Hune, Hin, Hlt, Hsne. simpl chat_api.
  rewrite HP. simpl.
  repeat split; trivial.
  - now rewrite <- app_assoc.
  - unfold ai_rows. rewrite Hai. simpl.
    change (has_conversation sessionId (set_messages ?m st))
      with (has_conversation sessionId st).
    rewrite (owns_has _ _ _ Hown). now rewrite <- app_assoc.
Qed.

End Handlers.

(** * The statements at sample inputs *)

Abbreviation sample_POST :=
  (POST sample_parse sample_template sample_cast sample_positive).
Abbreviation sample_turn :=
  (turn sample_parse sample_template sample_cast sample_positive).
Abbreviation sample_accept := (POST_accept sample_template sample_cast).
Abbreviation sample_extract :=
  (summarizeAndStoreFacts sample_parse sample_cast sample_positive).
Abbreviation answers content :=
  (sample_oracle (ApiContent (Some content)) (ApiContent (Some "Order status"))
                 (ApiContent None)).

Lemma getMemories_contract_witness :
  memories_ok (answers "Hello") = true
  /\ exists rows,
       getMemories (answers "Hello") "alice" memory_store
       = (Next (map mem_content rows), memory_store)
       /\ Permutation rows (memories_of "alice" memory_store)
       /\ Sorted (fun a b => mem_created_at a <= mem_created_at b) rows.
Proof.
  split; [reflexivity |].
  apply (proj1 (getMemories_contract (answers "Hello") "alice" memory_store)).
  reflexivity.
Defined.

Lemma history_read_contract_witness :
  exists rows,
    fst (GET_history sample_config true (Some "c-1") history_store)
    = mkResponse (MessagesBody (map history_row rows)) 200
    /\ Permutation rows (messages_of "c-1" history_store)
    /\ Sorted (fun a b => msg_created_at a <= msg_created_at b) rows
    /\ (messages_of "c-1" history_store = [] -> rows = []).
Proof.
  apply (history_read_contract sample_parse sample_template sample_cast
           sample_positive sample_config "c-1" history_store);
    reflexivity.
Defined.

Lemma unsaved_reply_still_answered_witness :
  exists st2,
    sample_POST sample_config (with_save_ai_message_ok false (answers "Hello"))
                (chat_request "Where is my order?" JUndef) empty_store
    = (mkResponse (ReplyBody "Hello" (JStr "c-new")) 200, st2)
    /\ messages st2 = [mkMessage "c-new" user "Where is my order?" 11]
    /\ fst (sample_POST sample_config
              (with_save_ai_message_ok true
                 (with_save_ai_message_ok false (answers "Hello")))
              (chat_request "Where is my order?" JUndef) empty_store)
       = fst (sample_POST sample_config
                (with_save_ai_message_ok false (answers "Hello"))
                (chat_request "Where is my order?" JUndef) empty_store).
Proof.
  refine (unsaved_reply_still_answered
            sample_parse sample_template sample_cast sample_positive
            sample_config (with_save_ai_message_ok false (answers "Hello"))
            (chat_request "Where is my order?" JUndef) empty_store
            (snd (sample_accept
                    (with_save_ai_message_ok false (answers "Hello"))
                    (chat_request "Where is my order?" JUndef) empty_store))
            (mkAccepted "alice" "Where is my order?" (JStr "c-new"))
            _ _ _ _); reflexivity.
Defined.

Lemma completion_failure_apology_witness :
  exists cid st2,
    JStr "c-new" = JStr cid
    /\ sample_POST sample_config
         (sample_oracle (ApiFailure (Error "503")) (ApiContent None) (ApiContent None))
         (chat_request "Where is my order?" JUndef) empty_store
       = (mkResponse (ReplyBody apology_error (JStr cid)) 200, st2)
    /\ messages st2
       = [mkMessage cid user "Where is my order?" 11;
          mkMessage cid ai apology_error 12].
Proof.
  refine (proj2 (completion_failure_apology
                   sample_parse sample_template sample_cast sample_positive)
            sample_config
            (sample_oracle (ApiFailure (Error "503")) (ApiContent None)
                           (ApiContent None))
            (chat_request "Where is my order?" JUndef) empty_store
            (snd (sample_accept
                    (sample_oracle (ApiFailure (Error "503")) (ApiContent None)
                                   (ApiContent None))
                    (chat_request "Where is my order?" JUndef) empty_store))
            (mkAccepted "alice" "Where is my order?" (JStr "c-new"))
            _ _ _ _ _); reflexivity.
Defined.

(** The two failures of the completion call are answered with different
    apologies: no single string is the reply of every failed call. *)
Lemma apology_is_not_one_string :
  ~ exists apology,
      forall c,
        completion_fails c = true ->
        resp_body
          (fst (sample_POST sample_config
                  (sample_oracle c (ApiContent None) (ApiContent None))
                  (chat_request "Where is my order?" JUndef) empty_store))
        = ReplyBody apology (JStr "c-new").
Proof.
  intros (apology & H).
  pose proof (H (ApiFailure (Error "503")) eq_refl) as Hthrown.
  pose proof (H (ApiContent None) eq_refl) as Hempty.
  vm_compute in Hthrown. vm_compute in Hempty.
  injection Hthrown as <-. discriminate Hempty.
Qed.

Lemma fact_extraction_contract_witness :
  (facts_mumbai =? EmptyString) = false
  /\ parsed_string_list sample_parse (Some facts_mumbai)
     = Some ["User lives in Mumbai"]
  /\ stored_facts sample_parse sample_cast
       (sample_oracle (ApiContent (Some "Hello")) (ApiContent None)
                      (ApiContent (Some facts_mumbai)))
       (ApiContent (Some facts_mumbai))
     = ["User lives in Mumbai"].
Proof.
  split; [reflexivity | split; [reflexivity |]].
  refine (proj1 (proj2 (proj2 (proj2 (proj2 (proj2 (proj2
            (fact_extraction_contract
               sample_parse sample_template sample_cast sample_positive)))))))
            (sample_oracle (ApiContent (Some "Hello")) (ApiContent None)
                           (ApiContent (Some facts_mumbai)))
            facts_mumbai ["User lives in Mumbai"] _ _ _); reflexivity.
Defined.

(** An output whose [facts] array holds a number does not parse as a list
    of strings, and yet a memory row is stored for it. *)
Lemma non_string_fact_is_stored :
  parsed_string_list sample_parse (Some facts_42) = None
  /\ memories
       (snd (sample_extract
               (sample_oracle (ApiContent (Some "Hello")) (ApiContent None)
                              (ApiContent (Some facts_42)))
               "alice" "My order number is 42" "Hello" empty_store))
     = [mkMemory "alice" "42" 13].
Proof. split; reflexivity. Qed.

Lemma foreign_conversation_not_found_witness :
  owns "bob" "c-1" support_store = false
  /\ sample_POST sample_config (answers "Hello")
       (Some (JObj (chat_fields "bob" "Where is my order?" (JStr "c-1"))))
       support_store
     = (mkResponse (ErrorBody "Conversation not found or access denied.") 404,
        support_store).
Proof.
  split; [reflexivity |].
  refine (foreign_conversation_not_found
            sample_parse sample_template sample_cast sample_positive
            sample_config (answers "Hello")
            (chat_fields "bob" "Where is my order?" (JStr "c-1"))
            support_store "bob" "Where is my order?" _ _ _ _ _); reflexivity.
Defined.

Lemma request_validation_witness :
  messages (snd (sample_POST sample_config (answers "Hello")
                   (Some (JObj creation_fields)) empty_store)) = []
  /\ sample_POST sample_config (answers "Hello")
       (Some (JObj creation_fields)) empty_store
     = (mkResponse (SessionBody "c-new") 200,
        mkState [mkConversation "c-new" "alice" "Support" 10] [] [] [] []).
Proof.
  destruct (request_validation
              sample_parse sample_template sample_cast sample_positive
              sample_config (answers "Hello") creation_fields empty_store
              eq_refl) as (_ & _ & Hcreate & _).
  destruct (Hcreate "alice" eq_refl eq_refl eq_refl) as [Hnone Hnew].
  split; [exact Hnone | exact (Hnew eq_refl eq_refl)].
Defined.

Lemma title_fallback_is_stored_witness :
  completion_fails (ApiFailure (Error "503")) = true
  /\ conversations
       (snd (run_task sample_template
               (sample_oracle (ApiContent (Some "Hello")) (ApiFailure (Error "503"))
                              (ApiContent None))
               (mkTask "Where is my order?" (JStr "c-1")) support_store))
     = [mkConversation "c-1" "alice" "New Conversation" 1].
Proof.
  split; [reflexivity |].
  refine (proj2 (proj2 (proj2 (title_fallback_is_stored sample_template)))
            (sample_oracle (ApiContent (Some "Hello")) (ApiFailure (Error "503"))
                           (ApiContent None))
            (mkTask "Where is my order?" (JStr "c-1")) support_store _ _);
    reflexivity.
Defined.

(** A conversation created with the name "Support" loses that name to the
    fallback title when the title request of its first turn fails. *)
Lemma failed_title_overwrites_name :
  completion_fails (ApiFailure (Error "503")) = true
  /\ map conv_name (conversations support_store) = ["Support"]
  /\ map conv_name
       (conversations
          (snd (sample_turn sample_config
                  (sample_oracle (ApiContent (Some "Hello"))
                                 (ApiFailure (Error "503")) (ApiContent None))
                  (chat_request "Where is my order?" (JStr "c-1"))
                  support_store)))
     = ["New Conversation"].
Proof. repeat split. Qed.

Lemma title_generation_trigger_witness :
  inflight (snd (sample_POST sample_config (answers "Hello")
                   (chat_request "Where is my order?" JUndef) empty_store))
  = [mkTask "Where is my order?" (JStr "c-new")]
  /\ inflight (snd (sample_POST sample_config (answers "Hello")
                      (chat_request "And my refund?" (JStr "c-1")) history_store))
     = [].
Proof.
  split.
  - destruct (title_generation_trigger
                sample_parse sample_template sample_cast sample_positive
                sample_config (answers "Hello")
                (chat_request "Where is my order?" JUndef) empty_store eq_refl)
      as (_ & _ & Hfresh & _).
    exact (Hfresh (mkAccepted "alice" "Where is my order?" (JStr "c-new"))
                  (snd (sample_accept (answers "Hello")
                          (chat_request "Where is my order?" JUndef) empty_store))
                  "c-new" eq_refl eq_refl eq_refl eq_refl).
  - destruct (title_generation_trigger
                sample_parse sample_template sample_cast sample_positive
                sample_config (answers "Hello")
                (chat_request "And my refund?" (JStr "c-1")) history_store eq_refl)
      as (_ & _ & _ & Hlater & _).
    refine (Hlater (mkAccepted "alice" "And my refund?" (JStr "c-1"))
                   (snd (sample_accept (answers "Hello")
                           (chat_request "And my refund?" (JStr "c-1"))
                           history_store))
                   "c-1" eq_refl eq_refl _).
    discriminate.
Defined.

Lemma memories_append_only_witness :
  exists added,
    memories
      (serve_all sample_parse sample_template sample_cast sample_positive
         [ChatTurn sample_config
            (sample_oracle (ApiContent (Some "Hello")) (ApiContent None)
                           (ApiContent (Some facts_mumbai)))
            (chat_request "I live in Mumbai" JUndef);
          History sample_config true (Some "c-new")]
         memory_store)
    = memories memory_store ++ added.
Proof.
  exact (proj1 (memories_append_only
                  sample_parse sample_template sample_cast sample_positive
                  [ChatTurn sample_config
                     (sample_oracle (ApiContent (Some "Hello")) (ApiContent None)
                                    (ApiContent (Some facts_mumbai)))
                     (chat_request "I live in Mumbai" JUndef);
                   History sample_config true (Some "c-new")]
                  memory_store)).
Defined.


(** ** The further properties at sample inputs *)

Abbreviation sample_serve_all :=
  (serve_all sample_parse sample_template sample_cast sample_positive).

Lemma empty_store_well_formed : well_formed empty_store.
Proof. split; constructor. Qed.

Lemma history_store_well_formed : well_formed history_store.
Proof.
  split.
  - constructor; [intros [] | constructor].
  - repeat constructor.
Qed.

Lemma store_integrity_kept_witness :
  well_formed history_store
  /\ well_formed
       (sample_serve_all
          [ChatTurn sample_config (answers "Hello")
                    (chat_request "And my refund?" (JStr "c-1"));
           ChatTurn sample_config (answers "Hello")
                    (Some (JObj creation_fields));
           Sessions sample_config true (Some "alice")]
          history_store).
Proof.
  split; [exact history_store_well_formed |].
  apply store_integrity_kept. exact history_store_well_formed.
Defined.

Lemma turn_writes_own_conversation_witness :
  exists added,
    messages (snd (sample_POST sample_config (answers "Hello")
                     (chat_request "And my refund?" (JStr "c-1"))
                     history_store))
    = messages history_store ++ added
    /\ forall m c,
         In m added ->
         In c (conversations
                 (snd (sample_POST sample_config (answers "Hello")
                         (chat_request "And my refund?" (JStr "c-1"))
                         history_store))) ->
         conv_id c = msg_conversation_id m ->
         request_user (chat_request "And my refund?" (JStr "c-1"))
         = Some (conv_user_id c).
Proof.
  apply turn_writes_own_conversation. exact history_store_well_formed.
Defined.

Lemma rejected_request_has_no_effect_witness :
  resp_status
    (fst (sample_POST sample_config (answers "Hello")
            (Some (JObj (chat_fields "bob" "Where is my order?" (JStr "c-1"))))
            support_store)) = 404
  /\ snd (sample_POST sample_config (answers "Hello")
            (Some (JObj (chat_fields "bob" "Where is my order?" (JStr "c-1"))))
            support_store)
     = support_store.
Proof.
  split; [reflexivity |].
  apply rejected_request_has_no_effect. right. reflexivity.
Defined.

Lemma turn_keeps_other_users_memories_witness :
  memories
    (snd (sample_turn sample_config mumbai_oracle
            (chat_request "I live in Mumbai" JUndef) memory_store))
  = memories memory_store ++ [mkMemory "alice" "User lives in Mumbai" 13]
  /\ memories_of "bob"
       (snd (sample_turn sample_config mumbai_oracle
               (chat_request "I live in Mumbai" JUndef) memory_store))
     = memories_of "bob" memory_store.
Proof.
  split; [reflexivity |].
  apply turn_keeps_other_users_memories.
  intros H. vm_compute in H. discriminate H.
Defined.

Lemma returned_session_is_reusable_witness :
  sample_accept (answers "Sure")
    (Some (JObj (chat_fields "alice" "And my refund?" (JStr "c-new"))))
    (snd (sample_turn sample_config (answers "Hello")
            (chat_request "Where is my order?" JUndef) empty_store))
  = (Next (mkAccepted "alice" "And my refund?" (JStr "c-new")),
     set_messages
       (messages
          (snd (sample_turn sample_config (answers "Hello")
                  (chat_request "Where is my order?" JUndef) empty_store))
        ++ [mkMessage "c-new" user "And my refund?" 11])
       (snd (sample_turn sample_config (answers "Hello")
               (chat_request "Where is my order?" JUndef) empty_store))).
Proof.
  refine (returned_session_is_reusable
            sample_parse sample_template sample_cast sample_positive
            sample_config (answers "Hello")
            (chat_request "Where is my order?" JUndef) empty_store
            "alice" "c-new" (answers "Sure") "And my refund?"
            empty_store_well_formed _ _ _ _ _ _); try reflexivity.
  right. exists "Hello". reflexivity.
Defined.


Lemma request_repeats_message_witness :
  exists prompt hist,
    rq_messages
      (turn_request sample_template (answers "Hello")
         (mkAccepted "alice" "And my refund?" (JStr "c-1"))
         (snd (sample_accept (answers "Hello")
                 (chat_request "And my refund?" (JStr "c-1")) history_store)))
    = mkChat system prompt :: hist ++ [mkChat user_role "And my refund?"]
    /\ In (mkChat user_role "And my refund?") hist
    /\ length hist = 3.
Proof.
  refine (request_repeats_message
            sample_template sample_cast (answers "Hello")
            (chat_request "And my refund?" (JStr "c-1")) history_store
            (snd (sample_accept (answers "Hello")
                    (chat_request "And my refund?" (JStr "c-1")) history_store))
            (mkAccepted "alice" "And my refund?" (JStr "c-1")) _).
  reflexivity.
Defined.

Lemma stored_fact_is_read_back_witness :
  exists facts,
    fst (getMemories (answers "Hello") "alice"
           (snd (sample_extract mumbai_oracle "alice" "I live in Mumbai" "Hello"
                   memory_store)))
    = Next facts
    /\ In "User lives in Mumbai" facts.
Proof.
  refine (stored_fact_is_read_back
            sample_parse sample_cast sample_positive
            mumbai_oracle (answers "Hello") "alice" "I live in Mumbai" "Hello"
            memory_store "User lives in Mumbai" _ _).
  - reflexivity.
  - vm_compute. left. reflexivity.
Defined.

Lemma turn_shows_in_history_witness :
  exists reply rows,
    fst (sample_turn sample_config (answers "Hello")
           (chat_request "And my refund?" (JStr "c-1")) history_store)
    = mkResponse (ReplyBody reply (JStr "c-1")) 200
    /\ fst (GET_history sample_config true (Some "c-1")
              (snd (sample_turn sample_config (answers "Hello")
                      (chat_request "And my refund?" (JStr "c-1"))
                      history_store)))
       = mkResponse (MessagesBody (map history_row rows)) 200
    /\ Permutation rows
         (messages_of "c-1" history_store
          ++ [mkMessage "c-1" user "And my refund?" 11;
              mkMessage "c-1" ai reply 12]).
Proof.
  refine (turn_shows_in_history
            sample_parse sample_template sample_cast sample_positive
            sample_config (answers "Hello")
            (chat_request "And my refund?" (JStr "c-1")) history_store
            (snd (sample_accept (answers "Hello")
                    (chat_request "And my refund?" (JStr "c-1")) history_store))
            (mkAccepted "alice" "And my refund?" (JStr "c-1")) "c-1"
            _ _ _ _ _ _); reflexivity.
Defined.

Lemma sessions_contract_witness :
  (exists rows,
      fst (GET_sessions sample_config true (Some "alice") support_store)
      = mkResponse (ConversationsBody (map session_row rows)) 200
      /\ Permutation rows
           (filter (fun c => conv_user_id c =? "alice")
                   (conversations support_store))
      /\ Sorted (fun a b => conv_created_at b <= conv_created_at a) rows)
  /\ fst (GET_sessions sample_config false (Some "alice") support_store)
     = mkResponse (ErrorBody "Failed to retrieve conversations.") 500.
Proof.
  destruct (sessions_contract sample_config "alice" support_store
              eq_refl eq_refl eq_refl) as (Hrows & Hfail & _).
  split; [exact Hrows | exact Hfail].
Defined.

Lemma returned_session_is_listed_witness :
  exists rows,
    fst (GET_sessions sample_config true (Some "alice")
           (snd (sample_turn sample_config (answers "Hello")
                   (Some (JObj creation_fields)) support_store)))
    = mkResponse (ConversationsBody rows) 200
    /\ In "c-new" (map (fun row => fst (fst row)) rows).
Proof.
  refine (returned_session_is_listed
            sample_parse sample_template sample_cast sample_positive
            sample_config (answers "Hello") (Some (JObj creation_fields))
            support_store "alice" "c-new" _ _ _); try reflexivity.
  left. reflexivity.
Defined.

Lemma failed_turn_keeps_writes_witness :
  sample_POST sample_config unsaved_oracle
    (chat_request "Where is my order?" JUndef) support_store
  = (mkResponse (ErrorBody "Internal Server Error") 500,
     grown [mkConversation "c-new" "alice" "New Chat" 10] [] []
           [LogChatApiError (Error "Failed to save user message")] []
           support_store)
  /\ (fst (sample_POST sample_config unread_oracle
             (chat_request "And my refund?" (JStr "c-1")) history_store)
      = mkResponse (ErrorBody "Internal Server Error") 500
      /\ messages
           (snd (sample_POST sample_config unread_oracle
                   (chat_request "And my refund?" (JStr "c-1")) history_store))
         = messages history_store
           ++ [mkMessage "c-1" user "And my refund?" 11]
      /\ memories
           (snd (sample_POST sample_config unread_oracle
                   (chat_request "And my refund?" (JStr "c-1")) history_store))
         = memories history_store
      /\ inflight
           (snd (sample_POST sample_config unread_oracle
                   (chat_request "And my refund?" (JStr "c-1")) history_store))
         = inflight history_store).
Proof.
  destruct (failed_turn_keeps_writes
              sample_parse sample_template sample_cast sample_positive)
    as [Hsave Hread].
  split.
  - refine (Hsave sample_config unsaved_oracle
                  (chat_fields "alice" "Where is my order?" JUndef)
                  support_store "alice" "Where is my order?"
                  _ _ _ _ _ _ _); reflexivity.
  - refine (Hread sample_config unread_oracle
                  (chat_request "And my refund?" (JStr "c-1")) history_store
                  (snd (sample_accept unread_oracle
                          (chat_request "And my refund?" (JStr "c-1"))
                          history_store))
                  (mkAccepted "alice" "And my refund?" (JStr "c-1")) "c-1"
                  _ _ _ _); reflexivity.
Defined.

Lemma stored_user_name_round_trip_witness :
  getStoredUserName (setStoredUserName " Alice " sample_browser) = Some "Alice"
  /\ getItem "theme" (localStorage (setStoredUserName " Alice " sample_browser))
     = Some "dark".
Proof.
  destruct (proj1 (stored_user_name_round_trip " Alice " sample_browser)
              eq_refl) as [Hname Hother].
  split; [exact Hname | exact (Hother "theme" eq_refl)].
Defined.

Lemma display_name_round_trip_witness :
  getStoredUserName (setStoredUserName_display sample_lower " Alice " sample_browser)
  = Some "alice"
  /\ getStoredDisplayName
       (setStoredUserName_display sample_lower " Alice " sample_browser)
     = Some "Alice"
  /\ getStoredDisplayName sample_browser = getStoredUserName sample_browser.
Proof.
  destruct (display_name_round_trip sample_lower " Alice " sample_browser
              eq_refl) as (Hname & Hshown & Hnone).
  split; [exact Hname | split; [exact (Hshown eq_refl) | exact (Hnone eq_refl)]].
Defined.

Lemma handleNameSubmit_contract_witness :
  page_userId (handleNameSubmit sample_page) = Some "Alice"
  /\ page_isNameDialogOpen (handleNameSubmit sample_page) = false
  /\ getStoredUserName (page_browser (handleNameSubmit sample_page))
     = Some "Alice"
  /\ page_userId
       (on_mount (first_render (page_browser (handleNameSubmit sample_page))))
     = Some "Alice"
  /\ required_text (JStr "Alice") = Some "Alice".
Proof.
  refine (proj1 (handleNameSubmit_contract sample_page) _ _ _).
  - reflexivity.
  - apply Nat.leb_le. reflexivity.
  - reflexivity.
Defined.

Lemma failed_send_is_taken_back_witness :
  page_messages (handleSendMessage sample_page_oracle sample_page)
  = page_messages sample_page
  /\ page_input (handleSendMessage sample_page_oracle sample_page)
     = "And my refund?"
  /\ page_isLoading (handleSendMessage sample_page_oracle sample_page) = false
  /\ page_toasts (handleSendMessage sample_page_oracle sample_page)
     = [ToastError "Failed to send message"].
Proof.
  refine (failed_send_is_taken_back sample_page_oracle sample_page
            "alice" "c-1" _ _ _ _ _ _ _ _); try reflexivity.
  apply Nat.leb_le. reflexivity.
Defined.

Lemma page_sends_valid_messages_witness :
  picky_api (send_body "" "c-1" "alice")
  <> chat_api sample_page_oracle (send_body "" "c-1" "alice")
  /\ handleSendMessage (with_chat_api picky_api sample_page_oracle) sample_page
     = handleSendMessage sample_page_oracle sample_page.
Proof.
  split; [discriminate |].
  apply page_sends_valid_messages.
  intros message sessionId userId Hmessage _ _.
  destruct (required_text_inv _ _ Hmessage) as [_ Ht].
  unfold truthy in Ht. apply negb_true_iff in Ht.
  unfold picky_api, send_body. cbn. now rewrite Ht.
Defined.

Lemma page_shows_what_is_stored_witness :
  exists reply,
    page_messages
      (handleSendMessage
         (with_chat_api
            (fun body =>
               received (fst (sample_POST sample_config
                                (answers "Your refund is on its way.")
                                (Some body) history_store)))
            sample_page_oracle)
         sample_page)
    = page_messages sample_page
      ++ [mkPageMessage "1700000000000" user (JStr "And my refund?") "09:02";
          mkPageMessage "1700000000001" ai (JStr reply) "09:03"]
    /\ page_input
         (handleSendMessage
            (with_chat_api
               (fun body =>
                  received (fst (sample_POST sample_config
                                   (answers "Your refund is on its way.")
                                   (Some body) history_store)))
               sample_page_oracle)
            sample_page)
       = EmptyString
    /\ messages
         (snd (sample_POST sample_config (answers "Your refund is on its way.")
                 (Some (send_body "And my refund?" "c-1" "alice"))
                 history_store))
       = messages history_store
         ++ [mkMessage "c-1" user "And my refund?" 11;
             mkMessage "c-1" ai reply 12].
Proof.
  refine (page_shows_what_is_stored
            sample_parse sample_template sample_cast sample_positive
            sample_config (answers "Your refund is on its way.")
            sample_page_oracle sample_page history_store "alice" "c-1"
            _ _ _ _ _ _ _ history_store_well_formed _ _ _ _ _);
    try reflexivity.
  apply Nat.leb_le. reflexivity.
Defined.

